(** * Eda-Dashboard: the dataset profiling engine of [src/utils/DataAnalysis.tsx]

    A shallow embedding of the analysis functions ([detectColumnType],
    [calculateNumericStats], [calculateCategoricalStats], [detectOutliers],
    [calculateMissingData], [suggestChartTypes], [calculateCorrelationMatrix],
    [pearsonCorrelation], [analyzeDataset]) together with the fragment of the
    JavaScript run time and of lodash they rest on.

    Number model.  A JavaScript number is modelled by [num]: the three special
    values [NaN], [+Infinity], [-Infinity] and the finite numbers, carried by
    rationals.  A sum, product or quotient of finite numbers is the exact
    one while it stays in the binary64 range, and an infinity of its sign
    once it leaves it (overflow); the rounding to 53 bits inside the range
    is not modelled, and there is one zero.  The special values follow
    IEEE 754 (0/0 = NaN, x/0 = +-Infinity, Infinity - Infinity = NaN, ...).

    String model.  A JavaScript string is a [string]; each character stands
    for one code unit below 256. *)

From Stdlib Require Import ZArith QArith Qround Qabs Lia Lqa.
From Stdlib Require Import List Bool Arith String Ascii.
From Stdlib Require Import Sorting.Permutation Sorting.Sorted.
Import ListNotations.

Local Open Scope Z_scope.

(* ================================================================== *)
(** * JavaScript numbers *)
(* ================================================================== *)

Module JS.

Inductive num : Type :=
| NaN
| PInf
| NInf
| Fin (q : Q).

Definition zero : num := Fin 0.

(** A whole number as a number.  It is used for array lengths and their
    differences, which are below 2^32. *)
Definition of_Z (z : Z) : num := Fin (inject_Z z).
Definition of_nat (n : nat) : num := of_Z (Z.of_nat n).

(** The sign of a rational is the sign of its numerator. *)
Definition Qsgn (q : Q) : Z := Z.sgn (Qnum q).

(** Global [isNaN] and [isFinite] on a number. *)
Definition isNaN (x : num) : bool :=
  match x with NaN => true | _ => false end.

Definition isFinite (x : num) : bool :=
  match x with Fin _ => true | _ => false end.

(** From [2^1024 - 2^970] on, binary64 rounds to infinity. *)
Definition overflow_threshold : Q := inject_Z (2 ^ 1024 - 2 ^ 970).

(** The number for the exact result [q] of an operation: [q] in the
    binary64 range, the infinity of its sign beyond. *)
Definition of_exact (q : Q) : num :=
  if Qsgn (Qabs q - overflow_threshold) <? 0 then Fin q
  else if Qsgn q <? 0 then NInf else PInf.

Definition neg (x : num) : num :=
  match x with
  | NaN => NaN
  | PInf => NInf
  | NInf => PInf
  | Fin q => Fin (- q)
  end.

(** [x + y] *)
Definition add (x y : num) : num :=
  match x, y with
  | NaN, _ | _, NaN => NaN
  | PInf, NInf | NInf, PInf => NaN
  | PInf, _ | _, PInf => PInf
  | NInf, _ | _, NInf => NInf
  | Fin a, Fin b => of_exact (a + b)
  end.

(** [x - y] *)
Definition sub (x y : num) : num := add x (neg y).

(** An infinity with the sign of [s] times the sign of the infinity [pos];
    [Infinity * 0] is NaN. *)
Definition signed_inf (pos : bool) (s : Z) : num :=
  match s with
  | Z0 => NaN
  | Zpos _ => if pos then PInf else NInf
  | Zneg _ => if pos then NInf else PInf
  end.

(** [x * y] *)
Definition mul (x y : num) : num :=
  match x, y with
  | NaN, _ | _, NaN => NaN
  | PInf, PInf | NInf, NInf => PInf
  | PInf, NInf | NInf, PInf => NInf
  | PInf, Fin b => signed_inf true (Qsgn b)
  | NInf, Fin b => signed_inf false (Qsgn b)
  | Fin a, PInf => signed_inf true (Qsgn a)
  | Fin a, NInf => signed_inf false (Qsgn a)
  | Fin a, Fin b => of_exact (a * b)
  end.

(** [x / y]; the model has one zero, which divides as [+0]. *)
Definition div (x y : num) : num :=
  match x, y with
  | NaN, _ | _, NaN => NaN
  | PInf, PInf | PInf, NInf | NInf, PInf | NInf, NInf => NaN
  | PInf, Fin b => if Qsgn b <? 0 then NInf else PInf
  | NInf, Fin b => if Qsgn b <? 0 then PInf else NInf
  | Fin _, PInf | Fin _, NInf => zero
  | Fin a, Fin b =>
      if Qsgn b =? 0 then signed_inf true (Qsgn a) else of_exact (a / b)
  end.

(** [Math.pow(x, n)] for the literal exponents the program uses (2, 3, 4),
    as a repeated product. *)
Fixpoint pow (x : num) (n : nat) : num :=
  match n with
  | O => Fin 1
  | S O => x
  | S m => mul x (pow x m)
  end.

(** Square root of a non-negative rational: exact on squares of rationals,
    otherwise rounded down to a multiple of 2^-64 over the denominator.
    (Math.sqrt rounds to the nearest binary64; both are exact on squares.) *)
Definition sqrt_scale : Z := 2 ^ 64.

Definition Qsqrt (q : Q) : Q :=
  let n := Qnum q in
  let d := Zpos (Qden q) in
  Qred (Qmake (Z.sqrt (n * d * (sqrt_scale * sqrt_scale)))
              (Z.to_pos (d * sqrt_scale))).

(** [Math.sqrt(x)] *)
Definition sqrt (x : num) : num :=
  match x with
  | NaN | NInf => NaN
  | PInf => PInf
  | Fin q => if Qsgn q <? 0 then NaN else Fin (Qsqrt q)
  end.

(** The relational operators; every comparison with NaN is false. *)
Definition ltb (x y : num) : bool :=
  match x, y with
  | NaN, _ | _, NaN => false
  | _, NInf | PInf, _ => false
  | NInf, _ | _, PInf => true
  | Fin a, Fin b => Qsgn (a - b) <? 0
  end.

Definition gtb (x y : num) : bool := ltb y x.

(** [x === y] on numbers. *)
Definition eqb (x y : num) : bool :=
  match x, y with
  | PInf, PInf | NInf, NInf => true
  | Fin a, Fin b => Qsgn (a - b) =? 0
  | _, _ => false
  end.

(** ToBoolean on a number: NaN and 0 are falsy. *)
Definition truthy (x : num) : bool :=
  match x with
  | NaN => false
  | Fin q => negb (Qsgn q =? 0)
  | _ => true
  end.

(** [Number.isInteger] *)
Definition isInteger (x : num) : bool :=
  match x with
  | Fin q => Qsgn (q - inject_Z (Qfloor q)) =? 0
  | _ => false
  end.

(** [Math.floor] of a finite number, as an index. *)
Definition floor_index (x : num) : nat :=
  match x with
  | Fin q => Z.to_nat (Qfloor q)
  | _ => O
  end.

(** [Number(x.toFixed(d))].  toFixed takes the integer [n] for which
    [n / 10^d - |x|] is closest to zero, the larger one on a tie, and prints
    it with the sign of [x]; from 10^21 on it prints [x] itself. *)
Definition pow10 (d : nat) : Z := 10 ^ Z.of_nat d.

Definition Qround_fixed (d : nat) (q : Q) : Q :=
  let n := Qfloor (Qabs q * inject_Z (pow10 d) + (1 # 2)) in
  Qred (Qmake (Qsgn q * n) (Z.to_pos (pow10 d))).

Definition toFixedNumber (d : nat) (x : num) : num :=
  match x with
  | Fin q =>
      if Qsgn (Qabs q - inject_Z (10 ^ 21)) <? 0
      then Fin (Qround_fixed d q) else Fin q
  | _ => x
  end.

End JS.

(* ================================================================== *)
(** * JavaScript strings, values and objects *)
(* ================================================================== *)

Module Str.

Local Open Scope char_scope.

Definition code (c : ascii) : N := N_of_ascii c.

(** WhiteSpace and LineTerminator code units below 256: TAB, LF, VT, FF, CR,
    SP and NBSP.  They are what [trim] strips and what [\s] matches. *)
Definition is_ws (c : ascii) : bool :=
  let n := code c in
  ((9 <=? n) && (n <=? 13) || (n =? 32) || (n =? 160))%N.

Fixpoint trimStart (s : string) : string :=
  match s with
  | EmptyString => EmptyString
  | String c r => if is_ws c then trimStart r else s
  end.

Fixpoint trimEnd (s : string) : string :=
  match s with
  | EmptyString => EmptyString
  | String c r =>
      match trimEnd r with
      | EmptyString => if is_ws c then EmptyString else String c EmptyString
      | r' => String c r'
      end
  end.

(** [s.trim()] *)
Definition trim (s : string) : string := trimEnd (trimStart s).

(** [c.toLowerCase()] on one code unit below 256. *)
Definition lower_char (c : ascii) : ascii :=
  let n := code c in
  if ((65 <=? n) && (n <=? 90)
      || (192 <=? n) && (n <=? 222) && negb (n =? 215))%N
  then ascii_of_N (n + 32) else c.

(** [s.toLowerCase()] *)
Fixpoint toLowerCase (s : string) : string :=
  match s with
  | EmptyString => EmptyString
  | String c r => String (lower_char c) (toLowerCase r)
  end.

(** [s.replace(/\s+/g, '_')]: every maximal run of white space becomes one
    underscore.  [in_run] says that the previous code unit was white space. *)
Fixpoint replace_ws_runs (in_run : bool) (s : string) : string :=
  match s with
  | EmptyString => EmptyString
  | String c r =>
      if is_ws c
      then if in_run then replace_ws_runs true r
           else String "_" (replace_ws_runs true r)
      else String c (replace_ws_runs false r)
  end.

(** ** StringToNumber *)

Definition digit_value (c : ascii) : option Z :=
  let n := code c in
  if ((48 <=? n) && (n <=? 57))%N then Some (Z.of_N (n - 48))
  else if ((97 <=? n) && (n <=? 102))%N then Some (Z.of_N (n - 87))
  else if ((65 <=? n) && (n <=? 70))%N then Some (Z.of_N (n - 55))
  else None.

Definition digit_in (base : Z) (c : ascii) : option Z :=
  match digit_value c with
  | Some v => if (v <? base)%Z then Some v else None
  | None => None
  end.

(** The longest prefix of [s] made of digits of [base]: its value read after
    [acc], how many digits it has, and what follows it. *)
Fixpoint take_digits (base : Z) (acc : Z) (s : string) : Z * nat * string :=
  match s with
  | EmptyString => (acc, O, EmptyString)
  | String c r =>
      match digit_in base c with
      | Some v =>
          let '(z, k, rest) := take_digits base (acc * base + v)%Z r in
          (z, S k, rest)
      | None => (acc, O, s)
      end
  end.

(** A string of one or more digits of [base] and nothing else. *)
Definition all_digits (base : Z) (s : string) : JS.num :=
  match take_digits base 0 s with
  | (z, S _, EmptyString) => JS.of_exact (inject_Z z)
  | _ => JS.NaN
  end.

(** [m * 10^e] *)
Definition scale10 (m e : Z) : Q :=
  if (0 <=? e)%Z then inject_Z (m * 10 ^ e)
  else Qred (Qmake m (Z.to_pos (10 ^ (- e)))).

(** The optional ExponentPart and the end of the literal: the exponent.  *)
Definition exponent_part (s : string) : option Z :=
  match s with
  | EmptyString => Some 0%Z
  | String c r =>
      if ((code c =? 101) || (code c =? 69))%N then
        let '(sgn, digits) :=
          match r with
          | String "+" r' => (1%Z, r')
          | String "-" r' => ((-1)%Z, r')
          | _ => (1%Z, r)
          end in
        match take_digits 10 0 digits with
        | (z, S _, EmptyString) => Some (sgn * z)%Z
        | _ => None
        end
      else None
  end.

(** StrUnsignedDecimalLiteral: [Infinity], [digits . digits? exp?],
    [. digits exp?] or [digits exp?]. *)
Definition unsigned_decimal (s : string) : JS.num :=
  if String.eqb s "Infinity" then JS.PInf else
  let '(ip, ni, s1) := take_digits 10 0 s in
  let '(m, nf, s2) :=
    match s1 with
    | String "." r => take_digits 10 ip r
    | _ => (ip, O, s1)
    end in
  match (ni + nf)%nat with
  | O => JS.NaN
  | _ =>
      match exponent_part s2 with
      | Some e => JS.of_exact (scale10 m (e - Z.of_nat nf))
      | None => JS.NaN
      end
  end.

Definition decimal_literal (s : string) : JS.num :=
  match s with
  | String "+" r => unsigned_decimal r
  | String "-" r => JS.neg (unsigned_decimal r)
  | _ => unsigned_decimal s
  end.

(** [Number(s)] for a string: white space is trimmed, the empty string is 0,
    then a binary, octal, hexadecimal or decimal literal; anything else is
    NaN.  A literal in the binary64 range reads as the rational it denotes,
    a larger one as an infinity. *)
Definition StringToNumber (s : string) : JS.num :=
  match trim s with
  | EmptyString => JS.zero
  | String "0" (String c r) as t =>
      if ((code c =? 120) || (code c =? 88))%N then all_digits 16 r
      else if ((code c =? 111) || (code c =? 79))%N then all_digits 8 r
      else if ((code c =? 98) || (code c =? 66))%N then all_digits 2 r
      else decimal_literal t
  | t => decimal_literal t
  end.

End Str.


(** ** Values *)

(** The raw scalar of a cell: [null], [undefined], a boolean, a number or a
    string. *)
Inductive value : Type :=
| VNull
| VUndefined
| VBool (b : bool)
| VNum (n : JS.num)
| VStr (s : string).

Module Val.

(** [Number(v)] *)
Definition ToNumber (v : value) : JS.num :=
  match v with
  | VNull => JS.zero
  | VUndefined => JS.NaN
  | VBool true => JS.Fin 1
  | VBool false => JS.zero
  | VNum n => n
  | VStr s => Str.StringToNumber s
  end.

(** [v === null], [v === undefined], [v === ''] *)
Definition is_null (v : value) : bool :=
  match v with VNull => true | _ => false end.

Definition is_undefined (v : value) : bool :=
  match v with VUndefined => true | _ => false end.

Definition is_empty_string (v : value) : bool :=
  match v with VStr EmptyString => true | _ => false end.

(** SameValueZero, the equality of [_.uniq]: NaN equals NaN. *)
Definition same_value_zero (v w : value) : bool :=
  match v, w with
  | VNull, VNull | VUndefined, VUndefined => true
  | VBool a, VBool b => Bool.eqb a b
  | VNum JS.NaN, VNum JS.NaN => true
  | VNum a, VNum b => JS.eqb a b
  | VStr a, VStr b => String.eqb a b
  | _, _ => false
  end.

(** The largest time value of a Date, 8.64e15 ms. *)
Definition max_time : Q := inject_Z (864 * 10 ^ 13).

(** TimeClip: a time value is valid when it is finite and at most
    [max_time] in magnitude. *)
Definition TimeClip (t : JS.num) : JS.num :=
  match t with
  | JS.Fin q => if JS.Qsgn (max_time - Qabs q) <? 0 then JS.NaN else t
  | _ => JS.NaN
  end.

End Val.

(** ** Objects

    An object used as a record of cells: its own properties in the order
    [Object.keys] lists them.  The analysis reads a row by key only. *)
Definition object : Type := list (string * value).

Module Obj.

Section Generic.
Context {A : Type}.

(** [o[k]]: the first property named [k]. *)
Fixpoint get (o : list (string * A)) (k : string) : option A :=
  match o with
  | [] => None
  | (k', v) :: r => if String.eqb k' k then Some v else get r k
  end.

(** [o[k] = v]: overwrite in place, or add a last property. *)
Fixpoint set (o : list (string * A)) (k : string) (v : A)
  : list (string * A) :=
  match o with
  | [] => [(k, v)]
  | (k', v') :: r =>
      if String.eqb k' k then (k', v) :: r else (k', v') :: set r k v
  end.

Definition keys (o : list (string * A)) : list string := map fst o.

End Generic.

(** A cell read from a row: a missing property reads as [undefined]. *)
Definition cell (o : object) (k : string) : value :=
  match get o k with
  | Some v => v
  | None => VUndefined
  end.

End Obj.

(* ================================================================== *)
(** * Arrays and lodash *)
(* ================================================================== *)

Module Arr.

Section Generic.
Context {A : Type}.

(** A stable sort, by insertion.  [after x y] says that [x] must come after
    [y]; an element never overtakes one it need not come after, so equal
    elements keep their order. *)
Fixpoint insert (after : A -> A -> bool) (x : A) (l : list A) : list A :=
  match l with
  | [] => [x]
  | y :: r => if after x y then y :: insert after x r else x :: l
  end.

Definition stable_sort (after : A -> A -> bool) (l : list A) : list A :=
  fold_right (insert after) [] l.

(** [l.map((x, i) => f x i)] *)
Fixpoint mapi_from (i : nat) {B : Type} (f : A -> nat -> B) (l : list A)
  : list B :=
  match l with
  | [] => []
  | x :: r => f x i :: mapi_from (S i) f r
  end.

Definition mapi {B : Type} (f : A -> nat -> B) (l : list A) : list B :=
  mapi_from O f l.

End Generic.

(** [l.sort((a, b) => a - b)]: [a] goes after [b] when [a - b > 0]. *)
Definition sort_numbers (l : list JS.num) : list JS.num :=
  stable_sort (fun a b => JS.gtb (JS.sub a b) JS.zero) l.

(** [l[i]] in arithmetic: an index out of range reads [undefined], which
    converts to NaN. *)
Definition at_num (l : list JS.num) (i : nat) : JS.num := nth i l JS.NaN.

End Arr.

Module Lodash.

(** [_.sum]: the elements added from left to right, 0 for no element. *)
Definition sum (l : list JS.num) : JS.num :=
  match l with
  | [] => JS.zero
  | x :: r => fold_left JS.add r x
  end.

(** [_.mean]: NaN for no element. *)
Definition mean (l : list JS.num) : JS.num :=
  match l with
  | [] => JS.NaN
  | _ => JS.div (sum l) (JS.of_nat (List.length l))
  end.

(** [_.uniq]: the first occurrence of each value, in order. *)
Fixpoint uniq_acc (seen : list value) (l : list value) : list value :=
  match l with
  | [] => []
  | v :: r =>
      if existsb (Val.same_value_zero v) seen then uniq_acc seen r
      else v :: uniq_acc (v :: seen) r
  end.

Definition uniq (l : list value) : list value := uniq_acc [] l.

(** [_.orderBy(l, [key], ['desc'])] on string keys: a stable sort in which
    [x] goes after [y] when [key x < key y] as strings. *)
Definition orderBy_desc_string {A : Type} (key : A -> string) (l : list A)
  : list A :=
  Arr.stable_sort (fun x y => String.ltb (key x) (key y)) l.

(** [_.orderBy(l, [key], ['desc'])] on counts. *)
Definition orderBy_desc_nat {A : Type} (key : A -> nat) (l : list A)
  : list A :=
  Arr.stable_sort (fun x y => Nat.ltb (key x) (key y)) l.

End Lodash.

(* ================================================================== *)
(** * The data model of a profile *)
(* ================================================================== *)

(** The inferred type of a column: ['integer'], ['float'], ['boolean'],
    ['date'], ['string'] or ['unknown']. *)
Inductive ColumnType : Type :=
| TInteger | TFloat | TBoolean | TDate | TString | TUnknown.

Definition is_numeric_type (t : ColumnType) : bool :=
  match t with TInteger | TFloat => true | _ => false end.

Definition is_categorical_type (t : ColumnType) : bool :=
  match t with TString | TBoolean => true | _ => false end.

Definition is_date_type (t : ColumnType) : bool :=
  match t with TDate => true | _ => false end.

(** A field that may hold [null]: [None] is [null]. *)
Definition nullable (A : Type) : Type := option A.

Module NumericStats.
Record t : Type := mk {
  count : nat;
  mean : nullable JS.num;
  median : nullable JS.num;
  std : nullable JS.num;
  min : nullable JS.num;
  max : nullable JS.num;
  q1 : nullable JS.num;
  q3 : nullable JS.num;
  variance : nullable JS.num;
  skewness : nullable JS.num;
  kurtosis : nullable JS.num
}.
End NumericStats.

Module TopValue.
Record t : Type := mk {
  value : string;
  count : nat;
  percentage : JS.num
}.
End TopValue.

Module CategoricalStats.
Record t : Type := mk {
  count : nat;
  uniqueCount : nat;
  mode : nullable string;
  modeFrequency : nat;
  valueCounts : list (string * nat);
  topValues : list TopValue.t
}.
End CategoricalStats.

(** [stats] has exactly one of the two shapes. *)
Inductive Stats : Type :=
| Numeric (s : NumericStats.t)
| Categorical (s : CategoricalStats.t).

Module MissingData.
Record t : Type := mk {
  total : nat;
  missing : nat;
  present : Z;
  missingPercentage : JS.num;
  presentPercentage : JS.num
}.
End MissingData.

Module Column.
Record t : Type := mk {
  name : string;
  type : ColumnType;
  missingData : MissingData.t;
  stats : Stats;
  outliers : list JS.num;
  sampleValues : list value
}.
End Column.

Module ChartSuggestion.
(** [requiredColumns] has an [x], an [x] and a [y], or no property. *)
Record t : Type := mk {
  type : string;
  title : string;
  description : string;
  requiredColumns : list (string * string);
  priority : string
}.
End ChartSuggestion.

Module Profile.
(** The profile [analyzeDataset] returns, without [summary],
    [qualityAssessment] and [metadata], which no statement below reads. *)
Record t : Type := mk {
  filename : string;
  data : list object;
  columns : list Column.t;
  correlations : list (string * list (string * JS.num));
  chartSuggestions : list ChartSuggestion.t
}.
End Profile.

(** A call either throws an [Error] with a message or returns. *)
Inductive outcome (A : Type) : Type :=
| Throw (message : string)
| Return (a : A).
Arguments Throw {A} message.
Arguments Return {A} a.

(* ================================================================== *)
(** * The analysis functions *)
(* ================================================================== *)

Section Analysis.

(** Two functions of the host that ECMAScript leaves to the implementation
    or that have no exact counterpart on rationals: [Date.parse] on a string,
    and the decimal printing of a number, [String(n)]. *)
Variable Date_parse : string -> JS.num.
Variable Number_toString : JS.num -> string.

(** [v !== null && v !== undefined && v !== ''] *)
Definition nonNull (v : value) : bool :=
  negb (Val.is_null v) && negb (Val.is_undefined v)
  && negb (Val.is_empty_string v).

(** [!isNaN(x) && isFinite(x)] *)
Definition finite_number (x : JS.num) : bool :=
  negb (JS.isNaN x) && JS.isFinite x.

(** [!isNaN(Number(v)) && isFinite(Number(v))] *)
Definition numeric_like (v : value) : bool :=
  finite_number (Val.ToNumber v).

Definition boolean_words : list string :=
  ["true"; "false"; "yes"; "no"; "1"; "0"]%string.

(** [typeof v === 'boolean' ||
     (typeof v === 'string' && [...].includes(v.toLowerCase()))] *)
Definition boolean_like (v : value) : bool :=
  match v with
  | VBool _ => true
  | VStr s => existsb (String.eqb (Str.toLowerCase s)) boolean_words
  | _ => false
  end.

(** [new Date(v).getTime()] *)
Definition date_time (v : value) : JS.num :=
  match v with
  | VStr s => Val.TimeClip (Date_parse s)
  | _ => Val.TimeClip (Val.ToNumber v)
  end.

(** [!isNaN(new Date(v).getTime())] *)
Definition date_like (v : value) : bool := negb (JS.isNaN (date_time v)).

Definition detectColumnType (values : list value) : ColumnType :=
  let nonNullValues := filter nonNull values in
  if (List.length nonNullValues =? 0)%nat then TUnknown else
  let numericValues := filter numeric_like nonNullValues in
  if (List.length numericValues =? List.length nonNullValues)%nat then
    let isAllIntegers :=
      forallb (fun v => JS.isInteger (Val.ToNumber v)) numericValues in
    if isAllIntegers then TInteger else TFloat
  else
  let booleanValues := filter boolean_like nonNullValues in
  if (List.length booleanValues =? List.length nonNullValues)%nat
  then TBoolean else
  let dateValues := filter date_like nonNullValues in
  if (List.length dateValues =? List.length nonNullValues)%nat
  then TDate else
  TString.

(** [values.map(v => Number(v)).filter(v => !isNaN(v) && isFinite(v))
          .sort((a, b) => a - b)] *)
Definition sorted_numbers (values : list value) : list JS.num :=
  Arr.sort_numbers (filter finite_number (map Val.ToNumber values)).

(** The quartile positions [Math.floor(count * 0.25)] and
    [Math.floor(count * 0.75)]. *)
Definition q1Index (count : nat) : nat :=
  JS.floor_index (JS.mul (JS.of_nat count) (JS.Fin (1 # 4))).

Definition q3Index (count : nat) : nat :=
  JS.floor_index (JS.mul (JS.of_nat count) (JS.Fin (3 # 4))).

(** [x ? Number(x.toFixed(4)) : null] for [x] a number or [null]. *)
Definition rounded_if_truthy (x : nullable JS.num) : nullable JS.num :=
  match x with
  | Some s => if JS.truthy s then Some (JS.toFixedNumber 4 s) else None
  | None => None
  end.

(** [_.sum(numericValues.map(v => Math.pow(v - mean, 2))) / (count - 1)] *)
Definition sample_variance (numericValues : list JS.num) (mean : JS.num)
  : JS.num :=
  JS.div (Lodash.sum (map (fun v => JS.pow (JS.sub v mean) 2) numericValues))
         (JS.sub (JS.of_nat (List.length numericValues)) (JS.Fin 1)).

(** [_.sum(numericValues.map(v => Math.pow((v - mean) / std, k))) / count] *)
Definition standardized_moment (k : nat) (numericValues : list JS.num)
  (mean std : JS.num) : JS.num :=
  JS.div
    (Lodash.sum
       (map (fun v => JS.pow (JS.div (JS.sub v mean) std) k) numericValues))
    (JS.of_nat (List.length numericValues)).

(** The skewness and the kurtosis before [toFixed]: a number, or [null]
    for a sample that is too small. *)
Definition computed_skewness (numericValues : list JS.num) : nullable JS.num :=
  let count := List.length numericValues in
  let mean := Lodash.mean numericValues in
  let std := JS.sqrt (sample_variance numericValues mean) in
  if (2 <? count)%nat
  then Some (standardized_moment 3 numericValues mean std)
  else None.

Definition computed_kurtosis (numericValues : list JS.num) : nullable JS.num :=
  let count := List.length numericValues in
  let mean := Lodash.mean numericValues in
  let std := JS.sqrt (sample_variance numericValues mean) in
  if (3 <? count)%nat
  then Some (JS.sub (standardized_moment 4 numericValues mean std) (JS.Fin 3))
  else None.

(** The median of a sorted, non-empty sample.  The middle position
    [count / 2] is a whole number when it is used as an index: for an even
    [count], and under [Math.floor] for an odd one. *)
Definition median_of (numericValues : list JS.num) : JS.num :=
  let count := List.length numericValues in
  if (count mod 2 =? 0)%nat
  then JS.div (JS.add (Arr.at_num numericValues (count / 2 - 1))
                      (Arr.at_num numericValues (count / 2)))
              (JS.Fin 2)
  else Arr.at_num numericValues (count / 2).

Definition calculateNumericStats (values : list value) : NumericStats.t :=
  let numericValues := sorted_numbers values in
  if (List.length numericValues =? 0)%nat then
    NumericStats.mk 0 None None None None None None None None None None
  else
  let count := List.length numericValues in
  let mean := Lodash.mean numericValues in
  let median := median_of numericValues in
  let variance := sample_variance numericValues mean in
  let std := JS.sqrt variance in
  let q1 := Arr.at_num numericValues (q1Index count) in
  let q3 := Arr.at_num numericValues (q3Index count) in
  let skewness := computed_skewness numericValues in
  let kurtosis := computed_kurtosis numericValues in
  NumericStats.mk
    count
    (Some (JS.toFixedNumber 4 mean))
    (Some median)
    (Some (JS.toFixedNumber 4 std))
    (Some (Arr.at_num numericValues 0))
    (Some (Arr.at_num numericValues (count - 1)))
    (Some q1)
    (Some q3)
    (Some (JS.toFixedNumber 4 variance))
    (rounded_if_truthy skewness)
    (rounded_if_truthy kurtosis).

(** [String(v)], the property key a value counts under. *)
Definition ToString (v : value) : string :=
  match v with
  | VNull => "null"
  | VUndefined => "undefined"
  | VBool true => "true"
  | VBool false => "false"
  | VNum n => Number_toString n
  | VStr s => s
  end.

(** [_.countBy(values)]: the number of values under each key. *)
Definition countBy (values : list value) : list (string * nat) :=
  fold_left
    (fun counts v =>
       let key := ToString v in
       match Obj.get counts key with
       | Some c => Obj.set counts key (S c)
       | None => Obj.set counts key 1%nat
       end)
    values [].

(** An array index as a property key: a canonical numeral below 2^32 - 1. *)
Definition array_index (k : string) : option Z :=
  match k with
  | EmptyString => None
  | String "0" (String _ _) => None
  | _ =>
      match Str.take_digits 10 0 k with
      | (z, _, EmptyString) => if z <? 2 ^ 32 - 1 then Some z else None
      | _ => None
      end
  end.

(** [Object.entries(o)]: array-index keys first, in ascending order, then
    the other keys in insertion order. *)
Definition entries {A : Type} (o : list (string * A)) : list (string * A) :=
  let index_of (e : string * A) :=
    match array_index (fst e) with Some z => z | None => 0 end in
  let is_index (e : string * A) :=
    match array_index (fst e) with Some _ => true | None => false end in
  Arr.stable_sort (fun x y => index_of y <? index_of x) (filter is_index o)
  ++ filter (fun e => negb (is_index e)) o.

Definition calculateCategoricalStats (values : list value)
  : CategoricalStats.t :=
  let nonNullValues := filter nonNull values in
  let valueCounts := countBy nonNullValues in
  let sortedCounts := Lodash.orderBy_desc_nat snd (entries valueCounts) in
  let uniqueCount := List.length (Obj.keys valueCounts) in
  let totalCount := List.length nonNullValues in
  let mode :=
    match sortedCounts with e :: _ => Some (fst e) | [] => None end in
  let modeFrequency :=
    match sortedCounts with e :: _ => snd e | [] => O end in
  CategoricalStats.mk
    totalCount uniqueCount mode modeFrequency valueCounts
    (map (fun e =>
            TopValue.mk (fst e) (snd e)
              (JS.toFixedNumber 2
                 (JS.mul (JS.div (JS.of_nat (snd e)) (JS.of_nat totalCount))
                         (JS.Fin 100))))
         (firstn 10 sortedCounts)).

Definition detectOutliers (values : list value) : list JS.num :=
  let numericValues := sorted_numbers values in
  if (List.length numericValues <? 4)%nat then [] else
  let count := List.length numericValues in
  let q1 := Arr.at_num numericValues (q1Index count) in
  let q3 := Arr.at_num numericValues (q3Index count) in
  let iqr := JS.sub q3 q1 in
  let lowerBound := JS.sub q1 (JS.mul (JS.Fin (3 # 2)) iqr) in
  let upperBound := JS.add q3 (JS.mul (JS.Fin (3 # 2)) iqr) in
  filter (fun v => JS.ltb v lowerBound || JS.gtb v upperBound) numericValues.

(** [v === null || v === undefined || v === '' ||
     (typeof v === 'string' && v.trim() === '') ||
     (typeof v === 'number' && isNaN(v))] *)
Definition is_missing (v : value) : bool :=
  Val.is_null v || Val.is_undefined v || Val.is_empty_string v
  || match v with
     | VStr s => String.eqb (Str.trim s) EmptyString
     | _ => false
     end
  || match v with
     | VNum n => JS.isNaN n
     | _ => false
     end.

Definition calculateMissingData (values : list value) : MissingData.t :=
  let total := List.length values in
  let missing := List.length (filter is_missing values) in
  MissingData.mk
    total
    missing
    (Z.of_nat total - Z.of_nat missing)
    (JS.toFixedNumber 2
       (JS.mul (JS.div (JS.of_nat missing) (JS.of_nat total)) (JS.Fin 100)))
    (JS.toFixedNumber 2
       (JS.mul (JS.div (JS.of_Z (Z.of_nat total - Z.of_nat missing))
                       (JS.of_nat total))
               (JS.Fin 100))).

(** The [suggestions] array as the rules push it, before the final sort. *)
Definition pushed_suggestions (columns : list Column.t)
  : list ChartSuggestion.t :=
  let numericColumns :=
    filter (fun col => is_numeric_type (Column.type col)) columns in
  let categoricalColumns :=
    filter (fun col => is_categorical_type (Column.type col)) columns in
  let dateColumns :=
    filter (fun col => is_date_type (Column.type col)) columns in
  let suggestions : list ChartSuggestion.t := [] in
  (* Single numeric column - histogram, box plot *)
  let suggestions :=
    match numericColumns with
    | n0 :: _ =>
        suggestions
        ++ [ChartSuggestion.mk "histogram" "Distribution Analysis"
              "Shows the distribution of numeric values"
              [("x"%string, Column.name n0)] "high"]
        ++ [ChartSuggestion.mk "boxplot" "Box Plot Analysis"
              "Shows quartiles and outliers"
              [("x"%string, Column.name n0)] "medium"]
    | [] => suggestions
    end in
  (* Two numeric columns - scatter plot *)
  let suggestions :=
    match numericColumns with
    | n0 :: n1 :: _ =>
        suggestions
        ++ [ChartSuggestion.mk "scatter" "Correlation Analysis"
              "Shows relationship between two numeric variables"
              [("x"%string, Column.name n0); ("y"%string, Column.name n1)] "high"]
    | _ => suggestions
    end in
  (* Multiple numeric columns - correlation heatmap *)
  let suggestions :=
    if (3 <=? List.length numericColumns)%nat then
      suggestions
      ++ [ChartSuggestion.mk "heatmap" "Correlation Matrix"
            "Shows correlations between all numeric variables"
            [] "medium"]
    else suggestions in
  (* Categorical and numeric - bar chart *)
  let suggestions :=
    match categoricalColumns, numericColumns with
    | c0 :: _, n0 :: _ =>
        suggestions
        ++ [ChartSuggestion.mk "bar" "Category Comparison"
              "Compare numeric values across categories"
              [("x"%string, Column.name c0); ("y"%string, Column.name n0)] "high"]
    | _, _ => suggestions
    end in
  (* Single categorical - pie chart *)
  let suggestions :=
    match categoricalColumns with
    | c0 :: _ =>
        suggestions
        ++ [ChartSuggestion.mk "pie" "Category Distribution"
              "Shows proportion of each category"
              [("x"%string, Column.name c0)] "medium"]
    | [] => suggestions
    end in
  (* Time series - line chart *)
  let suggestions :=
    match dateColumns, numericColumns with
    | d0 :: _, n0 :: _ =>
        suggestions
        ++ [ChartSuggestion.mk "line" "Time Series Analysis"
              "Shows trends over time"
              [("x"%string, Column.name d0); ("y"%string, Column.name n0)] "high"]
    | _, _ => suggestions
    end in
  suggestions.

(** [return _.orderBy(suggestions, ['priority'], ['desc'])] *)
Definition suggestChartTypes (columns : list Column.t)
  : list ChartSuggestion.t :=
  Lodash.orderBy_desc_string ChartSuggestion.priority
    (pushed_suggestions columns).

(** [numerator] and [denominator] of [pearsonCorrelation], for [x] and [y]
    of the same length [n]. *)
Definition pearson_numerator (x y : list JS.num) : JS.num :=
  let n := List.length x in
  let sumX := Lodash.sum x in
  let sumY := Lodash.sum y in
  let sumXY :=
    Lodash.sum (Arr.mapi (fun xi i => JS.mul xi (Arr.at_num y i)) x) in
  JS.sub (JS.mul (JS.of_nat n) sumXY) (JS.mul sumX sumY).

Definition pearson_denominator (x y : list JS.num) : JS.num :=
  let n := List.length x in
  let sumX := Lodash.sum x in
  let sumY := Lodash.sum y in
  let sumX2 := Lodash.sum (map (fun xi => JS.mul xi xi) x) in
  let sumY2 := Lodash.sum (map (fun yi => JS.mul yi yi) y) in
  JS.sqrt (JS.mul (JS.sub (JS.mul (JS.of_nat n) sumX2) (JS.mul sumX sumX))
                  (JS.sub (JS.mul (JS.of_nat n) sumY2) (JS.mul sumY sumY))).

Definition pearsonCorrelation (x y : list JS.num) : JS.num :=
  let n := List.length x in
  if negb (n =? List.length y)%nat || (n =? 0)%nat then JS.zero else
  let numerator := pearson_numerator x y in
  let denominator := pearson_denominator x y in
  if JS.eqb denominator JS.zero then JS.zero
  else JS.toFixedNumber 4 (JS.div numerator denominator).

(** [data.map(d => Number(d[col])).filter(v => !isNaN(v) && isFinite(v))] *)
Definition column_numbers (data : list object) (col : string) : list JS.num :=
  filter finite_number (map (fun d => Val.ToNumber (Obj.cell d col)) data).

(** The entry written at [correlations[col1][col2]]. *)
Definition correlation_entry (data : list object) (col1 col2 : string)
  : JS.num :=
  let values1 := column_numbers data col1 in
  let values2 := column_numbers data col2 in
  if (List.length values1 =? List.length values2)%nat
     && (1 <? List.length values1)%nat
  then pearsonCorrelation values1 values2
  else JS.zero.

(** The matrix and its rows are plain maps of their keys: the key
    [__proto__], under which a JavaScript object stores no property, is not
    modelled, and what is stated of an entry of the matrix excludes it. *)
Definition calculateCorrelationMatrix
  (data : list object) (numericColumns : list string)
  : list (string * list (string * JS.num)) :=
  fold_left
    (fun correlations col1 =>
       Obj.set correlations col1
         (fold_left
            (fun row col2 => Obj.set row col2 (correlation_entry data col1 col2))
            numericColumns []))
    numericColumns [].

(** [name.trim().replace(/\s+/g, '_').toLowerCase()] *)
Definition clean_name (name : string) : string :=
  Str.toLowerCase (Str.replace_ws_runs false (Str.trim name)).

(** The row re-keyed under the cleaned names; a position past the last
    column name is keyed by [undefined].  The new row is a plain map of its
    keys: the key [__proto__], under which a JavaScript object stores no
    property, is not modelled, and what is stated of a cell read back
    excludes it. *)
Definition clean_row (columnNames : list string) (row : object) : object :=
  fold_left
    (fun cleanRow p =>
       Obj.set cleanRow (nth (snd p) columnNames "undefined"%string)
               (Obj.cell row (fst p)))
    (Arr.mapi (fun originalName index => (originalName, index)) (Obj.keys row))
    [].

(** The profile of one column. *)
Definition analyze_column (cleanData : list object) (name : string)
  : Column.t :=
  let values := map (fun row => Obj.cell row name) cleanData in
  let type := detectColumnType values in
  let missingData := calculateMissingData values in
  let stats :=
    if is_numeric_type type
    then Numeric (calculateNumericStats values)
    else Categorical (calculateCategoricalStats values) in
  let outliers :=
    if is_numeric_type type then detectOutliers values else [] in
  Column.mk
    name type missingData stats
    (if (0 <? List.length outliers)%nat then firstn 10 outliers else [])
    (firstn 5 (Lodash.uniq (filter nonNull values))).

(** [data] is [None] when the caller passes [null] or [undefined]. *)
Definition analyzeDataset (data : option (list object)) (filename : string)
  : outcome Profile.t :=
  match data with
  | None | Some [] => Throw "Dataset is empty or invalid"
  | Some ((firstRow :: _) as data) =>
      let columnNames := map clean_name (Obj.keys firstRow) in
      let cleanData := map (clean_row columnNames) data in
      let columns := map (analyze_column cleanData) columnNames in
      let numericColumnNames :=
        map Column.name
            (filter (fun col => is_numeric_type (Column.type col)) columns) in
      let correlations :=
        if (2 <=? List.length numericColumnNames)%nat
        then calculateCorrelationMatrix cleanData numericColumnNames
        else [] in
      let chartSuggestions := suggestChartTypes columns in
      Return (Profile.mk filename cleanData columns correlations
                chartSuggestions)
  end.

End Analysis.

(** A host for the closed examples: its [Date.parse] recognises no string,
    and its [String(n)] prints whole numbers in decimal and any other finite
    number as a fraction. *)
Module Host.

Definition Date_parse (s : string) : JS.num := JS.NaN.

Fixpoint digits_of (fuel : nat) (n : N) (acc : string) : string :=
  match fuel with
  | O => acc
  | S fuel' =>
      let acc' := String (ascii_of_N (48 + N.modulo n 10)) acc in
      if (n <? 10)%N then acc' else digits_of fuel' (N.div n 10) acc'
  end.

Definition Z_toString (z : Z) : string :=
  let body := digits_of (S (N.to_nat (N.log2 (Z.abs_N z)))) (Z.abs_N z) EmptyString in
  if z <? 0 then String "-" body else body.

Definition Number_toString (x : JS.num) : string :=
  match x with
  | JS.NaN => "NaN"
  | JS.PInf => "Infinity"
  | JS.NInf => "-Infinity"
  | JS.Fin q =>
      let r := Qred q in
      match Qden r with
      | xH => Z_toString (Qnum r)
      | d => Z_toString (Qnum r) ++ "/" ++ Z_toString (Zpos d)
      end
  end%string.

End Host.


(* ================================================================== *)
(** * Data quality and the summary *)
(* ================================================================== *)

(** [_.uniqBy(l, key)] on string keys: the first element of each key, in
    order. *)
Fixpoint uniqBy_acc {A : Type} (key : A -> string) (seen : list string)
  (l : list A) : list A :=
  match l with
  | [] => []
  | x :: r =>
      if existsb (String.eqb (key x)) seen then uniqBy_acc key seen r
      else x :: uniqBy_acc key (key x :: seen) r
  end.

Definition uniqBy {A : Type} (key : A -> string) (l : list A) : list A :=
  uniqBy_acc key [] l.

(** [_.meanBy(l, f)]: NaN for no element. *)
Definition meanBy {A : Type} (f : A -> JS.num) (l : list A) : JS.num :=
  Lodash.mean (map f l).

Module QualityAssessment.
Record t : Type := mk {
  issues : list string;
  warnings : list string;
  overallQuality : string
}.
End QualityAssessment.

Module Summary.
Record t : Type := mk {
  totalRows : nat;
  totalColumns : nat;
  numericColumns : nat;
  categoricalColumns : nat;
  dateColumns : nat;
  missingDataPercentage : JS.num;
  duplicateRows : Z
}.
End Summary.

Section Quality.

(** Two functions of the host: the decimal printing of a number, which the
    messages embed, and [JSON.stringify] on a row. *)
Variable Number_toString : JS.num -> string.
Variable JSON_stringify : object -> string.

(** The messages, as the template literals build them. *)
Definition empty_column_issue (col : Column.t) : string :=
  "Column '" ++ Column.name col ++ "' is completely empty".

Definition missing_data_warning (col : Column.t) : string :=
  "Column '" ++ Column.name col ++ "' has "
  ++ Number_toString (MissingData.missingPercentage (Column.missingData col))
  ++ "% missing data".

Definition duplicate_rows_warning (duplicateCount : Z) : string :=
  "Found " ++ Number_toString (JS.of_Z duplicateCount) ++ " duplicate rows".

Definition low_variance_warning (col : Column.t) (std : JS.num) : string :=
  "Column '" ++ Column.name col ++ "' has very low variance (std: "
  ++ Number_toString std ++ ")".

Definition high_cardinality_warning (col : Column.t) (uniqueCount : nat)
  : string :=
  "Column '" ++ Column.name col ++ "' has high cardinality ("
  ++ Number_toString (JS.of_nat uniqueCount) ++ " unique values)".

(** [col.missingData.missing === col.missingData.total] *)
Definition completely_empty (col : Column.t) : bool :=
  (MissingData.missing (Column.missingData col)
   =? MissingData.total (Column.missingData col))%nat.

(** [col.missingData.missingPercentage > 50] *)
Definition mostly_missing (col : Column.t) : bool :=
  JS.gtb (MissingData.missingPercentage (Column.missingData col)) (JS.Fin 50).

(** [data.length - uniqueRows.length] *)
Definition duplicate_count (data : list object) : Z :=
  Z.of_nat (List.length data)
  - Z.of_nat (List.length (uniqBy JSON_stringify data)).

(** [col.stats && col.stats.std !== null && col.stats.std < 0.001]: the
    [std] that is warned about.  A categorical [stats] has no [std]:
    [undefined < 0.001] is false. *)
Definition low_variance (col : Column.t) : option JS.num :=
  match Column.stats col with
  | Numeric s =>
      match NumericStats.std s with
      | Some std => if JS.ltb std (JS.Fin (1 # 1000)) then Some std else None
      | None => None
      end
  | Categorical _ => None
  end.

(** [col.stats && col.stats.uniqueCount > data.length * 0.8]: the
    [uniqueCount] that is warned about.  A numeric [stats] has no
    [uniqueCount]: [undefined > x] is false. *)
Definition high_cardinality (data : list object) (col : Column.t)
  : option nat :=
  match Column.stats col with
  | Categorical s =>
      if JS.gtb (JS.of_nat (CategoricalStats.uniqueCount s))
                (JS.mul (JS.of_nat (List.length data)) (JS.Fin (4 # 5)))
      then Some (CategoricalStats.uniqueCount s) else None
  | Numeric _ => None
  end.

(** [col.type === 'string'] *)
Definition is_string_type (t : ColumnType) : bool :=
  match t with TString => true | _ => false end.

Definition assessDataQuality (data : list object) (columns : list Column.t)
  : QualityAssessment.t :=
  let issues : list string := [] in
  let warnings : list string := [] in
  (* Check for completely empty columns *)
  let '(issues, warnings) :=
    fold_left
      (fun '(issues, warnings) col =>
         if completely_empty col
         then (issues ++ [empty_column_issue col], warnings)
         else if mostly_missing col
         then (issues, warnings ++ [missing_data_warning col])
         else (issues, warnings))
      columns (issues, warnings) in
  (* Check for duplicate rows *)
  let duplicateCount := duplicate_count data in
  let warnings :=
    if 0 <? duplicateCount
    then warnings ++ [duplicate_rows_warning duplicateCount]
    else warnings in
  (* Check for columns with very low variance *)
  let numericColumns :=
    filter (fun col => is_numeric_type (Column.type col)) columns in
  let warnings :=
    fold_left
      (fun warnings col =>
         match low_variance col with
         | Some std => warnings ++ [low_variance_warning col std]
         | None => warnings
         end)
      numericColumns warnings in
  (* Check for high cardinality categorical columns *)
  let categoricalColumns :=
    filter (fun col => is_string_type (Column.type col)) columns in
  let warnings :=
    fold_left
      (fun warnings col =>
         match high_cardinality data col with
         | Some uniqueCount =>
             warnings ++ [high_cardinality_warning col uniqueCount]
         | None => warnings
         end)
      categoricalColumns warnings in
  QualityAssessment.mk
    issues
    warnings
    (if (List.length issues =? 0)%nat
     then if (List.length warnings =? 0)%nat then "excellent" else "good"
     else "poor").

(** The [summary] object of [analyzeDataset]. *)
Definition dataset_summary (cleanData : list object)
  (columns : list Column.t) : Summary.t :=
  Summary.mk
    (List.length cleanData)
    (List.length columns)
    (List.length
       (filter (fun col => is_numeric_type (Column.type col)) columns))
    (List.length
       (filter (fun col => is_categorical_type (Column.type col)) columns))
    (List.length
       (filter (fun col => is_date_type (Column.type col)) columns))
    (JS.toFixedNumber 2
       (meanBy
          (fun col => MissingData.missingPercentage (Column.missingData col))
          columns))
    (Z.of_nat (List.length cleanData)
     - Z.of_nat (List.length (uniqBy JSON_stringify cleanData))).

Variable Date_parse : string -> JS.num.

(** The [qualityAssessment] and the [summary] of the object
    [analyzeDataset] returns: both are computed from the renamed rows and
    the column profiles that the object holds. *)
Definition analyzeDataset_qualityAssessment
  (data : option (list object)) (filename : string)
  : outcome QualityAssessment.t :=
  match analyzeDataset Date_parse Number_toString data filename with
  | Throw message => Throw message
  | Return p =>
      Return (assessDataQuality (Profile.data p) (Profile.columns p))
  end.

Definition analyzeDataset_summary
  (data : option (list object)) (filename : string) : outcome Summary.t :=
  match analyzeDataset Date_parse Number_toString data filename with
  | Throw message => Throw message
  | Return p => Return (dataset_summary (Profile.data p) (Profile.columns p))
  end.

End Quality.

(** A [JSON.stringify] for the closed examples: the properties of a row in
    order, without those that hold [undefined]; NaN and the infinities print
    as [null]; a string is quoted, its quotes and backslashes escaped (the
    examples have no control character). *)
Module HostJSON.

Definition quote : string := String (ascii_of_nat 34) EmptyString.
Definition backslash : string := String (ascii_of_nat 92) EmptyString.

Fixpoint escaped (s : string) : string :=
  match s with
  | EmptyString => EmptyString
  | String c r =>
      if (Nat.eqb (nat_of_ascii c) 34 || Nat.eqb (nat_of_ascii c) 92)%bool
      then (backslash ++ String c (escaped r))%string
      else String c (escaped r)
  end.

Definition quoted (s : string) : string :=
  (quote ++ escaped s ++ quote)%string.

Definition value_text (v : value) : option string :=
  match v with
  | VNull => Some "null"%string
  | VUndefined => None
  | VBool true => Some "true"%string
  | VBool false => Some "false"%string
  | VNum (JS.Fin q) => Some (Host.Number_toString (JS.Fin q))
  | VNum _ => Some "null"%string
  | VStr s => Some (quoted s)
  end.

Definition property_text (p : string * value) : list string :=
  match value_text (snd p) with
  | Some t => [(quoted (fst p) ++ ":" ++ t)%string]
  | None => []
  end.

Definition stringify (row : object) : string :=
  ("{" ++ String.concat "," (flat_map property_text row) ++ "}")%string.

End HostJSON.
(* ================================================================== *)
(** * The vocabulary of the statements *)
(* ================================================================== *)

(** ** Column profiles *)

(** The two shapes of a [stats] record. *)
Definition numeric_shape (s : Stats) : Prop := exists n, s = Numeric n.
Definition categorical_shape (s : Stats) : Prop := exists c, s = Categorical c.

(** What holds of every profiled column: the shape of [stats] follows the
    type, and only a numeric column lists outliers. *)
Definition shape_follows_type (col : Column.t) : Prop :=
  (numeric_shape (Column.stats col)
   <-> Column.type col = TInteger \/ Column.type col = TFloat)
  /\ (Column.type col = TBoolean \/ Column.type col = TDate
      \/ Column.type col = TString \/ Column.type col = TUnknown
      -> categorical_shape (Column.stats col))
  /\ (Column.outliers col <> []
      -> Column.type col = TInteger \/ Column.type col = TFloat).

(** The rows of Scenario A, and one row with no column. *)
Definition scenario_A : list object :=
  [ [("a", VStr "1"); ("b", VStr "x")];
    [("a", VStr "2"); ("b", VStr "y")];
    [("a", VStr "3"); ("b", VStr "x")] ]%string.

Definition one_empty_row : list object := [ [] ].

(** A dataset of one row and one column holding the string ["5"]. *)
Definition single_five : list object := [ [("a", VStr "5")] ]%string.

(** ** Chart suggestions *)

(** A suggestion of priority [p]. *)
Definition has_priority (p : string) (s : ChartSuggestion.t) : bool :=
  String.eqb (ChartSuggestion.priority s) p.

(** A column of a given name and type; the chart rules read nothing else. *)
Definition column_of (name : string) (type : ColumnType) : Column.t :=
  Column.mk name type (calculateMissingData []) (Categorical
    (CategoricalStats.mk 0 0 None 0 [] [])) [] [].

(** ** Type inference *)

(** The words of the type inference rules. A value is non-null when it is
    not [null], [undefined] or the empty string. *)
Definition non_null (v : value) : Prop :=
  v <> VNull /\ v <> VUndefined /\ v <> VStr EmptyString.

Definition native_boolean (v : value) : Prop := exists b, v = VBool b.

(** A case-insensitive member of {"true","false","yes","no","1","0"}. *)
Definition boolean_word (v : value) : Prop :=
  exists s, v = VStr s /\ In (Str.toLowerCase s) boolean_words.

Definition converts_to_finite (v : value) : Prop :=
  exists q, Val.ToNumber v = JS.Fin q.

Definition every_non_null (P : value -> Prop) (values : list value) : Prop :=
  forall v, In v values -> non_null v -> P v.

(** ** Missing and sample values *)

(** A string made of white space only, and not empty. *)
Definition all_whitespace (s : string) : Prop :=
  s <> EmptyString /\ Forall (fun c => Str.is_ws c = true) (list_ascii_of_string s).

(** A value that the missingness analysis counts as missing. *)
Definition missing_value (v : value) : Prop :=
  v = VNull \/ v = VUndefined \/ v = VStr EmptyString
  \/ (exists s, v = VStr s /\ all_whitespace s)
  \/ v = VNum JS.NaN.

(** Values that are pairwise different under SameValueZero. *)
Definition distinct_values (l : list value) : Prop :=
  ForallOrdPairs (fun v w => Val.same_value_zero v w = false) l.

(** One column whose two cells are a blank string and the number NaN. *)
Definition blank_and_NaN : list object :=
  [ [("a", VStr " ")]; [("a", VNum JS.NaN)] ]%string.

(** ** Ordered statistics *)

(** The order of two finite numbers; it holds of no special value. *)
Definition num_le (x y : JS.num) : Prop :=
  match x, y with
  | JS.Fin a, JS.Fin b => (a <= b)%Q
  | _, _ => False
  end.

(** An ascending sequence of numbers. *)
Definition ascending (l : list JS.num) : Prop := StronglySorted num_le l.

Definition all_finite (l : list JS.num) : Prop :=
  Forall (fun x => exists q, x = JS.Fin q) l.

(** A sample of five numbers, out of order. *)
Definition sample_five : list value :=
  map VStr ["9"; "1"; "4"; "8"; "2"]%string.

(** What the code does for C7: the statistics of [values] are read off the
    ascending sample; the quartiles lie between the ends; the median lies
    between the quartiles when it is finite, as it is for an odd count. *)
Definition quartiles_ordered (values : list value) : Prop :=
  let sorted := sorted_numbers values in
  let count := List.length sorted in
  let s := calculateNumericStats values in
  Permutation sorted (filter finite_number (map Val.ToNumber values))
  /\ ascending sorted
  /\ NumericStats.count s = count
  /\ NumericStats.min s = Some (Arr.at_num sorted 0)
  /\ NumericStats.max s = Some (Arr.at_num sorted (count - 1))
  /\ NumericStats.q1 s = Some (Arr.at_num sorted (count / 4))
  /\ NumericStats.q3 s = Some (Arr.at_num sorted (count * 3 / 4))
  /\ NumericStats.median s
     = Some (if Nat.even count
             then JS.div (JS.add (Arr.at_num sorted (count / 2 - 1))
                                 (Arr.at_num sorted (count / 2)))
                         (JS.Fin 2)
             else Arr.at_num sorted (count / 2))
  /\ exists mn q1 q3 mx : Q,
       NumericStats.min s = Some (JS.Fin mn)
       /\ NumericStats.q1 s = Some (JS.Fin q1)
       /\ NumericStats.q3 s = Some (JS.Fin q3)
       /\ NumericStats.max s = Some (JS.Fin mx)
       /\ (mn <= q1)%Q /\ (q1 <= q3)%Q /\ (q3 <= mx)%Q
       /\ (forall med, NumericStats.median s = Some (JS.Fin med) ->
             (q1 <= med)%Q /\ (med <= q3)%Q)
       /\ (NumericStats.median s = Some JS.PInf
           \/ NumericStats.median s = Some JS.NInf
           \/ exists med, NumericStats.median s = Some (JS.Fin med))
       /\ (Nat.even count = false ->
           exists med, NumericStats.median s = Some (JS.Fin med)).

(** Two numbers whose sum leaves the binary64 range. *)
Definition sample_huge : list value :=
  map VStr ["1e308"; "1.7e308"]%string.

(** ** Rounded statistics *)

(** A rational with at most [d] decimals. *)
Definition has_decimals (d : nat) (r : Q) : Prop :=
  exists z : Z, (r == inject_Z z / inject_Z (JS.pow10 d))%Q.

(** [r] is [x] after [Number(x.toFixed(d))]: for a finite [x] below 10^21 in
    magnitude, where [toFixed] prints decimals, [r] has at most [d] decimals
    and is within half a unit of the last one of [x]. *)
Definition rounded_to (d : nat) (x r : JS.num) : Prop :=
  r = JS.toFixedNumber d x
  /\ forall q,
       x = JS.Fin q -> (Qabs q < inject_Z (10 ^ 21))%Q ->
       exists p,
         r = JS.Fin p /\ has_decimals d p
         /\ (Qabs (p - q) <= 1 / (2 * inject_Z (JS.pow10 d)))%Q.

(** What the code does for the claim about suppressed and rounded
    statistics. *)
Definition skew_kurtosis_suppressed_and_rounded (values : list value) : Prop :=
  let numericValues := sorted_numbers values in
  let count := List.length numericValues in
  let mean := Lodash.mean numericValues in
  let variance := sample_variance numericValues mean in
  let s := calculateNumericStats values in
  ((count <= 2)%nat -> NumericStats.skewness s = None)
  /\ ((count <= 3)%nat -> NumericStats.kurtosis s = None)
  /\ (forall q, computed_skewness numericValues = Some (JS.Fin q) ->
        (q == 0)%Q -> NumericStats.skewness s = None)
  /\ (forall q, computed_kurtosis numericValues = Some (JS.Fin q) ->
        (q == 0)%Q -> NumericStats.kurtosis s = None)
  /\ (forall r, NumericStats.skewness s = Some r ->
        exists x, computed_skewness numericValues = Some x
                  /\ JS.truthy x = true /\ rounded_to 4 x r)
  /\ (forall r, NumericStats.kurtosis s = Some r ->
        exists x, computed_kurtosis numericValues = Some x
                  /\ JS.truthy x = true /\ rounded_to 4 x r)
  /\ ((1 <= count)%nat ->
        exists rm rv rs,
          NumericStats.mean s = Some rm /\ rounded_to 4 mean rm
          /\ NumericStats.variance s = Some rv /\ rounded_to 4 variance rv
          /\ NumericStats.std s = Some rs
          /\ rounded_to 4 (JS.sqrt variance) rs)
  /\ ((1 <= count)%nat ->
        NumericStats.median s = Some (median_of numericValues)
        /\ NumericStats.min s = Some (Arr.at_num numericValues 0)
        /\ NumericStats.max s = Some (Arr.at_num numericValues (count - 1))
        /\ NumericStats.q1 s = Some (Arr.at_num numericValues (q1Index count))
        /\ NumericStats.q3 s
           = Some (Arr.at_num numericValues (q3Index count))).

(** Two samples: one symmetric about its mean, one with an even count. *)
Definition sample_one_two_three : list value :=
  map VStr ["1"; "2"; "3"]%string.

Definition sample_pair : list value :=
  map VStr ["1"; "2.00001"]%string.

(** ** Correlation *)

(** The rational that [_.sum] computes on finite numbers, added in the same
    order, and the usual sum. *)
Definition sumQ (qs : list Q) : Q :=
  match qs with
  | [] => 0%Q
  | x :: r => fold_left Qplus r x
  end.

Definition Qsum (qs : list Q) : Q := fold_right Qplus 0%Q qs.


(** [correlations[a][b]] *)
Definition correlation_at (m : list (string * list (string * JS.num)))
  (a b : string) : option JS.num :=
  match Obj.get m a with
  | Some row => Obj.get row b
  | None => None
  end.


(** The rows of Scenario E, and two rows with a constant column [a]. *)
Definition scenario_E : list object :=
  map (fun p => [("x"%string, VNum (JS.of_Z (fst p)));
                 ("y"%string, VNum (JS.of_Z (snd p)))])
      [(1, 2); (2, 4); (3, 6); (4, 8)].


(** Samples on which the arithmetic of the program is exact.  A sum or a
    product of whole numbers is the exact one in binary64 as long as it stays
    within 2^53 in magnitude, and then it is the one this model computes.
    [whole_numbers l zs] says that the numbers of [l] are the whole numbers
    [zs]. *)
Definition whole_numbers (l : list JS.num) (zs : list Z) : Prop :=
  Forall2 (fun x z => exists q, x = JS.Fin q /\ (q == inject_Z z)%Q) l zs.

Definition sum_of_squares (zs : list Z) : Z :=
  fold_right (fun z s => z * z + s) 0 zs.

(** A sample of [n] whole numbers with [n] times the sum of their squares
    at most 2^26: every sum, product and difference that
    [pearsonCorrelation] forms on two such samples is a whole number of at
    most 2^53 in magnitude. *)
Definition small_whole_sample (l : list JS.num) : Prop :=
  exists zs,
    whole_numbers l zs
    /\ Z.of_nat (List.length zs) * sum_of_squares zs <= 2 ^ 26.



(* ================================================================== *)
(** * Further vocabulary *)
(* ================================================================== *)

(** ** Chart suggestions *)

(** [columns] gets a suggestion of chart type [t]. *)
Definition suggests (t : string) (columns : list Column.t) : Prop :=
  exists s, In s (suggestChartTypes columns) /\ ChartSuggestion.type s = t.

(** The number of columns whose type satisfies [p]. *)
Definition count_columns (p : ColumnType -> bool) (columns : list Column.t)
  : nat :=
  List.length (filter (fun col => p (Column.type col)) columns).

(** The rule table of the chart suggestions. *)
Definition chart_rule_table (columns : list Column.t) : Prop :=
  let numeric := count_columns is_numeric_type columns in
  let categorical := count_columns is_categorical_type columns in
  let date := count_columns is_date_type columns in
  (suggests "histogram" columns <-> (1 <= numeric)%nat)
  /\ (suggests "boxplot" columns <-> (1 <= numeric)%nat)
  /\ (suggests "scatter" columns <-> (2 <= numeric)%nat)
  /\ (suggests "heatmap" columns <-> (3 <= numeric)%nat)
  /\ (suggests "bar" columns <-> (1 <= categorical)%nat /\ (1 <= numeric)%nat)
  /\ (suggests "pie" columns <-> (1 <= categorical)%nat)
  /\ (suggests "line" columns <-> (1 <= date)%nat /\ (1 <= numeric)%nat)
  /\ NoDup (map ChartSuggestion.type (suggestChartTypes columns))
  /\ (List.length (suggestChartTypes columns) <= 7)%nat.

(** The kind of column a suggestion of type [t] wants on [axis]. *)
Definition expected_kind (t axis : string) : ColumnType -> bool :=
  if (String.eqb t "bar" || String.eqb t "pie")%bool && String.eqb axis "x"
  then is_categorical_type
  else if String.eqb t "line" && String.eqb axis "x" then is_date_type
  else is_numeric_type.

(** ** Type inference *)

(** A value that converts to a whole number. *)
Definition converts_to_whole (v : value) : Prop :=
  exists (q : Q) (z : Z), Val.ToNumber v = JS.Fin q /\ (q == inject_Z z)%Q.

(** Some value is not [null], [undefined] or the empty string. *)
Definition some_non_null (values : list value) : Prop :=
  exists v, In v values /\ non_null v.

(** The answers of [detectColumnType] other than boolean. *)
Definition type_decision_table
  (Date_parse : string -> JS.num) (values : list value) : Prop :=
  let type := detectColumnType Date_parse values in
  let numeric := every_non_null converts_to_finite values in
  let whole := every_non_null converts_to_whole values in
  let boolean :=
    every_non_null (fun v => native_boolean v \/ boolean_word v) values in
  let date :=
    every_non_null (fun v => date_like Date_parse v = true) values in
  (type = TUnknown <-> ~ some_non_null values)
  /\ (type = TInteger <-> some_non_null values /\ numeric /\ whole)
  /\ (type = TFloat <-> some_non_null values /\ numeric /\ ~ whole)
  /\ (type = TDate <-> ~ numeric /\ ~ boolean /\ date)
  /\ (type = TString <-> ~ numeric /\ ~ boolean /\ ~ date).

(** ** Numbers of a cell *)

(** A number of the binary64 range: a special value, or a finite number
    below the overflow threshold in magnitude. *)
Definition representable (x : JS.num) : Prop :=
  match x with
  | JS.Fin q => (Qabs q < JS.overflow_threshold)%Q
  | _ => True
  end.

(** A cell whose number, if it is one, is of the binary64 range. *)
Definition well_formed (v : value) : Prop :=
  match v with
  | VNum x => representable x
  | _ => True
  end.

(** [x < y] and [x > y] as propositions. *)
Definition num_lt (x y : JS.num) : Prop := JS.ltb x y = true.

(** ** Outliers *)

(** What [detectOutliers values] is made of: nothing among fewer than four
    numbers; otherwise some of the finite numbers of the column, in
    ascending order. *)
Definition outliers_from_sample (values : list value) : Prop :=
  let sorted := sorted_numbers values in
  ((List.length sorted < 4)%nat -> detectOutliers values = [])
  /\ (exists keep, detectOutliers values = filter keep sorted)
  /\ ascending (detectOutliers values)
  /\ all_finite (detectOutliers values)
  /\ (forall v, In v (detectOutliers values) ->
        exists c, In c values /\ Val.ToNumber c = v).

(** Every flagged number lies below the first quartile or above the third
    one. *)
Definition outliers_outside_quartiles (values : list value) : Prop :=
  let sorted := sorted_numbers values in
  let count := List.length sorted in
  let q1 := Arr.at_num sorted (count / 4) in
  let q3 := Arr.at_num sorted (count * 3 / 4) in
  forall v, In v (detectOutliers values) -> num_lt v q1 \/ num_lt q3 v.

(** A column with an outlier on each side. *)
Definition sample_with_outliers : list value :=
  map VStr ["-100"; "1"; "2"; "3"; "4"; "5"; "6"; "7"; "100"]%string.

(** ** Numeric statistics *)

(** A number that is neither NaN nor negative. *)
Definition nonneg (x : JS.num) : Prop :=
  match x with
  | JS.PInf => True
  | JS.Fin q => (0 <= q)%Q
  | _ => False
  end.

Definition a_number (x : nullable JS.num) : Prop :=
  exists y, x = Some y /\ y <> JS.NaN.

Definition a_nonneg_number (x : nullable JS.num) : Prop :=
  exists y, x = Some y /\ nonneg y.

(** The record of a sample without numbers. *)
Definition no_statistics : NumericStats.t :=
  NumericStats.mk 0 None None None None None None None None None None.

(** What [count] counts: the cells that convert to a finite number; the
    other cells are dropped without notice, and a column without any finite
    number has every statistic [null]. *)
Definition counts_finite_numbers (values : list value) : Prop :=
  let s := calculateNumericStats values in
  NumericStats.count s
  = List.length (filter (fun v => finite_number (Val.ToNumber v)) values)
  /\ (NumericStats.count s <= List.length values)%nat
  /\ (NumericStats.count s = 0%nat
      <-> forall v, In v values -> ~ converts_to_finite v)
  /\ (NumericStats.count s = 0%nat <-> s = no_statistics)
  /\ (NumericStats.count s = List.length values
      <-> forall v, In v values -> converts_to_finite v).

(** Where NaN can and cannot appear in the statistics of a sample with at
    least one number. *)
Definition statistics_defined (values : list value) : Prop :=
  let s := calculateNumericStats values in
  let count := NumericStats.count s in
  a_number (NumericStats.mean s)
  /\ a_number (NumericStats.median s)
  /\ a_number (NumericStats.min s)
  /\ a_number (NumericStats.max s)
  /\ a_number (NumericStats.q1 s)
  /\ a_number (NumericStats.q3 s)
  /\ NumericStats.skewness s <> Some JS.NaN
  /\ NumericStats.kurtosis s <> Some JS.NaN
  /\ (count = 1%nat ->
      NumericStats.variance s = Some JS.NaN
      /\ NumericStats.std s = Some JS.NaN)
  /\ ((2 <= count)%nat ->
      a_nonneg_number (NumericStats.variance s)
      /\ a_nonneg_number (NumericStats.std s)).

(** ** Blank cells *)

(** A column of blank cells reads as a column of zeros: it is typed
    integer and its statistics count every cell as the number 0, while the
    missing-data count has every cell missing. *)
Definition blank_cells_read_as_zero (Date_parse : string -> JS.num)
  (cells : list string) : Prop :=
  let values := map VStr cells in
  let s := calculateNumericStats values in
  let m := calculateMissingData values in
  detectColumnType Date_parse values = TInteger
  /\ MissingData.missing m = MissingData.total m
  /\ NumericStats.count s = List.length cells
  /\ NumericStats.min s = Some JS.zero
  /\ NumericStats.max s = Some JS.zero.

(** ** Categorical statistics *)

(** The number of values that print as [k]. *)
Definition occurrences (Number_toString : JS.num -> string) (k : string)
  (vs : list value) : nat :=
  List.length
    (filter (fun v => String.eqb (ToString Number_toString v) k) vs).

(** The step of [_.countBy], and the tally a key stands at. *)
Definition countBy_step (Number_toString : JS.num -> string)
  (counts : list (string * nat)) (v : value) : list (string * nat) :=
  let key := ToString Number_toString v in
  match Obj.get counts key with
  | Some c => Obj.set counts key (S c)
  | None => Obj.set counts key 1%nat
  end.

Definition tally_at (counts : list (string * nat)) (k : string) : nat :=
  match Obj.get counts k with Some c => c | None => 0%nat end.

(** [sortedCounts], the entries of the tally by descending count. *)
Definition sortedCounts (Number_toString : JS.num -> string)
  (values : list value) : list (string * nat) :=
  Lodash.orderBy_desc_nat snd
    (entries (countBy Number_toString (filter nonNull values))).

(** [valueCounts] is the tally of the non-null values under their printed
    form: one property per printed form that occurs, holding the number of
    its occurrences; [count] is the number of non-null values and
    [uniqueCount] the number of properties. *)
Definition tally_of_non_null (Number_toString : JS.num -> string)
  (values : list value) : Prop :=
  let c := calculateCategoricalStats Number_toString values in
  let kept := filter nonNull values in
  CategoricalStats.count c = List.length kept
  /\ NoDup (Obj.keys (CategoricalStats.valueCounts c))
  /\ (forall k n,
        In (k, n) (CategoricalStats.valueCounts c)
        <-> n = occurrences Number_toString k kept /\ (1 <= n)%nat)
  /\ CategoricalStats.uniqueCount c
     = List.length (CategoricalStats.valueCounts c)
  /\ list_sum (map snd (CategoricalStats.valueCounts c))
     = CategoricalStats.count c.

(** [mode] is a most frequent printed form and [modeFrequency] the number
    of its occurrences; they are [null] and 0 exactly when no value is
    non-null. *)
Definition mode_is_most_frequent (Number_toString : JS.num -> string)
  (values : list value) : Prop :=
  let c := calculateCategoricalStats Number_toString values in
  let kept := filter nonNull values in
  (CategoricalStats.mode c = None <-> kept = [])
  /\ (kept = [] -> CategoricalStats.modeFrequency c = 0%nat)
  /\ (forall k, CategoricalStats.mode c = Some k ->
        CategoricalStats.modeFrequency c = occurrences Number_toString k kept
        /\ (1 <= CategoricalStats.modeFrequency c)%nat
        /\ forall k', (occurrences Number_toString k' kept
                       <= CategoricalStats.modeFrequency c)%nat).

(** [topValues] lists up to ten distinct printed forms by descending
    number of occurrences, the mode first; no form left out occurs more
    often than a listed one; each percentage is the share of the non-null
    values, to two decimals. *)
Definition top_values_are_most_frequent (Number_toString : JS.num -> string)
  (values : list value) : Prop :=
  let c := calculateCategoricalStats Number_toString values in
  let kept := filter nonNull values in
  let top := CategoricalStats.topValues c in
  List.length top = Nat.min 10 (CategoricalStats.uniqueCount c)
  /\ NoDup (map TopValue.value top)
  /\ StronglySorted (fun a b => (TopValue.count b <= TopValue.count a)%nat) top
  /\ CategoricalStats.mode c
     = match top with t :: _ => Some (TopValue.value t) | [] => None end
  /\ (forall t, In t top ->
        TopValue.count t = occurrences Number_toString (TopValue.value t) kept
        /\ (1 <= TopValue.count t)%nat
        /\ exists p : Q,
             TopValue.percentage t = JS.Fin p
             /\ (Qabs (p - inject_Z (Z.of_nat (TopValue.count t))
                          / inject_Z (Z.of_nat (List.length kept)) * 100)
                 <= 1 # 200)%Q)
  /\ (forall k t, In t top -> ~ In k (map TopValue.value top) ->
        (occurrences Number_toString k kept <= TopValue.count t)%nat).

(** ** Column names *)

(** A name in cleaned form: no white space and no upper-case letter. *)
Definition cleaned (s : string) : Prop :=
  Forall (fun c => Str.is_ws c = false /\ Str.lower_char c = c)
         (list_ascii_of_string s).

(** ** Renamed rows *)

(** The assignments [clean_row] makes, in order: the new name and the cell
    of each column of the row. *)
Definition renaming_assignments (columnNames : list string) (row : object)
  : list (string * value) :=
  Arr.mapi
    (fun originalName index =>
       (nth index columnNames "undefined"%string, Obj.cell row originalName))
    (Obj.keys row).

(** The column at position [j] of a row is the last one to be written under
    its new name, and that name is a property key of a plain object, which
    [__proto__] is not: an assignment under it goes to the setter of the
    prototype and stores no property. *)
Definition last_under_its_name (columnNames : list string) (row : object)
  (j : nat) : Prop :=
  (j < List.length (Obj.keys row))%nat
  /\ nth j columnNames "undefined"%string <> "__proto__"%string
  /\ forall j', (j < j' < List.length (Obj.keys row))%nat ->
       nth j' columnNames "undefined"%string
       <> nth j columnNames "undefined"%string.

(** Two columns whose names clean to the same name. *)
Definition colliding_row : object :=
  [("Name", VStr "x"); ("name ", VStr "y")]%string.

(** ** The shape of a profile *)


(** ** Data quality *)

(** What decides the verdict of [assessDataQuality]: there is one issue per
    completely empty column and no other; the verdict is poor exactly when
    some column is completely empty; it is excellent exactly when no column
    is completely empty or more than half missing, no row is a duplicate,
    no numeric column has a [std] below 0.001 and no string column has more
    distinct values than 0.8 times the number of rows; it is good
    otherwise. *)
Definition quality_verdict (Number_toString : JS.num -> string)
  (JSON_stringify : object -> string)
  (data : list object) (columns : list Column.t) : Prop :=
  let q := assessDataQuality Number_toString JSON_stringify data columns in
  let verdict := QualityAssessment.overallQuality q in
  let nothing_to_warn_of :=
    (forall col, In col columns -> mostly_missing col = false)
    /\ duplicate_count JSON_stringify data = 0
    /\ (forall col, In col columns ->
          is_numeric_type (Column.type col) = true -> low_variance col = None)
    /\ (forall col, In col columns ->
          is_string_type (Column.type col) = true ->
          high_cardinality data col = None) in
  let some_empty :=
    exists col, In col columns /\ completely_empty col = true in
  QualityAssessment.issues q
  = map empty_column_issue (filter completely_empty columns)
  /\ (verdict = "poor"%string <-> some_empty)
  /\ (verdict = "excellent"%string <-> ~ some_empty /\ nothing_to_warn_of)
  /\ (verdict = "good"%string <-> ~ some_empty /\ ~ nothing_to_warn_of).

(** A column of the renamed rows in which every cell is missing. *)
Definition all_cells_missing (cleanData : list object) (name : string)
  : Prop :=
  forall row, In row cleanData -> missing_value (Obj.cell row name).

(** The verdict on a dataset is poor exactly when every cell of some column
    is missing; a duplicate is warned of exactly when the summary counts one. *)
Definition quality_of_dataset (Date_parse : string -> JS.num)
  (Number_toString : JS.num -> string) (JSON_stringify : object -> string)
  (data : list object) (filename : string) : Prop :=
  exists p q s,
    analyzeDataset Date_parse Number_toString (Some data) filename = Return p
    /\ analyzeDataset_qualityAssessment Number_toString JSON_stringify
         Date_parse (Some data) filename = Return q
    /\ analyzeDataset_summary Number_toString JSON_stringify Date_parse
         (Some data) filename = Return s
    /\ (QualityAssessment.overallQuality q = "poor"%string
        <-> exists col, In col (Profile.columns p)
                        /\ all_cells_missing (Profile.data p) (Column.name col))
    /\ (In (duplicate_rows_warning Number_toString (Summary.duplicateRows s))
           (QualityAssessment.warnings q)
        <-> 0 < Summary.duplicateRows s).

(** ** The summary *)

Definition is_unknown_type (t : ColumnType) : bool :=
  match t with TUnknown => true | _ => false end.

(** What the summary of a dataset counts: the rows; the properties of the
    first row; the columns by kind, which with the columns of unknown type
    make up all columns; and the rows that print like an earlier row, fewer
    than there are rows and none exactly when the rows print differently. *)
Definition summary_counts (Date_parse : string -> JS.num)
  (Number_toString : JS.num -> string) (JSON_stringify : object -> string)
  (data : list object) (filename : string) : Prop :=
  exists p s,
    analyzeDataset Date_parse Number_toString (Some data) filename = Return p
    /\ analyzeDataset_summary Number_toString JSON_stringify Date_parse
         (Some data) filename = Return s
    /\ Summary.totalRows s = List.length data
    /\ Summary.totalColumns s = List.length (Obj.keys (hd [] data))
    /\ (Summary.numericColumns s + Summary.categoricalColumns s
        + Summary.dateColumns s
        + count_columns is_unknown_type (Profile.columns p)
        = Summary.totalColumns s)%nat
    /\ 0 <= Summary.duplicateRows s < Z.of_nat (Summary.totalRows s)
    /\ (Summary.duplicateRows s = 0
        <-> NoDup (map JSON_stringify (Profile.data p)))
    /\ (Summary.totalColumns s = 0%nat ->
        Summary.missingDataPercentage s = JS.NaN).

(** Three rows, two of them alike, with a column [b] that is never filled. *)
Definition rows_with_a_duplicate : list object :=
  [ [("a", VStr "1"); ("b", VStr EmptyString)];
    [("a", VStr "1"); ("b", VStr EmptyString)];
    [("a", VStr "2"); ("b", VNull)] ]%string.

(** ** The mean *)

(** A sample of whole numbers whose absolute values add up to at most
    2^53: every partial sum is a whole number within 2^53, so the sum the
    program computes in binary64 is the exact one. *)
Definition exactly_summed (l : list JS.num) : Prop :=
  exists zs,
    whole_numbers l zs
    /\ fold_right (fun z s => Z.abs z + s) 0 zs <= 2 ^ 53.

(** A finite [mean] lies between [min] and [max], up to the rounding to
    four decimals. *)
Definition mean_between_extremes (values : list value) (m : Q) : Prop :=
  let s := calculateNumericStats values in
  exists mn mx : Q,
    NumericStats.min s = Some (JS.Fin mn)
    /\ NumericStats.max s = Some (JS.Fin mx)
    /\ (mn <= mx)%Q
    /\ (mn - (1 # 20000) <= m <= mx + (1 # 20000))%Q.

(** The overall share of missing cells is a percentage. *)
Definition missing_percentage_in_range (Date_parse : string -> JS.num)
  (Number_toString : JS.num -> string) (JSON_stringify : object -> string)
  (data : list object) (filename : string) : Prop :=
  exists s r,
    analyzeDataset_summary Number_toString JSON_stringify Date_parse
      (Some data) filename = Return s
    /\ Summary.missingDataPercentage s = JS.Fin r
    /\ (0 <= r <= 100)%Q.

(** A number from 0 to 100. *)
Definition a_percentage (x : JS.num) : Prop :=
  exists r, x = JS.Fin r /\ (0 <= r <= 100)%Q.

(** ** The range of a correlation *)






(** ** Ties for the mode, and the entries of the matrix *)

(** The mode is the first entry of the tally, in the order of
    [Object.entries], that has the highest count. *)
Definition mode_is_first_of_the_most_frequent
  (Number_toString : JS.num -> string) (values : list value) : Prop :=
  let c := calculateCategoricalStats Number_toString values in
  forall k, CategoricalStats.mode c = Some k ->
    exists before after,
      entries (CategoricalStats.valueCounts c)
      = before ++ (k, CategoricalStats.modeFrequency c) :: after
      /\ Forall (fun e => (snd e < CategoricalStats.modeFrequency c)%nat)
                before
      /\ Forall (fun e => (snd e <= CategoricalStats.modeFrequency c)%nat)
                after.

(** The properties of the matrix are the listed columns, and so are the
    properties of each of its rows; the entry of two listed columns is 0 when
    they do not have the same number of finite cells, or have fewer than
    two. *)
Definition matrix_entries (data : list object) (numericColumns : list string)
  : Prop :=
  let m := calculateCorrelationMatrix data numericColumns in
  (forall a, In a (Obj.keys m) <-> In a numericColumns)
  /\ (forall a row, Obj.get m a = Some row ->
        forall b, In b (Obj.keys row) <-> In b numericColumns)
  /\ (forall a b, In a numericColumns -> In b numericColumns ->
        exists r,
          correlation_at m a b = Some r
          /\ (List.length (column_numbers data a)
              <> List.length (column_numbers data b)
              \/ (List.length (column_numbers data a) < 2)%nat ->
              r = JS.zero)).

(* ================================================================== *)
(** * Running the embedding *)
(* ================================================================== *)

Example StringToNumber_examples :
  Str.StringToNumber " 12.50 " = JS.Fin (25 # 2) /\
  Str.StringToNumber "-1e2" = JS.Fin (-100) /\
  Str.StringToNumber ".5" = JS.Fin (1 # 2) /\
  Str.StringToNumber "5." = JS.Fin 5 /\
  Str.StringToNumber "0x1F" = JS.Fin 31 /\
  Str.StringToNumber " " = JS.Fin 0 /\
  Str.StringToNumber "true" = JS.NaN /\
  Str.StringToNumber "." = JS.NaN /\
  Str.StringToNumber "1e" = JS.NaN /\
  Str.StringToNumber "-Infinity" = JS.NInf /\
  Str.StringToNumber "1 2" = JS.NaN /\
  Str.StringToNumber "1e309" = JS.PInf /\
  Str.StringToNumber "-1e309" = JS.NInf.
Proof. vm_compute. repeat split. Qed.

Example Host_Number_toString_examples :
  Host.Number_toString (JS.Fin 1205) = "1205"%string /\
  Host.Number_toString (JS.Fin (-7 # 2)) = "-7/2"%string /\
  Host.Number_toString (JS.Fin 0) = "0"%string.
Proof. vm_compute. repeat split. Qed.

(** Scenario A of the specification. *)
Example scenario_A_profile :
  exists p a b sa sb,
    analyzeDataset Host.Date_parse Host.Number_toString (Some scenario_A)
      "dataset" = Return p
    /\ Profile.columns p = [a; b]
    /\ Column.name a = "a"%string /\ Column.type a = TInteger
    /\ Column.stats a = Numeric sa
    /\ NumericStats.mean sa = Some (JS.Fin 2)
    /\ NumericStats.median sa = Some (JS.Fin 2)
    /\ Column.name b = "b"%string /\ Column.type b = TString
    /\ Column.stats b = Categorical sb
    /\ CategoricalStats.mode sb = Some "x"%string
    /\ CategoricalStats.modeFrequency sb = 2%nat.
Proof.
  do 5 eexists. split; [ vm_compute; reflexivity | ]. repeat split.
Qed.

(* ================================================================== *)
(** * The orchestrator *)
(* ================================================================== *)

Section Orchestrator.

Variable Date_parse : string -> JS.num.
Variable Number_toString : JS.num -> string.

Lemma analyze_column_shape (cleanData : list object) (name : string) :
  shape_follows_type (analyze_column Date_parse Number_toString cleanData name).
Proof.
  unfold shape_follows_type, analyze_column, numeric_shape, categorical_shape.
  cbn [Column.stats Column.type Column.outliers].
  destruct (detectColumnType Date_parse _) eqn:Ety; cbn [is_numeric_type].
  all: repeat split; intros; eauto.
  all: try solve [ match goal with H : exists _, _ |- _ => destruct H; discriminate end ].
  all: try solve [ repeat match goal with H : _ \/ _ |- _ => destruct H end; discriminate ].
  all: try solve [ exfalso; cbn in *; congruence ].
Qed.

Lemma analyzeDataset_columns (data : option (list object)) (filename : string)
  (p : Profile.t) :
  analyzeDataset Date_parse Number_toString data filename = Return p ->
  exists firstRow rest,
    data = Some (firstRow :: rest) /\
    Profile.columns p =
      map (analyze_column Date_parse Number_toString
             (map (clean_row (map clean_name (Obj.keys firstRow)))
                  (firstRow :: rest)))
          (map clean_name (Obj.keys firstRow)).
Proof.
  destruct data as [[|firstRow rest]|]; cbn; intros H; try discriminate.
  injection H as <-. exists firstRow, rest. split; reflexivity.
Qed.

(** C9. In every profile [analyzeDataset] returns, a column's [stats] has the
    numeric shape exactly when its type is integer or float, a boolean, date,
    string or unknown column has the categorical shape, and only an integer
    or float column has a non-empty [outliers]. *)
Theorem analyzeDataset_shape_follows_type
  (data : option (list object)) (filename : string) (p : Profile.t) :
  analyzeDataset Date_parse Number_toString data filename = Return p ->
  Forall shape_follows_type (Profile.columns p).
Proof.
  intros H. destruct (analyzeDataset_columns _ _ _ H) as (r & rs & _ & ->).
  apply Forall_forall. intros col Hin.
  apply in_map_iff in Hin as (name & <- & _).
  apply analyze_column_shape.
Qed.

End Orchestrator.

Lemma analyzeDataset_shape_follows_type_witness :
  exists p,
    analyzeDataset Host.Date_parse Host.Number_toString
      (Some scenario_A) "dataset" = Return p
    /\ List.length (Profile.columns p) = 2%nat
    /\ Forall shape_follows_type (Profile.columns p).
Proof.
  eexists. split; [ vm_compute; reflexivity | ].
  split; [ reflexivity | ].
  eapply (analyzeDataset_shape_follows_type
            Host.Date_parse Host.Number_toString (Some scenario_A) "dataset").
  vm_compute. reflexivity.
Defined.

(** C4, as the code has it. [analyzeDataset] throws exactly when the row
    sequence is missing or has no row, and then with the message of the
    empty-dataset error; a sequence of one row without columns, [[{}]], is
    not empty and yields a profile with no column. *)
Theorem analyzeDataset_throws_iff_no_row
  (Date_parse : string -> JS.num) (Number_toString : JS.num -> string)
  (data : option (list object)) (filename : string) :
  ((exists message,
      analyzeDataset Date_parse Number_toString data filename = Throw message)
   <-> data = None \/ data = Some [])
  /\ (forall message,
        analyzeDataset Date_parse Number_toString data filename = Throw message
        -> message = "Dataset is empty or invalid"%string)
  /\ analyzeDataset Date_parse Number_toString (Some one_empty_row) filename
     = Return (Profile.mk filename one_empty_row [] [] []).
Proof.
  split; [ split | split ].
  - intros [message H].
    destruct data as [[|row rows]|]; auto; discriminate.
  - intros [-> | ->]; eexists; reflexivity.
  - intros message H.
    destruct data as [[|row rows]|]; cbn in H; congruence.
  - reflexivity.
Qed.

(** C4 fails as stated: on [[{}]] the orchestrator returns a profile. *)
Lemma analyzeDataset_one_empty_row_returns :
  analyzeDataset Host.Date_parse Host.Number_toString
    (Some one_empty_row) "dataset"
  = Return (Profile.mk "dataset" one_empty_row [] [] [])
  /\ ~ (exists message,
          analyzeDataset Host.Date_parse Host.Number_toString
            (Some one_empty_row) "dataset" = Throw message).
Proof.
  split; [ reflexivity | ].
  intros [message H]. discriminate H.
Qed.


(* ================================================================== *)
(** * Chart suggestions *)
(* ================================================================== *)

Section TwoClasses.

Context {A : Type}.
Variables (after : A -> A -> bool) (late : A -> bool).

(** [after] sends the [late] elements behind the others and orders nothing
    else. *)
Hypothesis after_late : forall x y, after x y = late x && negb (late y).

Lemma insert_early (x : A) (l : list A) :
  late x = false -> Arr.insert after x l = x :: l.
Proof.
  intros Hx. destruct l as [|y l]; cbn; [ reflexivity | ].
  rewrite after_late, Hx. reflexivity.
Qed.

Lemma insert_late (x : A) (early lates : list A) :
  late x = true ->
  Forall (fun y => late y = false) early ->
  Forall (fun y => late y = true) lates ->
  Arr.insert after x (early ++ lates) = early ++ x :: lates.
Proof.
  intros Hx He Hl. induction He as [|y early Hy He IH]; cbn.
  - destruct Hl as [|z lates Hz Hl]; cbn; [ reflexivity | ].
    rewrite after_late, Hx, Hz. reflexivity.
  - rewrite after_late, Hx, Hy. cbn. now rewrite IH.
Qed.

Lemma stable_sort_two_classes (l : list A) :
  Arr.stable_sort after l
  = filter (fun y => negb (late y)) l ++ filter late l.
Proof.
  induction l as [|x l IH]; cbn [Arr.stable_sort fold_right filter];
    [ reflexivity | ].
  fold (Arr.stable_sort after l). rewrite IH.
  destruct (late x) eqn:Hx; cbn [negb].
  - apply insert_late; [ assumption | | ]; apply Forall_forall; intros y Hy;
      apply filter_In in Hy as [_ Hy]; [ | assumption ].
    now destruct (late y).
  - now apply insert_early.
Qed.

End TwoClasses.

Lemma stable_sort_ext {A : Type} (f g : A -> A -> bool) (l : list A) :
  (forall x y, In x l -> In y l -> f x y = g x y) ->
  Arr.stable_sort f l = Arr.stable_sort g l.
Proof.
  induction l as [|x l IH]; intros H; cbn; [ reflexivity | ].
  fold (Arr.stable_sort f l) (Arr.stable_sort g l).
  rewrite <- IH by (intros; apply H; now right).
  assert (Hsub : forall y, In y (Arr.stable_sort f l) -> In y l).
  { clear. induction l as [|z l IHl]; cbn; [ tauto | ].
    fold (Arr.stable_sort f l). intros y Hy.
    assert (Hins : forall m, In y (Arr.insert f z m) -> y = z \/ In y m).
    { clear. induction m as [|w m IHm]; cbn; [ intuition | ].
      destruct (f z w); cbn; intuition. }
    apply Hins in Hy as [-> | Hy]; auto. }
  assert (Hgen : forall m, (forall y, In y m -> In y l) ->
                           Arr.insert f x m = Arr.insert g x m).
  { induction m as [|w m IHm]; intros Hm; cbn; [ reflexivity | ].
    rewrite (H x w) by (cbn; auto using in_eq; right; apply Hm; now left).
    destruct (g x w); [ | reflexivity ].
    f_equal. apply IHm. intros; apply Hm; now right. }
  apply Hgen, Hsub.
Qed.

Lemma pushed_priorities (columns : list Column.t) :
  Forall (fun s => ChartSuggestion.priority s = "high"%string
                   \/ ChartSuggestion.priority s = "medium"%string)
         (pushed_suggestions columns).
Proof.
  unfold pushed_suggestions.
  repeat match goal with
         | |- context [match ?l with [] => _ | _ :: _ => _ end] => destruct l
         | |- context [if ?b then _ else _] => destruct b
         end;
    cbn [app];
    repeat (apply Forall_cons; [ cbn; auto | ]);
    apply Forall_nil.
Qed.

(** The suggestions come out with every ['medium'] one first and every
    ['high'] one last, each group in the order of the rule table. *)
Lemma suggestChartTypes_medium_then_high (columns : list Column.t) :
  suggestChartTypes columns
  = filter (has_priority "medium") (pushed_suggestions columns)
    ++ filter (has_priority "high") (pushed_suggestions columns).
Proof.
  unfold suggestChartTypes, Lodash.orderBy_desc_string.
  pose proof (pushed_priorities columns) as Hp.
  rewrite Forall_forall in Hp.
  rewrite (stable_sort_ext _
             (fun x y => has_priority "high" x && negb (has_priority "high" y))).
  - rewrite (stable_sort_two_classes _ (has_priority "high"))
      by reflexivity.
    f_equal. apply filter_ext_in. intros s Hs.
    unfold has_priority. destruct (Hp s Hs) as [-> | ->]; reflexivity.
  - intros x y Hx Hy. unfold has_priority.
    destruct (Hp x Hx) as [-> | ->], (Hp y Hy) as [-> | ->]; reflexivity.
Qed.

(** C2, at the input where the code departs from it. For one numeric column
    the rules push the histogram (['high']) and then the box plot
    (['medium']); the sort returns the box plot first. In general the result
    is the ['medium'] suggestions followed by the ['high'] ones. *)
Theorem suggestChartTypes_medium_before_high :
  map (fun s => (ChartSuggestion.type s, ChartSuggestion.priority s))
      (pushed_suggestions [column_of "a" TInteger])
  = [("histogram", "high"); ("boxplot", "medium")]%string
  /\ map (fun s => (ChartSuggestion.type s, ChartSuggestion.priority s))
         (suggestChartTypes [column_of "a" TInteger])
     = [("boxplot", "medium"); ("histogram", "high")]%string
  /\ forall columns,
       suggestChartTypes columns
       = filter (has_priority "medium") (pushed_suggestions columns)
         ++ filter (has_priority "high") (pushed_suggestions columns).
Proof.
  split; [ reflexivity | split; [ reflexivity | ] ].
  exact suggestChartTypes_medium_then_high.
Qed.

(* ================================================================== *)
(** * Numeric statistics: one value *)
(* ================================================================== *)

(** C1, at the input where the code departs from it. A sample of one value
    makes the Bessel divisor [count - 1] zero: the variance is [0 / 0], and
    both [variance] and [std] are reported as NaN, in the statistics and in
    the profile of a one-row dataset. *)
Theorem calculateNumericStats_single_value_is_NaN :
  NumericStats.count (calculateNumericStats [VStr "5"]) = 1%nat
  /\ NumericStats.variance (calculateNumericStats [VStr "5"]) = Some JS.NaN
  /\ NumericStats.std (calculateNumericStats [VStr "5"]) = Some JS.NaN
  /\ forall Date_parse Number_toString,
     exists p col s,
       analyzeDataset Date_parse Number_toString (Some single_five) "dataset"
       = Return p
       /\ Profile.columns p = [col]
       /\ Column.type col = TInteger
       /\ Column.stats col = Numeric s
       /\ NumericStats.variance s = Some JS.NaN
       /\ NumericStats.std s = Some JS.NaN.
Proof.
  repeat split; try (vm_compute; reflexivity).
  intros Date_parse Number_toString.
  eexists. eexists. eexists.
  split; [ vm_compute; reflexivity | ].
  repeat split.
Qed.

(* ================================================================== *)
(** * Facts about numbers *)
(* ================================================================== *)

Lemma Qsgn_zero (q : Q) : (JS.Qsgn q =? 0) = true <-> (q == 0)%Q.
Proof.
  unfold JS.Qsgn, Qeq. cbn. rewrite Z.eqb_eq, Z.sgn_null_iff. lia.
Qed.

Lemma Qsgn_neg (q : Q) : (JS.Qsgn q <? 0) = true <-> (q < 0)%Q.
Proof.
  unfold JS.Qsgn, Qlt. cbn. rewrite Z.ltb_lt.
  destruct (Qnum q); cbn; lia.
Qed.

Lemma Qsgn_zero_false (q : Q) : (JS.Qsgn q =? 0) = false <-> ~ (q == 0)%Q.
Proof.
  rewrite <- Qsgn_zero. destruct (JS.Qsgn q =? 0); intuition congruence.
Qed.

Lemma Qsgn_neg_false (q : Q) : (JS.Qsgn q <? 0) = false <-> (0 <= q)%Q.
Proof.
  pose proof (Qsgn_neg q) as H. destruct (JS.Qsgn q <? 0).
  - split; [ discriminate | ]. intros Hq.
    assert (q < 0)%Q by now apply H. lra.
  - split; [ | reflexivity ]. intros _.
    destruct (Qlt_le_dec q 0) as [Hlt | Hle]; [ | assumption ].
    apply H in Hlt. discriminate.
Qed.

Lemma eqb_Fin (a b : Q) : JS.eqb (JS.Fin a) (JS.Fin b) = true <-> (a == b)%Q.
Proof. cbn. rewrite Qsgn_zero. split; intros H; lra. Qed.

Lemma ltb_Fin (a b : Q) : JS.ltb (JS.Fin a) (JS.Fin b) = true <-> (a < b)%Q.
Proof. cbn. rewrite Qsgn_neg. split; intros H; lra. Qed.

Lemma eqb_sym (x y : JS.num) : JS.eqb x y = JS.eqb y x.
Proof.
  destruct x as [| | |a], y as [| | |b]; try reflexivity.
  destruct (JS.eqb (JS.Fin a) (JS.Fin b)) eqn:E1,
           (JS.eqb (JS.Fin b) (JS.Fin a)) eqn:E2; try reflexivity.
  - apply eqb_Fin in E1. symmetry in E1. apply eqb_Fin in E1. congruence.
  - apply eqb_Fin in E2. symmetry in E2. apply eqb_Fin in E2. congruence.
Qed.

Lemma eqb_refl_Fin (a : Q) : JS.eqb (JS.Fin a) (JS.Fin a) = true.
Proof. apply eqb_Fin. reflexivity. Qed.

(** ** Overflow *)

Lemma overflow_threshold_large :
  (inject_Z (10 ^ 22) < JS.overflow_threshold)%Q.
Proof. vm_compute. reflexivity. Qed.

Lemma of_exact_in_range (q : Q) :
  (Qabs q < JS.overflow_threshold)%Q -> JS.of_exact q = JS.Fin q.
Proof.
  intros H. unfold JS.of_exact.
  assert (E : (JS.Qsgn (Qabs q - JS.overflow_threshold) <? 0) = true)
    by (apply Qsgn_neg; lra).
  now rewrite E.
Qed.

Lemma of_exact_cases (q : Q) :
  (JS.of_exact q = JS.Fin q /\ (Qabs q < JS.overflow_threshold)%Q)
  \/ (JS.of_exact q = JS.PInf /\ (JS.overflow_threshold <= q)%Q)
  \/ (JS.of_exact q = JS.NInf /\ (q <= - JS.overflow_threshold)%Q).
Proof.
  unfold JS.of_exact.
  destruct (JS.Qsgn (Qabs q - JS.overflow_threshold) <? 0) eqn:E.
  - left. split; [ reflexivity | ]. apply Qsgn_neg in E. lra.
  - apply Qsgn_neg_false in E.
    destruct (JS.Qsgn q <? 0) eqn:Es.
    + right; right. split; [ reflexivity | ].
      apply Qsgn_neg in Es. rewrite Qabs_neg in E by lra. lra.
    + right; left. split; [ reflexivity | ].
      apply Qsgn_neg_false in Es. rewrite Qabs_pos in E by lra. lra.
Qed.

Lemma of_exact_Fin_inv (q r : Q) :
  JS.of_exact q = JS.Fin r -> r = q /\ (Qabs q < JS.overflow_threshold)%Q.
Proof.
  destruct (of_exact_cases q) as [[-> H] | [[-> _] | [-> _]]]; try discriminate.
  intros E. injection E as <-. auto.
Qed.

(* ================================================================== *)
(** * Sample values *)
(* ================================================================== *)

Lemma same_value_zero_refl (v : value) : Val.same_value_zero v v = true.
Proof.
  destruct v as [| |b|n|s]; cbn; try reflexivity.
  - apply Bool.eqb_reflx.
  - destruct n; try reflexivity. apply eqb_refl_Fin.
  - apply String.eqb_refl.
Qed.

Lemma same_value_zero_sym (v w : value) :
  Val.same_value_zero v w = Val.same_value_zero w v.
Proof.
  destruct v as [| |a|x|s], w as [| |b|y|t]; cbn; try reflexivity;
    try (destruct x; reflexivity); try (destruct y; reflexivity).
  - now destruct a, b.
  - destruct x as [| | |p], y as [| | |q]; try reflexivity.
    apply (eqb_sym (JS.Fin p) (JS.Fin q)).
  - apply String.eqb_sym.
Qed.

Lemma nonNull_spec (v : value) :
  nonNull v = true <-> v <> VNull /\ v <> VUndefined /\ v <> VStr EmptyString.
Proof.
  destruct v as [| |b|n|[|c s]]; cbn; intuition congruence.
Qed.

Lemma uniq_acc_In (seen l : list value) (v : value) :
  In v (Lodash.uniq_acc seen l) ->
  In v l /\ existsb (Val.same_value_zero v) seen = false.
Proof.
  revert seen. induction l as [|x l IH]; intros seen; cbn; [ tauto | ].
  destruct (existsb (Val.same_value_zero x) seen) eqn:Ex.
  - intros H. apply IH in H. tauto.
  - intros [<- | H]; [ auto | ].
    apply IH in H as [Hin Hseen]. cbn in Hseen.
    apply orb_false_iff in Hseen. tauto.
Qed.

Lemma uniq_acc_distinct (seen l : list value) :
  distinct_values (Lodash.uniq_acc seen l).
Proof.
  revert seen. induction l as [|x l IH]; intros seen; cbn.
  - constructor.
  - destruct (existsb (Val.same_value_zero x) seen); [ apply IH | ].
    constructor; [ | apply IH ].
    apply Forall_forall. intros w Hw.
    apply uniq_acc_In in Hw as [_ Hw]. cbn in Hw.
    apply orb_false_iff in Hw as [Hw _].
    now rewrite same_value_zero_sym.
Qed.

Lemma uniq_acc_represents (seen l : list value) (v : value) :
  In v l ->
  existsb (Val.same_value_zero v) seen = true
  \/ exists w, In w (Lodash.uniq_acc seen l)
               /\ Val.same_value_zero v w = true.
Proof.
  revert seen. induction l as [|x l IH]; intros seen; cbn; [ tauto | ].
  intros [-> | Hin].
  - destruct (existsb (Val.same_value_zero v) seen) eqn:Ev; [ now left | ].
    right. exists v. split; [ now left | apply same_value_zero_refl ].
  - destruct (existsb (Val.same_value_zero x) seen) eqn:Ex.
    + apply IH, Hin.
    + destruct (IH (x :: seen) Hin) as [Hs | (w & Hw & Hvw)].
      * cbn in Hs. apply orb_true_iff in Hs as [Hs | Hs]; [ | now left ].
        right. exists x. split; [ now left | assumption ].
      * right. exists w. split; [ now right | assumption ].
Qed.

Lemma In_firstn {A : Type} (n : nat) (l : list A) (x : A) :
  In x (firstn n l) -> In x l.
Proof.
  revert n. induction l as [|y l IH]; intros [|n]; cbn; try tauto.
  intros [-> | H]; [ now left | right; eapply IH, H ].
Qed.

Lemma distinct_firstn (n : nat) (l : list value) :
  distinct_values l -> distinct_values (firstn n l).
Proof.
  intros H. revert n. induction H as [|x l Hx Hl IH]; intros [|n]; cbn;
    try constructor.
  - apply Forall_forall. intros w Hw.
    rewrite Forall_forall in Hx. apply Hx.
    eapply In_firstn, Hw.
  - apply IH.
Qed.

Section SampleValues.

Variable Date_parse : string -> JS.num.
Variable Number_toString : JS.num -> string.

(** C10. The sample values of a column are the first five of its distinct
    values (SameValueZero) that are not [null], [undefined] or the empty
    string, and nothing else is filtered out: every other value of the column
    is represented among the distinct ones. A blank string and a NaN number,
    both counted as missing, are therefore sample values of their column. *)
Theorem sampleValues_exclude_only_null_undefined_empty :
  (forall (cleanData : list object) (name : string),
     let values := map (fun row => Obj.cell row name) cleanData in
     let kept := Lodash.uniq (filter nonNull values) in
     let samples :=
       Column.sampleValues
         (analyze_column Date_parse Number_toString cleanData name) in
     samples = firstn 5 kept
     /\ (List.length samples <= 5)%nat
     /\ distinct_values samples
     /\ (forall v, In v samples ->
           In v values /\ v <> VNull /\ v <> VUndefined /\ v <> VStr EmptyString)
     /\ (forall v, In v values ->
           v <> VNull -> v <> VUndefined -> v <> VStr EmptyString ->
           exists w, In w kept /\ Val.same_value_zero v w = true))
  /\ all_whitespace " "
  /\ is_missing (VStr " ") = true
  /\ is_missing (VNum JS.NaN) = true
  /\ exists p col,
       analyzeDataset Date_parse Number_toString (Some blank_and_NaN) "dataset"
       = Return p
       /\ Profile.columns p = [col]
       /\ MissingData.missing (Column.missingData col) = 2%nat
       /\ MissingData.total (Column.missingData col) = 2%nat
       /\ Column.sampleValues col = [VStr " "; VNum JS.NaN].
Proof.
  split; [ | split; [ | split; [ | split ] ] ].
  - intros cleanData name values kept samples.
    assert (Hs : samples = firstn 5 kept) by reflexivity.
    split; [ exact Hs | ]. rewrite Hs.
    split; [ apply firstn_le_length | ].
    split; [ apply distinct_firstn, uniq_acc_distinct | ].
    split.
    + intros v Hv. apply In_firstn in Hv.
      apply uniq_acc_In in Hv as [Hv _].
      apply filter_In in Hv as [Hin Hnn].
      apply nonNull_spec in Hnn. tauto.
    + intros v Hin H1 H2 H3.
      assert (Hf : In v (filter nonNull values)).
      { apply filter_In. split; [ assumption | ].
        apply nonNull_spec. tauto. }
      destruct (uniq_acc_represents [] _ v Hf) as [Habs | Hw];
        [ discriminate | exact Hw ].
  - split; [ discriminate | ]. repeat constructor.
  - reflexivity.
  - reflexivity.
  - eexists. eexists. split; [ reflexivity | ].
    repeat split.
Qed.

End SampleValues.

(* ================================================================== *)
(** * Type inference *)
(* ================================================================== *)

Lemma filter_length_all {A : Type} (p : A -> bool) (l : list A) :
  (List.length (filter p l) =? List.length l)%nat = forallb p l.
Proof.
  induction l as [|x l IH]; cbn; [ reflexivity | ].
  destruct (p x); cbn; [ exact IH | ].
  apply Nat.eqb_neq. pose proof (filter_length_le p l). lia.
Qed.

Lemma numeric_like_spec (v : value) :
  numeric_like v = true <-> converts_to_finite v.
Proof.
  unfold numeric_like, finite_number, converts_to_finite.
  destruct (Val.ToNumber v) as [| | |q]; cbn; split;
    try discriminate; try (intros [q' H]; discriminate); eauto.
Qed.

Lemma boolean_like_spec (v : value) :
  boolean_like v = true <-> native_boolean v \/ boolean_word v.
Proof.
  unfold native_boolean, boolean_word.
  destruct v as [| |b|n|s]; cbn [boolean_like].
  1,2,4: split; [ discriminate | intros [[? H] | (? & H & _)]; discriminate ].
  - split; eauto.
  - rewrite existsb_exists. split.
    + intros (w & Hin & Hw). apply String.eqb_eq in Hw. subst w.
      right. exists s. auto.
    + intros [[b H] | (t & H & Hin)]; [ discriminate | ].
      injection H as <-. exists (Str.toLowerCase s).
      split; [ assumption | apply String.eqb_refl ].
Qed.

Lemma forallb_nonNull (p : value -> bool) (P : value -> Prop)
  (values : list value) :
  (forall v, p v = true <-> P v) ->
  forallb p (filter nonNull values) = true <-> every_non_null P values.
Proof.
  intros Hp. rewrite forallb_forall. unfold every_non_null. split.
  - intros H v Hin Hnn. apply Hp, H, filter_In. split; [ assumption | ].
    now apply nonNull_spec.
  - intros H v Hin. apply filter_In in Hin as [Hin Hnn].
    apply Hp, H; [ assumption | now apply nonNull_spec ].
Qed.

Section TypeInference.

Variable Date_parse : string -> JS.num.

(** C3. [detectColumnType] answers boolean exactly when every non-null value
    is a native boolean or one of the six words, whatever the case, and the
    numeric check before it failed. So a column of such values is boolean
    unless every one of them also converts to a finite number, and then the
    numeric rule has already answered integer or float; a native boolean
    always converts. *)
Theorem detectColumnType_boolean_iff (values : list value) :
  (detectColumnType Date_parse values = TBoolean
   <-> every_non_null (fun v => native_boolean v \/ boolean_word v) values
       /\ ~ every_non_null converts_to_finite values)
  /\ (every_non_null (fun v => native_boolean v \/ boolean_word v) values ->
      (exists v, In v values /\ non_null v) ->
      every_non_null converts_to_finite values ->
      detectColumnType Date_parse values = TInteger
      \/ detectColumnType Date_parse values = TFloat)
  /\ (forall v, native_boolean v -> converts_to_finite v).
Proof.
  pose proof (forallb_nonNull _ _ values numeric_like_spec) as Hnum.
  pose proof (forallb_nonNull _ _ values boolean_like_spec) as Hbool.
  unfold detectColumnType.
  rewrite !filter_length_all.
  split; [ | split ].
  - destruct (filter nonNull values) as [|x nn] eqn:Hnn.
    { cbn. split; [ discriminate | ]. intros [_ Hno]. exfalso. apply Hno.
      apply Hnum. reflexivity. }
    cbn [List.length Nat.eqb].
    destruct (forallb numeric_like (x :: nn)) eqn:En.
    { split.
      - destruct (forallb _ (filter numeric_like (x :: nn))); discriminate.
      - intros [_ Hno]. exfalso. apply Hno, Hnum. reflexivity. }
    destruct (forallb boolean_like (x :: nn)) eqn:Eb.
    + split; [ intros _ | reflexivity ].
      split; [ now apply Hbool | ].
      intros Hall. apply Hnum in Hall. congruence.
    + split.
      * destruct (forallb (date_like Date_parse) _); discriminate.
      * intros [Hall _]. apply Hbool in Hall. congruence.
  - intros _ (v & Hin & Hv) Hall.
    apply Hnum in Hall.
    assert (Hf : In v (filter nonNull values)).
    { apply filter_In. split; [ assumption | now apply nonNull_spec ]. }
    destruct (filter nonNull values) as [|x nn]; [ destruct Hf | ].
    cbn [List.length Nat.eqb]. rewrite Hall.
    destruct (forallb _ (filter numeric_like (x :: nn))); auto.
  - intros v [[|] ->]; eexists; reflexivity.
Qed.

End TypeInference.

Example detectColumnType_examples :
  detectColumnType Host.Date_parse [VStr "true"; VStr "No"; VNull] = TBoolean
  /\ detectColumnType Host.Date_parse [VStr "yes"; VStr "1"] = TBoolean
  /\ detectColumnType Host.Date_parse [VStr "1"; VStr "0"] = TInteger
  /\ detectColumnType Host.Date_parse [VBool true; VBool false] = TInteger
  /\ detectColumnType Host.Date_parse [VBool true; VStr "no"] = TBoolean
  /\ detectColumnType Host.Date_parse [VStr "1.5"; VNum (JS.Fin 2)] = TFloat
  /\ detectColumnType Host.Date_parse [VNull; VStr EmptyString] = TUnknown
  /\ detectColumnType Host.Date_parse [VStr "true"; VStr "maybe"] = TString.
Proof. vm_compute. repeat split. Qed.

(* ================================================================== *)
(** * Rounding *)
(* ================================================================== *)

Lemma pow10_pos (d : nat) : 0 < JS.pow10 d.
Proof. unfold JS.pow10. apply Z.pow_pos_nonneg; lia. Qed.

Lemma Qsgn_cases (q : Q) :
  (JS.Qsgn q = 1 /\ (0 < q)%Q /\ (Qabs q == q)%Q)
  \/ (JS.Qsgn q = 0 /\ (q == 0)%Q /\ (Qabs q == 0)%Q)
  \/ (JS.Qsgn q = -1 /\ (q < 0)%Q /\ (Qabs q == - q)%Q).
Proof.
  destruct q as [[|n|n] d]; unfold JS.Qsgn; cbn [Qnum Z.sgn].
  - right; left. repeat split; reflexivity.
  - left. repeat split; reflexivity.
  - right; right. repeat split; reflexivity.
Qed.

(** The value of [Qround_fixed]: the nearest multiple of [10^-d], a tie
    going away from zero. *)
Lemma Qround_fixed_value (d : nat) (q : Q) :
  (JS.Qround_fixed d q
   == inject_Z (JS.Qsgn q
                * Qfloor (Qabs q * inject_Z (JS.pow10 d) + (1 # 2)))
      / inject_Z (JS.pow10 d))%Q.
Proof.
  unfold JS.Qround_fixed. rewrite Qred_correct, Qmake_Qdiv.
  rewrite Z2Pos.id by apply pow10_pos. reflexivity.
Qed.

Lemma Qround_fixed_error (d : nat) (q : Q) :
  (Qabs (JS.Qround_fixed d q - q) <= 1 / (2 * inject_Z (JS.pow10 d)))%Q.
Proof.
  rewrite Qround_fixed_value.
  set (S := inject_Z (JS.pow10 d)).
  assert (HS : (0 < S)%Q).
  { unfold S. rewrite <- (Zlt_Qlt 0). apply pow10_pos. }
  set (N := Qfloor (Qabs q * S + (1 # 2))).
  assert (Hlo : (inject_Z N <= Qabs q * S + (1 # 2))%Q) by apply Qfloor_le.
  assert (Hhi : (Qabs q * S + (1 # 2) < inject_Z N + 1)%Q).
  { pose proof (Qlt_floor (Qabs q * S + (1 # 2))) as H.
    fold N in H. rewrite inject_Z_plus in H. exact H. }
  assert (Hdiv : forall x : Q, (x / S * S == x)%Q).
  { intros x. field. lra. }
  apply Qabs_Qle_condition.
  assert (Hb : (1 / (2 * S) * S == 1 # 2)%Q) by (field; lra).
  destruct (Qsgn_cases q) as [(-> & Hq & Ha) | [(-> & Hq & Ha) | (-> & Hq & Ha)]];
    rewrite Ha in *.
  - rewrite Z.mul_1_l.
    split; apply (Qmult_le_r _ _ S HS).
    + setoid_replace ((inject_Z N / S - q) * S)%Q with (inject_Z N - q * S)%Q
        by (field; lra).
      setoid_replace (- (1 / (2 * S)) * S)%Q with (- (1 # 2))%Q by (field; lra).
      lra.
    + setoid_replace ((inject_Z N / S - q) * S)%Q with (inject_Z N - q * S)%Q
        by (field; lra).
      rewrite Hb. lra.
  - rewrite Z.mul_0_l.
    split; apply (Qmult_le_r _ _ S HS).
    + setoid_replace ((inject_Z 0 / S - q) * S)%Q with (- q * S)%Q
        by (field; lra).
      setoid_replace (- (1 / (2 * S)) * S)%Q with (- (1 # 2))%Q by (field; lra).
      rewrite Hq. lra.
    + setoid_replace ((inject_Z 0 / S - q) * S)%Q with (- q * S)%Q
        by (field; lra).
      rewrite Hb, Hq. lra.
  - replace (-1 * N) with (- N) by lia. rewrite inject_Z_opp.
    split; apply (Qmult_le_r _ _ S HS).
    + setoid_replace ((- inject_Z N / S - q) * S)%Q
        with (- inject_Z N - q * S)%Q by (field; lra).
      setoid_replace (- (1 / (2 * S)) * S)%Q with (- (1 # 2))%Q by (field; lra).
      lra.
    + setoid_replace ((- inject_Z N / S - q) * S)%Q
        with (- inject_Z N - q * S)%Q by (field; lra).
      rewrite Hb. lra.
Qed.

(* ================================================================== *)
(** * Missingness *)
(* ================================================================== *)

Lemma trimStart_empty (s : string) :
  Str.trimStart s = EmptyString <->
  Forall (fun c => Str.is_ws c = true) (list_ascii_of_string s).
Proof.
  induction s as [|c s IH]; cbn.
  - split; [ constructor | reflexivity ].
  - destruct (Str.is_ws c) eqn:Hc.
    + rewrite IH. split; [ now constructor | now inversion 1 ].
    + split; [ discriminate | ]. inversion 1; congruence.
Qed.

Lemma trimStart_head (s : string) (c : ascii) (r : string) :
  Str.trimStart s = String c r -> Str.is_ws c = false.
Proof.
  induction s as [|c' s IH]; cbn; [ discriminate | ].
  destruct (Str.is_ws c') eqn:Hc; [ exact IH | ].
  intros H. injection H as <- <-. exact Hc.
Qed.

Lemma trimEnd_empty_head (c : ascii) (r : string) :
  Str.trimEnd (String c r) = EmptyString -> Str.is_ws c = true.
Proof.
  cbn. destruct (Str.trimEnd r); [ | discriminate ].
  destruct (Str.is_ws c); [ reflexivity | discriminate ].
Qed.

Lemma trim_empty (s : string) :
  Str.trim s = EmptyString <->
  Forall (fun c => Str.is_ws c = true) (list_ascii_of_string s).
Proof.
  unfold Str.trim. rewrite <- trimStart_empty. split.
  - destruct (Str.trimStart s) as [|c r] eqn:Hs; [ reflexivity | ].
    intros H. apply trimEnd_empty_head in H.
    apply trimStart_head in Hs. congruence.
  - intros ->. reflexivity.
Qed.

Lemma is_missing_spec (v : value) : is_missing v = true <-> missing_value v.
Proof.
  unfold missing_value, all_whitespace, is_missing.
  destruct v as [| |b|n|s]; cbn.
  - intuition.
  - intuition.
  - split; [ discriminate | ].
    intros [H|[H|[H|[(s & H & _)|H]]]]; discriminate.
  - destruct n; cbn; split; auto; try discriminate;
      intros [H|[H|[H|[(s & H & _)|H]]]]; discriminate.
  - destruct s as [|c s]; [ intuition | ].
    match goal with
    | |- ?b = true <-> _ =>
        replace b with (String.eqb (Str.trim (String c s)) EmptyString)
          by (destruct (String.eqb (Str.trim (String c s)) EmptyString); reflexivity)
    end.
    rewrite String.eqb_eq, trim_empty. split.
    + intros H. right; right; right; left. exists (String c s).
      repeat split; [ discriminate | exact H ].
    + intros [H|[H|[H|[(t & H & _ & Hws)|H]]]]; try discriminate.
      injection H as <-. exact Hws.
Qed.

Lemma toFixedNumber_small (d : nat) (q : Q) :
  (Qabs q < inject_Z (10 ^ 21))%Q ->
  JS.toFixedNumber d (JS.Fin q) = JS.Fin (JS.Qround_fixed d q).
Proof.
  intros H. unfold JS.toFixedNumber.
  assert (Hneg : (JS.Qsgn (Qabs q - inject_Z (10 ^ 21)) <? 0) = true).
  { apply Qsgn_neg. lra. }
  now rewrite Hneg.
Qed.

Lemma div_Fin (a b : Q) :
  ~ (b == 0)%Q -> JS.div (JS.Fin a) (JS.Fin b) = JS.of_exact (a / b).
Proof.
  intros Hb. cbn [JS.div]. apply Qsgn_zero_false in Hb. now rewrite Hb.
Qed.

(** The share [part / total * 100], rounded to two decimals, for a part of
    a non-empty total. *)
Lemma percentage_rounded (part total : Z) :
  0 <= part <= total -> 0 < total ->
  exists r : Q,
    JS.toFixedNumber 2
      (JS.mul (JS.div (JS.of_Z part) (JS.of_Z total)) (JS.Fin 100))
    = JS.Fin r
    /\ (Qabs (r - inject_Z part / inject_Z total * 100) <= 1 # 200)%Q.
Proof.
  intros Hp Ht.
  assert (HtQ : (0 < inject_Z total)%Q) by (rewrite <- (Zlt_Qlt 0); exact Ht).
  assert (HpQ : (0 <= inject_Z part)%Q) by (rewrite <- (Zle_Qle 0); lia).
  assert (HptQ : (inject_Z part <= inject_Z total)%Q)
    by (rewrite <- Zle_Qle; lia).
  pose proof overflow_threshold_large as Hbig.
  assert (H22 : (inject_Z (10 ^ 22) == 10000000000000000000000)%Q)
    by reflexivity.
  assert (Hr : (0 <= inject_Z part / inject_Z total <= 1)%Q).
  { split.
    - apply Qle_shift_div_l; [ exact HtQ | lra ].
    - apply Qle_shift_div_r; [ exact HtQ | lra ]. }
  unfold JS.of_Z. rewrite div_Fin by lra.
  rewrite of_exact_in_range by (rewrite Qabs_pos by lra; lra).
  cbn [JS.mul].
  set (q := (inject_Z part / inject_Z total * 100)%Q).
  assert (Hq : (0 <= q <= 100)%Q).
  { unfold q. split.
    - apply Qmult_le_0_compat; lra.
    - setoid_replace 100%Q with (1 * 100)%Q at 2 by reflexivity.
      apply Qmult_le_compat_r; lra. }
  rewrite of_exact_in_range by (rewrite Qabs_pos by lra; lra).
  rewrite toFixedNumber_small.
  - eexists. split; [ reflexivity | ].
    pose proof (Qround_fixed_error 2 q) as H.
    setoid_replace (1 / (2 * inject_Z (JS.pow10 2)))%Q with (1 # 200)%Q in H
      by reflexivity.
    exact H.
  - rewrite Qabs_pos by lra.
    apply Qle_lt_trans with (y := 100%Q); [ lra | reflexivity ].
Qed.

(** C5, as the code has it. For a column of at least one value: [missing]
    counts the values that are [null], [undefined], empty, blank or NaN;
    [missing + present] is [total]; both percentages are finite and add up
    to 100 within 0.01. *)
Theorem calculateMissingData_accounts (v0 : value) (rest : list value) :
  let values := v0 :: rest in
  let r := calculateMissingData values in
  MissingData.total r = List.length values
  /\ MissingData.missing r = List.length (filter is_missing values)
  /\ (forall v, is_missing v = true <-> missing_value v)
  /\ Z.of_nat (MissingData.missing r) + MissingData.present r
     = Z.of_nat (MissingData.total r)
  /\ exists m p : Q,
       MissingData.missingPercentage r = JS.Fin m
       /\ MissingData.presentPercentage r = JS.Fin p
       /\ (Qabs (m + p - 100) <= 1 # 100)%Q.
Proof.
  intros values r.
  split; [ reflexivity | split; [ reflexivity | split; [ | split ] ] ].
  - exact is_missing_spec.
  - unfold r, calculateMissingData. cbn [MissingData.missing
      MissingData.present MissingData.total]. lia.
  - set (total := Z.of_nat (List.length values)).
    set (missing := Z.of_nat (List.length (filter is_missing values))).
    assert (Hm : 0 <= missing <= total).
    { unfold missing, total. pose proof (filter_length_le is_missing values).
      lia. }
    assert (Ht : 0 < total) by (unfold total, values; cbn; lia).
    destruct (percentage_rounded missing total Hm Ht) as (m & Em & Hm').
    destruct (percentage_rounded (total - missing) total) as (p & Ep & Hp');
      [ lia | exact Ht | ].
    exists m, p. split; [ exact Em | split; [ exact Ep | ] ].
    assert (HtQ : (0 < inject_Z total)%Q) by (rewrite <- (Zlt_Qlt 0); exact Ht).
    assert (Hsum : (inject_Z missing / inject_Z total * 100
                    + inject_Z (total - missing) / inject_Z total * 100
                    == 100)%Q).
    { unfold Z.sub. rewrite inject_Z_plus, inject_Z_opp. field. lra. }
    apply Qabs_Qle_condition in Hm'. apply Qabs_Qle_condition in Hp'.
    apply Qabs_Qle_condition. lra.
Qed.

(** C5 fails as stated: with no value at all both percentages are NaN. *)
Lemma calculateMissingData_empty_is_NaN :
  MissingData.total (calculateMissingData []) = 0%nat
  /\ MissingData.missingPercentage (calculateMissingData []) = JS.NaN
  /\ MissingData.presentPercentage (calculateMissingData []) = JS.NaN
  /\ MissingData.missingPercentage (calculateMissingData []) <> JS.Fin 0.
Proof. repeat split. discriminate. Qed.

(* ================================================================== *)
(** * The sorted sample *)
(* ================================================================== *)

Lemma finite_number_spec (x : JS.num) :
  finite_number x = true <-> exists q, x = JS.Fin q.
Proof.
  destruct x; cbn; split; try discriminate; eauto;
    intros [q H]; discriminate.
Qed.

Lemma filter_finite (l : list JS.num) : all_finite (filter finite_number l).
Proof.
  apply Forall_forall. intros x Hx. apply filter_In in Hx as [_ Hx].
  now apply finite_number_spec.
Qed.

Lemma insert_perm {A : Type} (f : A -> A -> bool) (x : A) (l : list A) :
  Permutation (Arr.insert f x l) (x :: l).
Proof.
  induction l as [|y l IH]; cbn; [ reflexivity | ].
  destruct (f x y); [ | reflexivity ].
  rewrite IH. apply perm_swap.
Qed.

Lemma stable_sort_perm {A : Type} (f : A -> A -> bool) (l : list A) :
  Permutation (Arr.stable_sort f l) l.
Proof.
  induction l as [|x l IH]; cbn; [ reflexivity | ].
  fold (Arr.stable_sort f l). rewrite insert_perm. now constructor.
Qed.

Lemma sorted_numbers_perm (values : list value) :
  Permutation (sorted_numbers values)
              (filter finite_number (map Val.ToNumber values)).
Proof. apply stable_sort_perm. Qed.

Lemma sorted_numbers_finite (values : list value) :
  all_finite (sorted_numbers values).
Proof.
  eapply Permutation_Forall.
  - symmetry. apply sorted_numbers_perm.
  - apply filter_finite.
Qed.

(** The comparator [(a, b) => a - b] sends [a] after [b] when [b < a]. *)
Lemma after_Fin (a b : Q) :
  JS.gtb (JS.sub (JS.Fin a) (JS.Fin b)) JS.zero = true <-> (b < a)%Q.
Proof.
  unfold JS.gtb, JS.zero. cbn [JS.sub JS.neg JS.add].
  assert (Ht : (0 < JS.overflow_threshold)%Q) by reflexivity.
  destruct (of_exact_cases (a + - b)) as [[-> _] | [[-> H] | [-> H]]].
  - rewrite ltb_Fin. split; intros; lra.
  - cbn. split; [ intros _; lra | reflexivity ].
  - cbn. split; [ discriminate | intros; lra ].
Qed.

Lemma num_le_trans (x y z : JS.num) : num_le x y -> num_le y z -> num_le x z.
Proof.
  destruct x, y, z; cbn; try tauto. intros; lra.
Qed.

Lemma insert_ascending (x : JS.num) (l : list JS.num) :
  (exists q, x = JS.Fin q) -> all_finite l -> ascending l ->
  ascending
    (Arr.insert (fun a b => JS.gtb (JS.sub a b) JS.zero) x l).
Proof.
  intros [a ->] Hfin Hs.
  induction Hs as [|y r Hr IH Hy]; cbn [Arr.insert].
  - repeat constructor.
  - inversion Hfin as [|y' r' [b ->] Hfr]; subst.
    destruct (JS.gtb (JS.sub (JS.Fin a) (JS.Fin b)) JS.zero) eqn:E.
    + apply after_Fin in E.
      constructor; [ now apply IH | ].
      eapply Permutation_Forall; [ symmetry; apply insert_perm | ].
      constructor; [ cbn; lra | exact Hy ].
    + assert (Hab : (a <= b)%Q).
      { destruct (Qlt_le_dec b a) as [Hlt | Hle]; [ | exact Hle ].
        apply after_Fin in Hlt. congruence. }
      constructor; [ now constructor | ].
      constructor; [ exact Hab | ].
      eapply Forall_impl; [ | exact Hy ].
      intros z Hz. eapply num_le_trans; [ | exact Hz ]. exact Hab.
Qed.

Lemma sort_numbers_ascending (l : list JS.num) :
  all_finite l -> ascending (Arr.sort_numbers l).
Proof.
  unfold Arr.sort_numbers.
  induction l as [|x l IH]; intros Hfin; cbn; [ constructor | ].
  inversion Hfin; subst.
  apply insert_ascending; auto.
  eapply Permutation_Forall; [ symmetry; apply stable_sort_perm | assumption ].
Qed.

Lemma sorted_numbers_ascending (values : list value) :
  ascending (sorted_numbers values).
Proof. apply sort_numbers_ascending, filter_finite. Qed.

Lemma at_num_finite (l : list JS.num) (i : nat) :
  all_finite l -> (i < List.length l)%nat ->
  exists q, Arr.at_num l i = JS.Fin q.
Proof.
  intros Hfin Hi. unfold Arr.at_num, all_finite in *.
  rewrite Forall_forall in Hfin. apply Hfin, nth_In, Hi.
Qed.

Lemma ascending_at (l : list JS.num) (i j : nat) :
  ascending l -> all_finite l -> (i <= j)%nat -> (j < List.length l)%nat ->
  num_le (Arr.at_num l i) (Arr.at_num l j).
Proof.
  unfold Arr.at_num. intros Hs. revert i j.
  induction Hs as [|x r Hr IH Hx]; intros i j Hfin Hij Hj; cbn in Hj;
    [ lia | ].
  inversion Hfin as [|x' r' [a ->] Hfr]; subst.
  destruct i as [|i], j as [|j]; cbn [nth]; try lia.
  - cbn. lra.
  - rewrite Forall_forall in Hx. apply Hx, nth_In. lia.
  - apply IH; [ assumption | lia | lia ].
Qed.

(** [Math.floor(count * 0.25)] and [Math.floor(count * 0.75)] in whole
    numbers, for the length of an array (below 2^32). *)
Lemma array_length_in_range (count : nat) (k : Q) :
  Z.of_nat count < 2 ^ 32 -> (0 <= k <= 1)%Q ->
  JS.mul (JS.of_nat count) (JS.Fin k)
  = JS.Fin (inject_Z (Z.of_nat count) * k).
Proof.
  intros Hc Hk. unfold JS.of_nat, JS.of_Z. cbn [JS.mul].
  apply of_exact_in_range.
  assert (H0 : (0 <= inject_Z (Z.of_nat count))%Q)
    by (rewrite <- (Zle_Qle 0); lia).
  assert (H1 : (inject_Z (Z.of_nat count) < inject_Z (2 ^ 32))%Q)
    by (rewrite <- Zlt_Qlt; exact Hc).
  assert (H2 : (inject_Z (2 ^ 32) < JS.overflow_threshold)%Q)
    by (vm_compute; reflexivity).
  assert (H3 : (0 <= inject_Z (Z.of_nat count) * k)%Q)
    by (apply Qmult_le_0_compat; lra).
  assert (H4 : (inject_Z (Z.of_nat count) * k
                <= inject_Z (Z.of_nat count) * 1)%Q).
  { rewrite !(Qmult_comm (inject_Z (Z.of_nat count))).
    apply Qmult_le_compat_r; lra. }
  rewrite Qabs_pos by exact H3. lra.
Qed.

Lemma q1Index_div (count : nat) :
  Z.of_nat count < 2 ^ 32 -> q1Index count = (count / 4)%nat.
Proof.
  intros Hc. unfold q1Index.
  rewrite array_length_in_range by (try exact Hc; lra).
  unfold JS.floor_index, Qfloor, Qmult, inject_Z. cbn [Qnum Qden Pos.mul].
  rewrite Z.mul_1_r.
  change 4 with (Z.of_nat 4). rewrite <- Nat2Z.inj_div. apply Nat2Z.id.
Qed.

Lemma q3Index_div (count : nat) :
  Z.of_nat count < 2 ^ 32 -> q3Index count = (count * 3 / 4)%nat.
Proof.
  intros Hc. unfold q3Index.
  rewrite array_length_in_range by (try exact Hc; lra).
  unfold JS.floor_index, Qfloor, Qmult, inject_Z. cbn [Qnum Qden Pos.mul].
  change 4 with (Z.of_nat 4). change 3 with (Z.of_nat 3).
  rewrite <- Nat2Z.inj_mul, <- Nat2Z.inj_div. apply Nat2Z.id.
Qed.

(* ================================================================== *)
(** * Quartiles *)
(* ================================================================== *)

(** The quotients by 2 and by 4 that the positions are made of, spelled out
    for [lia]. *)
Ltac quotient_facts n :=
  pose proof (Nat.div_mod_eq n 4); pose proof (Nat.mod_upper_bound n 4);
  pose proof (Nat.div_mod_eq n 2); pose proof (Nat.mod_upper_bound n 2);
  pose proof (Nat.div_mod_eq (n * 3) 4);
  pose proof (Nat.mod_upper_bound (n * 3) 4).

Lemma index_bounds_even (n : nat) :
  (1 <= n)%nat -> (n mod 2 = 0)%nat ->
  (n / 4 <= n / 2 - 1 /\ n / 2 - 1 <= n / 2 /\ n / 2 <= n * 3 / 4
   /\ n * 3 / 4 <= n - 1 /\ n / 2 < n)%nat.
Proof. intros. quotient_facts n. lia. Qed.

Lemma index_bounds_odd (n : nat) :
  (1 <= n)%nat -> (n mod 2 <> 0)%nat ->
  (n / 4 <= n / 2 /\ n / 2 <= n * 3 / 4 /\ n * 3 / 4 <= n - 1)%nat.
Proof. intros. quotient_facts n. lia. Qed.

Lemma mod2_even (n : nat) : (n mod 2 =? 0)%nat = Nat.even n.
Proof.
  destruct (Nat.even n) eqn:E.
  - apply Nat.even_spec in E. destruct E as [k ->]. apply Nat.eqb_eq.
    rewrite Nat.mul_comm. apply Nat.Div0.mod_mul.
  - apply Nat.eqb_neq. intros H.
    assert (Nat.even n = true); [ | congruence ].
    apply Nat.even_spec. exists (n / 2)%nat.
    pose proof (Nat.div_mod_eq n 2). lia.
Qed.

(** The mean of two finite numbers lies between them, unless their sum
    overflows. *)
Lemma midpoint_between (a b : Q) :
  (a <= b)%Q ->
  let m := JS.div (JS.add (JS.Fin a) (JS.Fin b)) (JS.Fin 2) in
  m = JS.PInf \/ m = JS.NInf
  \/ exists q, m = JS.Fin q /\ (a <= q <= b)%Q.
Proof.
  intros Hab m. unfold m. cbn [JS.add].
  destruct (of_exact_cases (a + b)) as [[-> H] | [[-> _] | [-> _]]].
  - right; right. rewrite div_Fin by lra.
    assert (Hlo : (a <= (a + b) / 2)%Q) by (apply Qle_shift_div_l; lra).
    assert (Hhi : ((a + b) / 2 <= b)%Q) by (apply Qle_shift_div_r; lra).
    rewrite of_exact_in_range.
    + eexists. split; [ reflexivity | split; assumption ].
    + apply Qabs_Qlt_condition in H. apply Qabs_Qlt_condition.
      assert (Ht : (0 < JS.overflow_threshold)%Q) by reflexivity.
      assert (Hh : ((a + b) / 2 * 2 == a + b)%Q) by (field; lra).
      split.
      * destruct (Qlt_le_dec (- JS.overflow_threshold) ((a + b) / 2))
          as [Hlt | Hge]; [ exact Hlt | exfalso; lra ].
      * destruct (Qlt_le_dec ((a + b) / 2) JS.overflow_threshold)
          as [Hlt | Hge]; [ exact Hlt | exfalso; lra ].
  - now left.
  - right; now left.
Qed.

Lemma calculateNumericStats_record (values : list value) :
  let numericValues := sorted_numbers values in
  let count := List.length numericValues in
  let mean := Lodash.mean numericValues in
  let variance := sample_variance numericValues mean in
  (1 <= count)%nat ->
  calculateNumericStats values
  = NumericStats.mk
      count
      (Some (JS.toFixedNumber 4 mean))
      (Some (median_of numericValues))
      (Some (JS.toFixedNumber 4 (JS.sqrt variance)))
      (Some (Arr.at_num numericValues 0))
      (Some (Arr.at_num numericValues (count - 1)))
      (Some (Arr.at_num numericValues (q1Index count)))
      (Some (Arr.at_num numericValues (q3Index count)))
      (Some (JS.toFixedNumber 4 variance))
      (rounded_if_truthy (computed_skewness numericValues))
      (rounded_if_truthy (computed_kurtosis numericValues)).
Proof.
  intros numericValues count mean variance Hcount.
  unfold calculateNumericStats. fold numericValues. fold count.
  destruct (Nat.eqb_spec count 0) as [H0 | _]; [ lia | reflexivity ].
Qed.

(** C7, as the code has it. For a sample with at least one finite number, the
    statistics are read off the ascending sample: [min] and [max] are its
    ends, [q1] and [q3] its elements at [floor(count * 0.25)] and
    [floor(count * 0.75)], [median] its middle element or the mean of the two
    middle ones. Then [min <= q1 <= q3 <= max], and [q1 <= median <= q3]
    whenever the median is finite: it always is for an odd count, and it is
    an infinity when the sum of the two middle numbers overflows. *)
Theorem calculateNumericStats_quartiles_ordered (values : list value) :
  sorted_numbers values <> [] ->
  Z.of_nat (List.length values) < 2 ^ 32 ->
  quartiles_ordered values.
Proof.
  intros Hne Hlen. unfold quartiles_ordered.
  set (sorted := sorted_numbers values) in *.
  set (count := List.length sorted).
  set (s := calculateNumericStats values).
  pose proof (sorted_numbers_finite values) as Hfin.
  pose proof (sorted_numbers_ascending values) as Hasc.
  fold sorted in Hfin, Hasc, Hne.
  assert (Hcount : (1 <= count)%nat).
  { unfold count. destruct sorted; [ congruence | cbn; lia ]. }
  assert (Hshort : Z.of_nat count < 2 ^ 32).
  { unfold count, sorted.
    rewrite (Permutation_length (sorted_numbers_perm values)).
    pose proof (filter_length_le finite_number (map Val.ToNumber values)) as H.
    rewrite length_map in H. lia. }
  assert (Hs : s = NumericStats.mk
                     count
                     (Some (JS.toFixedNumber 4 (Lodash.mean sorted)))
                     (Some (median_of sorted))
                     (Some (JS.toFixedNumber 4
                              (JS.sqrt (sample_variance sorted
                                          (Lodash.mean sorted)))))
                     (Some (Arr.at_num sorted 0))
                     (Some (Arr.at_num sorted (count - 1)))
                     (Some (Arr.at_num sorted (count / 4)))
                     (Some (Arr.at_num sorted (count * 3 / 4)))
                     (Some (JS.toFixedNumber 4
                              (sample_variance sorted (Lodash.mean sorted))))
                     (rounded_if_truthy (computed_skewness sorted))
                     (rounded_if_truthy (computed_kurtosis sorted))).
  { unfold s. rewrite (calculateNumericStats_record values) by exact Hcount.
    fold sorted. fold count.
    now rewrite q1Index_div, q3Index_div by exact Hshort. }
  assert (Hmed : median_of sorted
                 = if Nat.even count
                   then JS.div (JS.add (Arr.at_num sorted (count / 2 - 1))
                                       (Arr.at_num sorted (count / 2)))
                               (JS.Fin 2)
                   else Arr.at_num sorted (count / 2)).
  { unfold median_of. fold count. now rewrite mod2_even. }
  rewrite Hs. cbn [NumericStats.count NumericStats.min NumericStats.max
                   NumericStats.q1 NumericStats.q3 NumericStats.median].
  split; [ apply sorted_numbers_perm | ].
  split; [ exact Hasc | ].
  do 5 (split; [ reflexivity | ]).
  split; [ now rewrite Hmed | ].
  assert (Hat : forall i j, (i <= j)%nat -> (j < count)%nat ->
                            num_le (Arr.at_num sorted i) (Arr.at_num sorted j))
    by (intros; now apply ascending_at).
  rewrite Hmed, <- mod2_even.
  destruct (Nat.eqb_spec (count mod 2) 0) as [Heven | Hodd].
  - destruct (index_bounds_even count Hcount Heven) as (B1 & B2 & B3 & B4 & B5).
    pose proof (Hat 0%nat (count / 4)%nat ltac:(lia) ltac:(lia)) as L1.
    pose proof (Hat (count / 4)%nat (count / 2 - 1)%nat ltac:(lia) ltac:(lia))
      as L2.
    pose proof (Hat (count / 2 - 1)%nat (count / 2)%nat ltac:(lia) ltac:(lia))
      as L3.
    pose proof (Hat (count / 2)%nat (count * 3 / 4)%nat ltac:(lia) ltac:(lia))
      as L4.
    pose proof (Hat (count * 3 / 4)%nat (count - 1)%nat ltac:(lia) ltac:(lia))
      as L5.
    pose proof (Hat (count / 4)%nat (count * 3 / 4)%nat ltac:(lia) ltac:(lia))
      as L6.
    destruct (Arr.at_num sorted 0) as [| | |mn]; try contradiction.
    destruct (Arr.at_num sorted (count / 4)) as [| | |q1]; try contradiction.
    destruct (Arr.at_num sorted (count / 2 - 1)) as [| | |lo];
      try contradiction.
    destruct (Arr.at_num sorted (count / 2)) as [| | |hi]; try contradiction.
    destruct (Arr.at_num sorted (count * 3 / 4)) as [| | |q3];
      try contradiction.
    destruct (Arr.at_num sorted (count - 1)) as [| | |mx]; try contradiction.
    cbn in L1, L2, L3, L4, L5, L6.
    exists mn, q1, q3, mx.
    do 4 (split; [ reflexivity | ]).
    do 3 (split; [ assumption | ]).
    destruct (midpoint_between lo hi L3) as [-> | [-> | (med & -> & Hlo & Hhi)]].
    + split; [ discriminate | ]. split; [ now left | discriminate ].
    + split; [ discriminate | ]. split; [ right; now left | discriminate ].
    + split; [ | split; [ right; right; now exists med | discriminate ] ].
      intros med' E. injection E as <-. split; lra.
  - destruct (index_bounds_odd count Hcount Hodd) as (B1 & B2 & B3).
    pose proof (Hat 0%nat (count / 4)%nat ltac:(lia) ltac:(lia)) as L1.
    pose proof (Hat (count / 4)%nat (count / 2)%nat ltac:(lia) ltac:(lia))
      as L2.
    pose proof (Hat (count / 2)%nat (count * 3 / 4)%nat ltac:(lia) ltac:(lia))
      as L4.
    pose proof (Hat (count * 3 / 4)%nat (count - 1)%nat ltac:(lia) ltac:(lia))
      as L5.
    pose proof (Hat (count / 4)%nat (count * 3 / 4)%nat ltac:(lia) ltac:(lia))
      as L6.
    destruct (Arr.at_num sorted 0) as [| | |mn]; try contradiction.
    destruct (Arr.at_num sorted (count / 4)) as [| | |q1]; try contradiction.
    destruct (Arr.at_num sorted (count / 2)) as [| | |med]; try contradiction.
    destruct (Arr.at_num sorted (count * 3 / 4)) as [| | |q3];
      try contradiction.
    destruct (Arr.at_num sorted (count - 1)) as [| | |mx]; try contradiction.
    cbn in L1, L2, L4, L5, L6.
    exists mn, q1, q3, mx.
    do 4 (split; [ reflexivity | ]).
    do 3 (split; [ assumption | ]).
    split; [ | split; [ right; right; now exists med | now exists med ] ].
    intros med' E. injection E as <-. split; lra.
Qed.

Lemma calculateNumericStats_quartiles_ordered_witness :
  sorted_numbers sample_five <> []
  /\ Z.of_nat (List.length sample_five) < 2 ^ 32
  /\ quartiles_ordered sample_five.
Proof.
  split; [ vm_compute; discriminate | ].
  split; [ reflexivity | ].
  apply calculateNumericStats_quartiles_ordered;
    [ vm_compute; discriminate | reflexivity ].
Defined.

(** C7 fails as stated: the two middle numbers of an even sample can add up
    beyond the binary64 range, and the median is then [Infinity], above
    [q3]. *)
Lemma calculateNumericStats_median_overflows :
  sorted_numbers sample_huge
  = [JS.Fin (inject_Z (10 ^ 308)); JS.Fin (inject_Z (17 * 10 ^ 307))]
  /\ NumericStats.median (calculateNumericStats sample_huge) = Some JS.PInf
  /\ NumericStats.q3 (calculateNumericStats sample_huge)
     = Some (JS.Fin (inject_Z (17 * 10 ^ 307)))
  /\ JS.ltb JS.PInf (JS.Fin (inject_Z (17 * 10 ^ 307))) = false
  /\ JS.eqb JS.PInf (JS.Fin (inject_Z (17 * 10 ^ 307))) = false.
Proof. vm_compute. repeat split. Qed.

Example calculateNumericStats_sample_five :
  sorted_numbers sample_five
  = [JS.Fin 1; JS.Fin 2; JS.Fin 4; JS.Fin 8; JS.Fin 9]
  /\ NumericStats.q1 (calculateNumericStats sample_five) = Some (JS.Fin 2)
  /\ NumericStats.median (calculateNumericStats sample_five) = Some (JS.Fin 4)
  /\ NumericStats.q3 (calculateNumericStats sample_five) = Some (JS.Fin 8).
Proof. vm_compute. repeat split. Qed.

(* ================================================================== *)
(** * Sums of finite numbers *)
(* ================================================================== *)

(** ** Finite results come from finite operands *)

Lemma add_Fin_inv (x y : JS.num) (r : Q) :
  JS.add x y = JS.Fin r ->
  exists a b, x = JS.Fin a /\ y = JS.Fin b /\ r = (a + b)%Q.
Proof.
  destruct x as [| | |a], y as [| | |b]; cbn [JS.add]; try discriminate.
  intros H. apply of_exact_Fin_inv in H as [-> _]. now exists a, b.
Qed.




Lemma fold_left_add_Fin_inv (l : list JS.num) (x : JS.num) (r : Q) :
  fold_left JS.add l x = JS.Fin r ->
  exists a qs,
    x = JS.Fin a /\ l = map JS.Fin qs /\ r = fold_left Qplus qs a.
Proof.
  revert x. induction l as [|y l IH]; intros x; cbn [fold_left].
  - intros ->. now exists r, [].
  - intros H. apply IH in H as (c & qs & Hc & -> & ->).
    apply add_Fin_inv in Hc as (a & b & -> & -> & ->).
    now exists a, (b :: qs).
Qed.

(** A finite [_.sum] is the sum of finite numbers, none of its partial sums
    having overflowed. *)
Lemma sum_Fin_inv (l : list JS.num) (r : Q) :
  Lodash.sum l = JS.Fin r ->
  exists qs, l = map JS.Fin qs /\ r = sumQ qs.
Proof.
  destruct l as [|x l]; cbn [Lodash.sum].
  - intros H. injection H as <-. now exists [].
  - intros H. apply fold_left_add_Fin_inv in H as (a & qs & -> & -> & ->).
    now exists (a :: qs).
Qed.


Lemma Qsum_cons (q : Q) (qs : list Q) : Qsum (q :: qs) = (q + Qsum qs)%Q.
Proof. reflexivity. Qed.

Lemma Qsum_nil : Qsum [] = 0%Q.
Proof. reflexivity. Qed.

Lemma fold_left_Qplus (qs : list Q) (a : Q) :
  (fold_left Qplus qs a == a + Qsum qs)%Q.
Proof.
  revert a. induction qs as [|q qs IH]; intros a; cbn [fold_left].
  - rewrite Qsum_nil. ring.
  - rewrite IH, Qsum_cons. ring.
Qed.

Lemma sumQ_Qsum (qs : list Q) : (sumQ qs == Qsum qs)%Q.
Proof.
  destruct qs as [|q qs]; [ reflexivity | ].
  cbn [sumQ]. rewrite fold_left_Qplus, Qsum_cons. reflexivity.
Qed.





Lemma square_nonneg (q : Q) : (0 <= q * q)%Q.
Proof.
  destruct (Qlt_le_dec q 0) as [H | H].
  - setoid_replace (q * q)%Q with ((- q) * (- q))%Q by ring.
    apply Qmult_le_0_compat; lra.
  - apply Qmult_le_0_compat; lra.
Qed.


(** ** The square root *)

Lemma sqrt_scale_pos : 0 < JS.sqrt_scale.
Proof. reflexivity. Qed.

Lemma Qsqrt_value (q : Q) :
  (JS.Qsqrt q
   == inject_Z (Z.sqrt (Qnum q * Zpos (Qden q)
                        * (JS.sqrt_scale * JS.sqrt_scale)))
      / inject_Z (Zpos (Qden q) * JS.sqrt_scale))%Q.
Proof.
  unfold JS.Qsqrt. rewrite Qred_correct, Qmake_Qdiv.
  rewrite Z2Pos.id; [ reflexivity | ].
  pose proof sqrt_scale_pos. lia.
Qed.


Lemma sqrt_Fin (q : Q) :
  (0 <= q)%Q -> JS.sqrt (JS.Fin q) = JS.Fin (JS.Qsqrt q).
Proof.
  intros Hq. cbn. apply Qsgn_neg_false in Hq. now rewrite Hq.
Qed.

(* ================================================================== *)
(** * Correlation *)
(* ================================================================== *)

(** ** Objects *)

Lemma get_set_same {A : Type} (o : list (string * A)) (k : string) (v : A) :
  Obj.get (Obj.set o k v) k = Some v.
Proof.
  induction o as [|[k' v'] o IH]; cbn.
  - now rewrite String.eqb_refl.
  - destruct (String.eqb_spec k' k) as [-> | Hne]; cbn.
    + now rewrite String.eqb_refl.
    + destruct (String.eqb_spec k' k); [ contradiction | exact IH ].
Qed.

Lemma get_set_other {A : Type} (o : list (string * A)) (k k' : string)
  (v : A) :
  k <> k' -> Obj.get (Obj.set o k v) k' = Obj.get o k'.
Proof.
  intros Hne. induction o as [|[k0 v0] o IH]; cbn.
  - destruct (String.eqb_spec k k'); [ contradiction | reflexivity ].
  - destruct (String.eqb_spec k0 k) as [-> | Hk]; cbn.
    + destruct (String.eqb_spec k k'); [ contradiction | reflexivity ].
    + destruct (String.eqb_spec k0 k'); [ reflexivity | exact IH ].
Qed.

Lemma get_fold_set {A : Type} (f : string -> A) (cols : list string)
  (o : list (string * A)) (k : string) :
  Obj.get (fold_left (fun o c => Obj.set o c (f c)) cols o) k
  = if in_dec string_dec k cols then Some (f k) else Obj.get o k.
Proof.
  revert o. induction cols as [|c cols IH]; intros o; cbn [fold_left].
  - reflexivity.
  - rewrite IH.
    destruct (in_dec string_dec k cols) as [Hin | Hnin].
    + destruct (in_dec string_dec k (c :: cols)) as [_ | H];
        [ reflexivity | exfalso; apply H; now right ].
    + destruct (in_dec string_dec k (c :: cols)) as [[-> | H] | H].
      * apply get_set_same.
      * contradiction.
      * apply get_set_other. intros ->. apply H. now left.
Qed.

Lemma correlation_at_entry (data : list object) (cols : list string)
  (a b : string) :
  In a cols -> In b cols ->
  correlation_at (calculateCorrelationMatrix data cols) a b
  = Some (correlation_entry data a b).
Proof.
  intros Ha Hb. unfold correlation_at, calculateCorrelationMatrix.
  rewrite (get_fold_set
             (fun col1 =>
                fold_left
                  (fun row col2 =>
                     Obj.set row col2 (correlation_entry data col1 col2))
                  cols [])).
  destruct (in_dec string_dec a cols); [ | contradiction ].
  rewrite (get_fold_set (fun col2 => correlation_entry data a col2)).
  destruct (in_dec string_dec b cols); [ reflexivity | contradiction ].
Qed.

(** ** Symmetry *)

Lemma Qmult_comm_eq (a b : Q) : (a * b)%Q = (b * a)%Q.
Proof.
  unfold Qmult. f_equal; [ apply Z.mul_comm | apply Pos.mul_comm ].
Qed.

Lemma mul_comm (x y : JS.num) : JS.mul x y = JS.mul y x.
Proof.
  destruct x as [| | |a], y as [| | |b]; try reflexivity.
  cbn. f_equal. apply Qmult_comm_eq.
Qed.






(** ** A column against itself *)
















(** ** Samples on which the arithmetic is exact *)





















(** The columns of Scenario E are small samples of whole numbers. *)
Example scenario_E_small :
  small_whole_sample (column_numbers scenario_E "x")
  /\ small_whole_sample (column_numbers scenario_E "y").
Proof.
  split; [ exists [1; 2; 3; 4] | exists [2; 4; 6; 8] ];
    (split; [ | vm_compute; discriminate ]);
    repeat constructor; eexists; split; reflexivity.
Qed.


Example scenario_E_correlations :
  calculateCorrelationMatrix scenario_E ["x"; "y"]%string
  = [("x", [("x", JS.Fin 1); ("y", JS.Fin 1)]);
     ("y", [("x", JS.Fin 1); ("y", JS.Fin 1)])]%string.
Proof. vm_compute. reflexivity. Qed.

(* ================================================================== *)
(** * Rounded and suppressed statistics *)
(* ================================================================== *)

Lemma rounded_to_toFixed (d : nat) (x : JS.num) :
  rounded_to d x (JS.toFixedNumber d x).
Proof.
  split; [ reflexivity | ]. intros q -> Hsmall.
  rewrite toFixedNumber_small by exact Hsmall.
  exists (JS.Qround_fixed d q). split; [ reflexivity | ]. split.
  - eexists. apply Qround_fixed_value.
  - apply Qround_fixed_error.
Qed.

Lemma rounded_if_truthy_Some (x : nullable JS.num) (r : JS.num) :
  rounded_if_truthy x = Some r ->
  exists y, x = Some y /\ JS.truthy y = true /\ r = JS.toFixedNumber 4 y.
Proof.
  destruct x as [y|]; cbn; [ | discriminate ].
  destruct (JS.truthy y) eqn:Ey; [ | discriminate ].
  intros H. injection H as <-. now exists y.
Qed.

Lemma rounded_if_truthy_zero (q : Q) :
  (q == 0)%Q -> rounded_if_truthy (Some (JS.Fin q)) = None.
Proof.
  intros Hq. cbn. apply Qsgn_zero in Hq. now rewrite Hq.
Qed.

(** C8, as the code has it. [skewness] is [null] for at most two numbers and
    [kurtosis] for at most three; either is also [null] when its computed
    value is exactly 0. A reported [skewness] or [kurtosis], [mean],
    [variance] and [std] are the computed values after [toFixed(4)]: rounded
    to four decimals when finite; [median], [min], [max], [q1] and [q3] are
    not rounded. *)
Theorem calculateNumericStats_suppressed_and_rounded (values : list value) :
  skew_kurtosis_suppressed_and_rounded values.
Proof.
  unfold skew_kurtosis_suppressed_and_rounded.
  set (numericValues := sorted_numbers values).
  set (count := List.length numericValues).
  destruct (le_lt_dec count 0) as [H0 | Hpos].
  { assert (Hnil : numericValues = [])
      by (destruct numericValues; [ reflexivity | cbn in count; lia ]).
    assert (Hs : calculateNumericStats values
                 = NumericStats.mk 0 None None None None None None None None
                     None None).
    { unfold calculateNumericStats. fold numericValues. now rewrite Hnil. }
    rewrite Hs. cbn [NumericStats.skewness NumericStats.kurtosis].
    repeat split; try reflexivity; try discriminate; try lia;
      intros; try discriminate; lia. }
  rewrite (calculateNumericStats_record values) by exact Hpos.
  fold numericValues. fold count.
  cbn [NumericStats.skewness NumericStats.kurtosis NumericStats.mean
       NumericStats.variance NumericStats.std NumericStats.median
       NumericStats.min NumericStats.max NumericStats.q1 NumericStats.q3].
  split; [ | split; [ | split; [ | split; [ | split; [ | split;
    [ | split ] ] ] ] ] ].
  - intros Hle. unfold computed_skewness. fold count.
    destruct (Nat.ltb_spec 2 count); [ lia | reflexivity ].
  - intros Hle. unfold computed_kurtosis. fold count.
    destruct (Nat.ltb_spec 3 count); [ lia | reflexivity ].
  - intros q -> Hq. now apply rounded_if_truthy_zero.
  - intros q -> Hq. now apply rounded_if_truthy_zero.
  - intros r Hr. apply rounded_if_truthy_Some in Hr as (x & Hx & Ht & ->).
    exists x. repeat split; auto. apply rounded_to_toFixed.
  - intros r Hr. apply rounded_if_truthy_Some in Hr as (x & Hx & Ht & ->).
    exists x. repeat split; auto. apply rounded_to_toFixed.
  - intros _. do 3 eexists.
    repeat split; try reflexivity; apply rounded_to_toFixed.
  - intros _. repeat split.
Qed.

(** C8 fails as stated: the median of an even sample is the mean of the two
    middle numbers as computed, with more than four decimals here. *)
Lemma calculateNumericStats_median_not_rounded :
  NumericStats.median (calculateNumericStats sample_pair)
  = Some (JS.Fin (300001 # 200000))
  /\ ~ has_decimals 4 (300001 # 200000)
  /\ JS.toFixedNumber 4 (JS.Fin (300001 # 200000)) = JS.Fin (3 # 2).
Proof.
  split; [ vm_compute; reflexivity | ].
  split; [ | vm_compute; reflexivity ].
  intros [z H]. unfold Qeq in H. cbn in H. lia.
Qed.

Example calculateNumericStats_zero_skewness_is_null :
  (exists q, computed_skewness (sorted_numbers sample_one_two_three)
             = Some (JS.Fin q) /\ (q == 0)%Q)
  /\ NumericStats.skewness (calculateNumericStats sample_one_two_three) = None
  /\ NumericStats.skewness (calculateNumericStats sample_five)
     = Some (JS.Fin (163 # 1250))
  /\ NumericStats.kurtosis (calculateNumericStats sample_five)
     = Some (JS.Fin (-1343 # 625)).
Proof.
  split; [ eexists; split; [ vm_compute; reflexivity | reflexivity ] | ].
  vm_compute. repeat split.
Qed.

(* ================================================================== *)
(** * More on the chart suggestions *)
(* ================================================================== *)

Lemma suggestChartTypes_perm (columns : list Column.t) :
  Permutation (suggestChartTypes columns) (pushed_suggestions columns).
Proof. apply stable_sort_perm. Qed.

Ltac in_cases :=
  repeat match goal with
         | H : In _ (_ :: _) |- _ => destruct H as [H | H]
         | H : In _ [] |- _ => destruct H
         end.

Ltac in_list :=
  cbn [In]; repeat (first [ left; reflexivity | right ]).

Ltac pick_suggestion :=
  match goal with
  | |- exists s, In s ?l /\ _ =>
      let rec go l :=
        lazymatch l with
        | ?x :: ?r => first [ exists x; split; [ in_list | reflexivity ] | go r ]
        end in
      go l
  end.

Lemma pushed_rule_table (columns : list Column.t) :
  let numeric := count_columns is_numeric_type columns in
  let categorical := count_columns is_categorical_type columns in
  let date := count_columns is_date_type columns in
  let has t := exists s, In s (pushed_suggestions columns)
                         /\ ChartSuggestion.type s = t in
  (has "histogram"%string <-> (1 <= numeric)%nat)
  /\ (has "boxplot"%string <-> (1 <= numeric)%nat)
  /\ (has "scatter"%string <-> (2 <= numeric)%nat)
  /\ (has "heatmap"%string <-> (3 <= numeric)%nat)
  /\ (has "bar"%string <-> (1 <= categorical)%nat /\ (1 <= numeric)%nat)
  /\ (has "pie"%string <-> (1 <= categorical)%nat)
  /\ (has "line"%string <-> (1 <= date)%nat /\ (1 <= numeric)%nat)
  /\ NoDup (map ChartSuggestion.type (pushed_suggestions columns))
  /\ (List.length (pushed_suggestions columns) <= 7)%nat.
Proof.
  unfold count_columns, pushed_suggestions.
  destruct (filter (fun col => is_numeric_type (Column.type col)) columns)
    as [|n0 [|n1 [|n2 ns]]];
    destruct (filter (fun col => is_categorical_type (Column.type col)) columns)
      as [|c0 cs];
    destruct (filter (fun col => is_date_type (Column.type col)) columns)
      as [|d0 ds];
    cbn [List.length Nat.leb app map ChartSuggestion.type].
  all: repeat split.
  all: repeat match goal with
              | H : exists _, _ /\ _ |- _ => destruct H as (s & Hin & Ht)
              | |- (exists _, _) -> _ => intros (s & Hin & Ht)
              end.
  all: try (in_cases; subst s; cbn in Ht; try discriminate Ht; cbn; lia).
  all: try (cbn; lia).
  all: try (intros; cbn in *; lia).
  all: try (intros; pick_suggestion).
  all: try (repeat constructor; cbn; intuition discriminate).
Qed.

(** X1. The chart rules, read off the result: a histogram and a box plot for
    at least one numeric column, a scatter plot for at least two, a heat map
    for at least three, a bar chart for a categorical and a numeric column,
    a pie chart for a categorical column, a line chart for a date and a
    numeric column; no chart type twice, at most seven suggestions. *)
Theorem suggestChartTypes_rule_table (columns : list Column.t) :
  chart_rule_table columns.
Proof.
  pose proof (pushed_rule_table columns) as H. cbv zeta in H.
  pose proof (suggestChartTypes_perm columns) as Hp.
  assert (Hin : forall t,
             suggests t columns
             <-> exists s, In s (pushed_suggestions columns)
                           /\ ChartSuggestion.type s = t).
  { intros t. unfold suggests. split; intros (s & Hs & Ht); exists s;
      (split; [ | exact Ht ]).
    - eapply Permutation_in; [ exact Hp | exact Hs ].
    - eapply Permutation_in; [ symmetry; exact Hp | exact Hs ]. }
  unfold chart_rule_table. rewrite !Hin.
  rewrite (Permutation_length Hp).
  destruct H as (H1 & H2 & H3 & H4 & H5 & H6 & H7 & H8 & H9).
  repeat (split; [ assumption | ]).
  split; [ | assumption ].
  eapply Permutation_NoDup; [ | exact H8 ].
  apply Permutation_map. symmetry. exact Hp.
Qed.

Lemma filter_head {A : Type} (p : A -> bool) (l : list A) (x : A)
  (r : list A) :
  filter p l = x :: r -> In x l /\ p x = true.
Proof.
  intros H. apply filter_In. rewrite H. now left.
Qed.

(** X2. Every column a suggestion requires is a column of the input, of the
    kind the chart needs: categorical on the x axis of a bar or pie chart, a
    date on the x axis of a line chart, numeric everywhere else. *)
Theorem suggestChartTypes_required_columns (columns : list Column.t)
  (s : ChartSuggestion.t) (axis name : string) :
  In s (suggestChartTypes columns) ->
  In (axis, name) (ChartSuggestion.requiredColumns s) ->
  exists col,
    In col columns /\ Column.name col = name
    /\ expected_kind (ChartSuggestion.type s) axis (Column.type col) = true.
Proof.
  intros Hs Hax.
  apply (Permutation_in _ (suggestChartTypes_perm columns)) in Hs.
  unfold pushed_suggestions in Hs.
  destruct (filter (fun col => is_numeric_type (Column.type col)) columns)
    as [|n0 [|n1 [|n2 ns]]] eqn:En;
    destruct (filter (fun col => is_categorical_type (Column.type col)) columns)
      as [|c0 cs] eqn:Ec;
    destruct (filter (fun col => is_date_type (Column.type col)) columns)
      as [|d0 ds] eqn:Ed;
    cbn [List.length Nat.leb app] in Hs.
  all: try (pose proof (filter_head _ _ _ _ En) as [Hn0 Hn0t]).
  all: try (pose proof (filter_head _ _ _ _ Ec) as [Hc0 Hc0t]).
  all: try (pose proof (filter_head _ _ _ _ Ed) as [Hd0 Hd0t]).
  all: try (assert (Hn1 : In n1 columns /\ is_numeric_type (Column.type n1) = true)
              by (apply (filter_In (fun col => is_numeric_type (Column.type col)));
                  rewrite En; cbn; auto)).
  all: in_cases; subst s; cbn [ChartSuggestion.requiredColumns] in Hax;
    in_cases; injection Hax as <- <-;
    first [ exists n0; now repeat split
          | exists c0; now repeat split
          | exists d0; now repeat split
          | exists n1; repeat split; tauto ].
Qed.

Lemma suggestChartTypes_required_columns_witness :
  exists col,
    In col [column_of "a" TInteger; column_of "b" TString]
    /\ Column.name col = "b"%string
    /\ expected_kind "bar" "x" (Column.type col) = true.
Proof.
  apply (suggestChartTypes_required_columns
           [column_of "a" TInteger; column_of "b" TString]
           (ChartSuggestion.mk "bar" "Category Comparison"
              "Compare numeric values across categories"
              [("x"%string, "b"%string); ("y"%string, "a"%string)] "high")
           "x" "b").
  - vm_compute. tauto.
  - cbn. tauto.
Defined.

(* ================================================================== *)
(** * More on type inference *)
(* ================================================================== *)

Lemma isInteger_spec (q : Q) :
  JS.isInteger (JS.Fin q) = true <-> exists z : Z, (q == inject_Z z)%Q.
Proof.
  cbn [JS.isInteger]. rewrite Qsgn_zero. split.
  - intros H. exists (Qfloor q). lra.
  - intros [z Hz].
    assert (Hf : Qfloor q = z) by (rewrite Hz; apply Qfloor_Z).
    rewrite Hf. lra.
Qed.

Lemma whole_spec (v : value) :
  numeric_like v = true ->
  JS.isInteger (Val.ToNumber v) = true <-> converts_to_whole v.
Proof.
  intros Hn. apply numeric_like_spec in Hn as [q Hq]. rewrite Hq.
  rewrite isInteger_spec. unfold converts_to_whole. rewrite Hq. split.
  - intros [z Hz]. now exists q, z.
  - intros (q' & z & E & Hz). injection E as <-. now exists z.
Qed.

Lemma filter_all {A : Type} (p : A -> bool) (l : list A) :
  forallb p l = true -> filter p l = l.
Proof.
  induction l as [|x l IH]; cbn; [ reflexivity | ].
  destruct (p x); cbn; [ | discriminate ].
  intros H. now rewrite IH.
Qed.

Lemma filter_nonNull_nil (values : list value) :
  filter nonNull values = [] <-> ~ some_non_null values.
Proof.
  unfold some_non_null. split.
  - intros H (v & Hin & Hv).
    assert (Hf : In v (filter nonNull values))
      by (apply filter_In; split; [ assumption | now apply nonNull_spec ]).
    rewrite H in Hf. destruct Hf.
  - intros H. destruct (filter nonNull values) as [|v l] eqn:E;
      [ reflexivity | ].
    exfalso. apply H. exists v.
    assert (Hf : In v (filter nonNull values)) by (rewrite E; now left).
    apply filter_In in Hf as [Hin Hv]. split; [ assumption | ].
    now apply nonNull_spec.
Qed.

Section TypeDecision.

Variable Date_parse : string -> JS.num.

(** X3. [detectColumnType] answers unknown exactly when no value is non-null;
    integer or float exactly when there is a non-null value and every one
    converts to a finite number, integer when they are all whole; date when
    the numeric and the boolean rule fail and every non-null value is a valid
    date; string when all three rules fail. *)
Theorem detectColumnType_decision (values : list value) :
  type_decision_table Date_parse values.
Proof.
  unfold type_decision_table.
  pose proof (forallb_nonNull _ _ values numeric_like_spec) as Hnum.
  pose proof (forallb_nonNull _ _ values boolean_like_spec) as Hbool.
  pose proof (forallb_nonNull (date_like Date_parse)
                (fun v => date_like Date_parse v = true) values
                (fun v => iff_refl _)) as Hdate.
  pose proof (filter_nonNull_nil values) as Hnil.
  assert (Hwhole : forallb numeric_like (filter nonNull values) = true ->
            (forallb (fun v => JS.isInteger (Val.ToNumber v))
               (filter nonNull values) = true
             <-> every_non_null converts_to_whole values)).
  { intros Hall. rewrite forallb_forall in Hall.
    rewrite forallb_forall. unfold every_non_null. split.
    - intros H v Hin Hv.
      assert (Hf : In v (filter nonNull values))
        by (apply filter_In; split; [ assumption | now apply nonNull_spec ]).
      apply whole_spec; auto.
    - intros H v Hf. apply whole_spec; [ now apply Hall | ].
      apply filter_In in Hf as [Hin Hv]. apply H; [ assumption | ].
      now apply nonNull_spec. }
  unfold detectColumnType. rewrite !filter_length_all.
  destruct (filter nonNull values) as [|x nn] eqn:Hnn.
  { cbn [List.length Nat.eqb].
    assert (Hno : ~ some_non_null values) by now apply Hnil.
    assert (Hn : every_non_null converts_to_finite values)
      by now apply Hnum.
    repeat split; try discriminate; try tauto. }
  assert (Hsome : some_non_null values).
  { destruct (filter nonNull values) eqn:E; [ discriminate | ].
    unfold some_non_null.
    assert (Hf : In v (filter nonNull values)) by (rewrite E; now left).
    apply filter_In in Hf as [Hin Hv]. exists v. split; [ assumption | ].
    now apply nonNull_spec. }
  cbn [List.length Nat.eqb].
  destruct (forallb numeric_like (x :: nn)) eqn:En.
  - rewrite (filter_all _ _ En).
    specialize (Hwhole eq_refl).
    assert (Hn : every_non_null converts_to_finite values)
      by now apply Hnum.
    destruct (forallb (fun v => JS.isInteger (Val.ToNumber v)) (x :: nn))
      eqn:Ei.
    + assert (Hw : every_non_null converts_to_whole values)
        by now apply Hwhole.
      repeat split; try discriminate; try tauto.
    + assert (Hw : ~ every_non_null converts_to_whole values).
      { intros H. apply Hwhole in H. discriminate. }
      repeat split; try discriminate; try tauto.
  - assert (Hn : ~ every_non_null converts_to_finite values).
    { intros H. apply Hnum in H. discriminate. }
    destruct (forallb boolean_like (x :: nn)) eqn:Eb.
    + assert (Hb : every_non_null
                     (fun v => native_boolean v \/ boolean_word v) values)
        by now apply Hbool.
      repeat split; try discriminate; try tauto.
    + assert (Hb : ~ every_non_null
                       (fun v => native_boolean v \/ boolean_word v) values).
      { intros H. apply Hbool in H. discriminate. }
      destruct (forallb (date_like Date_parse) (x :: nn)) eqn:Ed.
      * assert (Hd : every_non_null
                       (fun v => date_like Date_parse v = true) values)
          by now apply Hdate.
        repeat split; try discriminate; try tauto.
      * assert (Hd : ~ every_non_null
                         (fun v => date_like Date_parse v = true) values).
        { intros H. apply Hdate in H. discriminate. }
        repeat split; try discriminate; try tauto.
Qed.

End TypeDecision.

(* ================================================================== *)
(** * Numbers of the binary64 range *)
(* ================================================================== *)

Lemma of_exact_representable (q : Q) : representable (JS.of_exact q).
Proof.
  destruct (of_exact_cases q) as [[-> H] | [[-> _] | [-> _]]]; cbn; auto.
Qed.

Lemma neg_representable (x : JS.num) :
  representable x -> representable (JS.neg x).
Proof.
  destruct x as [| | |q]; try exact (fun H => H).
  intros H. change (Qabs (- q) < JS.overflow_threshold)%Q.
  now rewrite Qabs_opp.
Qed.

Lemma zero_representable : representable JS.zero.
Proof. cbn. reflexivity. Qed.

Lemma all_digits_representable (base : Z) (s : string) :
  representable (Str.all_digits base s).
Proof.
  unfold Str.all_digits.
  destruct (Str.take_digits base 0 s) as [[z [|k]] [|c r]]; cbn; auto.
  apply of_exact_representable.
Qed.

Lemma unsigned_decimal_representable (s : string) :
  representable (Str.unsigned_decimal s).
Proof.
  unfold Str.unsigned_decimal.
  destruct (String.eqb s "Infinity"); [ exact I | ].
  destruct (Str.take_digits 10 0 s) as [[ip ni] s1].
  assert (H : forall m nf s2,
             representable
               match (ni + nf)%nat with
               | O => JS.NaN
               | S _ =>
                   match Str.exponent_part s2 with
                   | Some e => JS.of_exact (Str.scale10 m (e - Z.of_nat nf))
                   | None => JS.NaN
                   end
               end).
  { intros m nf s2. destruct (ni + nf)%nat; [ exact I | ].
    destruct (Str.exponent_part s2); [ apply of_exact_representable | exact I ]. }
  destruct s1 as [|c r]; [ apply H | ].
  destruct (Ascii.eqb_spec c "."%char) as [-> | Hc].
  - destruct (Str.take_digits 10 ip r) as [[m nf] s2]. apply H.
  - destruct c as [[] [] [] [] [] [] [] []]; try apply H.
    exfalso. apply Hc. reflexivity.
Qed.

Lemma decimal_literal_representable (s : string) :
  representable (Str.decimal_literal s).
Proof.
  unfold Str.decimal_literal.
  destruct s as [|c r]; [ apply unsigned_decimal_representable | ].
  destruct (Ascii.eqb_spec c "+"%char) as [-> | Hp];
    [ apply unsigned_decimal_representable | ].
  destruct (Ascii.eqb_spec c "-"%char) as [-> | Hm];
    [ apply neg_representable, unsigned_decimal_representable | ].
  destruct c as [[] [] [] [] [] [] [] []];
    try apply unsigned_decimal_representable;
    exfalso; first [ apply Hp; reflexivity | apply Hm; reflexivity ].
Qed.

(** [Number(s)] is a number of the binary64 range. *)
Lemma StringToNumber_representable (s : string) :
  representable (Str.StringToNumber s).
Proof.
  unfold Str.StringToNumber.
  destruct (Str.trim s) as [|c t]; [ apply zero_representable | ].
  destruct (Ascii.eqb_spec c "0"%char) as [-> | Hc].
  - destruct t as [|c' r]; [ apply decimal_literal_representable | ].
    repeat match goal with
           | |- context [if ?b then _ else _] => destruct b
           end;
      first [ apply all_digits_representable
            | apply decimal_literal_representable ].
  - destruct c as [[] [] [] [] [] [] [] []];
      try apply decimal_literal_representable.
    exfalso. apply Hc. reflexivity.
Qed.

Lemma ToNumber_representable (v : value) :
  well_formed v -> representable (Val.ToNumber v).
Proof.
  destruct v as [| |[|]|x|s]; cbn [Val.ToNumber well_formed]; auto;
    try (cbn; reflexivity).
  intros _. apply StringToNumber_representable.
Qed.

Lemma sorted_numbers_representable (values : list value) :
  Forall well_formed values -> Forall representable (sorted_numbers values).
Proof.
  intros Hwf.
  eapply Permutation_Forall; [ symmetry; apply sorted_numbers_perm | ].
  apply Forall_forall. intros x Hx.
  apply filter_In in Hx as [Hx _].
  apply in_map_iff in Hx as (v & <- & Hv).
  apply ToNumber_representable. rewrite Forall_forall in Hwf. now apply Hwf.
Qed.

(* ================================================================== *)
(** * Outliers *)
(* ================================================================== *)

Lemma filter_ascending (p : JS.num -> bool) (l : list JS.num) :
  ascending l -> ascending (filter p l).
Proof.
  unfold ascending. induction 1 as [|x r Hr IH Hx]; cbn; [ constructor | ].
  destruct (p x); [ | exact IH ].
  constructor; [ exact IH | ].
  apply Forall_forall. intros y Hy. apply filter_In in Hy as [Hy _].
  rewrite Forall_forall in Hx. now apply Hx.
Qed.

Lemma filter_all_finite (p : JS.num -> bool) (l : list JS.num) :
  all_finite l -> all_finite (filter p l).
Proof.
  unfold all_finite. rewrite !Forall_forall. intros H x Hx.
  apply filter_In in Hx as [Hx _]. now apply H.
Qed.

Lemma sorted_numbers_In (values : list value) (v : JS.num) :
  In v (sorted_numbers values) ->
  exists c, In c values /\ Val.ToNumber c = v.
Proof.
  intros Hv.
  apply (Permutation_in _ (sorted_numbers_perm values)) in Hv.
  apply filter_In in Hv as [Hv _].
  apply in_map_iff in Hv as (c & Hc & Hin). eauto.
Qed.

Lemma sorted_numbers_short (values : list value) :
  Z.of_nat (List.length values) < 2 ^ 32 ->
  Z.of_nat (List.length (sorted_numbers values)) < 2 ^ 32.
Proof.
  intros Hlen.
  rewrite (Permutation_length (sorted_numbers_perm values)).
  pose proof (filter_length_le finite_number (map Val.ToNumber values)) as H.
  rewrite length_map in H. lia.
Qed.

(** X4. [detectOutliers] flags nothing when the column has fewer than four
    finite numbers; what it flags is a selection of the column's finite
    numbers, listed in ascending order. *)
Theorem detectOutliers_from_sample (values : list value) :
  outliers_from_sample values.
Proof.
  unfold outliers_from_sample.
  assert (Hsel : exists keep,
             detectOutliers values = filter keep (sorted_numbers values)).
  { unfold detectOutliers.
    destruct (List.length (sorted_numbers values) <? 4)%nat.
    - exists (fun _ => false).
      induction (sorted_numbers values) as [|x l IH]; cbn;
        [ reflexivity | exact IH ].
    - eexists. reflexivity. }
  pose proof (sorted_numbers_finite values) as Hfin.
  pose proof (sorted_numbers_ascending values) as Hasc.
  split; [ | split; [ exact Hsel | ] ].
  - intros Hshort. unfold detectOutliers.
    apply Nat.ltb_lt in Hshort. now rewrite Hshort.
  - destruct Hsel as [keep ->].
    split; [ now apply filter_ascending | ].
    split; [ now apply filter_all_finite | ].
    intros v Hv. apply filter_In in Hv as [Hv _].
    now apply sorted_numbers_In.
Qed.

(** The fences [q1 - 1.5 * iqr] and [q3 + 1.5 * iqr] lie on the outer side
    of the quartiles, also when they overflow. *)
Lemma beyond_fences (a b c : Q) :
  (b <= c)%Q ->
  (Qabs b < JS.overflow_threshold)%Q ->
  (Qabs c < JS.overflow_threshold)%Q ->
  let iqr := JS.sub (JS.Fin c) (JS.Fin b) in
  let lowerBound := JS.sub (JS.Fin b) (JS.mul (JS.Fin (3 # 2)) iqr) in
  let upperBound := JS.add (JS.Fin c) (JS.mul (JS.Fin (3 # 2)) iqr) in
  (JS.ltb (JS.Fin a) lowerBound || JS.gtb (JS.Fin a) upperBound)%bool = true ->
  (a < b)%Q \/ (c < a)%Q.
Proof.
  intros Hbc Hb Hc iqr lowerBound upperBound.
  apply Qabs_Qlt_condition in Hb. apply Qabs_Qlt_condition in Hc.
  assert (Ht : (0 < JS.overflow_threshold)%Q) by reflexivity.
  assert (Hm : JS.mul (JS.Fin (3 # 2)) iqr = JS.PInf
               \/ exists e, JS.mul (JS.Fin (3 # 2)) iqr = JS.Fin e
                            /\ (0 <= e)%Q).
  { unfold iqr. cbn [JS.sub JS.neg JS.add].
    destruct (of_exact_cases (c + - b)) as [[-> _] | [[-> _] | [-> H]]].
    - cbn [JS.mul].
      destruct (of_exact_cases ((3 # 2) * (c + - b)))
        as [[-> _] | [[-> _] | [-> H]]].
      + right. eexists. split; [ reflexivity | ].
        apply Qmult_le_0_compat; lra.
      + now left.
      + exfalso.
        assert (0 <= (3 # 2) * (c + - b))%Q
          by (apply Qmult_le_0_compat; lra).
        lra.
    - left. reflexivity.
    - exfalso. lra. }
  unfold lowerBound, upperBound.
  destruct Hm as [-> | (e & -> & He)].
  - cbn. discriminate.
  - cbn [JS.sub JS.neg JS.add]. unfold JS.gtb.
    destruct (of_exact_cases (b + - e)) as [[-> _] | [[-> H1] | [-> _]]];
      destruct (of_exact_cases (c + e)) as [[-> _] | [[-> _] | [-> H2]]];
      try (exfalso; lra);
      rewrite ?ltb_Fin; intros H; apply orb_true_iff in H;
      destruct H as [H | H];
      rewrite ?ltb_Fin in H; try (cbn in H; discriminate);
      try (left; lra); try (right; lra).
Qed.

(** X5. For a column of well-formed cells, every number [detectOutliers]
    flags lies strictly below the first quartile or strictly above the third
    one: nothing from [q1] to [q3] is flagged, whatever the inter-quartile range
    is, and also when a fence overflows. *)
Theorem detectOutliers_outside_quartiles (values : list value) :
  Z.of_nat (List.length values) < 2 ^ 32 ->
  Forall well_formed values ->
  outliers_outside_quartiles values.
Proof.
  intros Hlen Hwf v Hv.
  pose proof (sorted_numbers_finite values) as Hfin.
  pose proof (sorted_numbers_ascending values) as Hasc.
  pose proof (sorted_numbers_representable values Hwf) as Hrep.
  pose proof (sorted_numbers_short values Hlen) as Hshort.
  unfold detectOutliers in Hv.
  set (sorted := sorted_numbers values) in *.
  set (count := List.length sorted) in *.
  destruct (Nat.ltb_spec count 4) as [Hfew | Hmany];
    [ contradiction | ].
  rewrite q1Index_div, q3Index_div in Hv by exact Hshort.
  quotient_facts count.
  assert (Hq1 : (count / 4 < count)%nat) by lia.
  assert (Hq3 : (count * 3 / 4 < count)%nat) by lia.
  assert (Hq13 : (count / 4 <= count * 3 / 4)%nat) by lia.
  pose proof (ascending_at sorted _ _ Hasc Hfin Hq13 Hq3) as Hle.
  assert (Hr1 : representable (Arr.at_num sorted (count / 4))).
  { unfold Arr.at_num. rewrite Forall_forall in Hrep.
    apply Hrep, nth_In, Hq1. }
  assert (Hr3 : representable (Arr.at_num sorted (count * 3 / 4))).
  { unfold Arr.at_num. rewrite Forall_forall in Hrep.
    apply Hrep, nth_In, Hq3. }
  destruct (at_num_finite sorted _ Hfin Hq1) as [b Eb].
  destruct (at_num_finite sorted _ Hfin Hq3) as [c Ec].
  rewrite Eb, Ec in *.
  apply filter_In in Hv as [Hin Hflag].
  assert (Hv : exists a, v = JS.Fin a).
  { unfold all_finite in Hfin. rewrite Forall_forall in Hfin.
    now apply Hfin. }
  destruct Hv as [a ->].
  unfold num_lt. rewrite !ltb_Fin.
  apply (beyond_fences a b c); assumption.
Qed.

Lemma detectOutliers_outside_quartiles_witness :
  outliers_outside_quartiles sample_with_outliers.
Proof.
  apply detectOutliers_outside_quartiles.
  - vm_compute. reflexivity.
  - repeat constructor.
Defined.

(* ================================================================== *)
(** * More on the numeric statistics *)
(* ================================================================== *)

Lemma filter_map_length {A B : Type} (f : A -> B) (p : B -> bool)
  (l : list A) :
  List.length (filter p (map f l))
  = List.length (filter (fun a => p (f a)) l).
Proof.
  induction l as [|a l IH]; cbn; [ reflexivity | ].
  destruct (p (f a)); cbn; now rewrite IH.
Qed.

Lemma filter_length_none {A : Type} (p : A -> bool) (l : list A) :
  List.length (filter p l) = 0%nat <-> forall a, In a l -> p a = false.
Proof.
  induction l as [|a l IH]; cbn; [ tauto | ].
  destruct (p a) eqn:E; cbn.
  - split; [ discriminate | ]. intros H. specialize (H a (or_introl eq_refl)).
    congruence.
  - rewrite IH. split.
    + intros H b [<- | Hb]; auto.
    + intros H b Hb. apply H. now right.
Qed.

Lemma sorted_numbers_length (values : list value) :
  List.length (sorted_numbers values)
  = List.length (filter (fun v => finite_number (Val.ToNumber v)) values).
Proof.
  rewrite (Permutation_length (sorted_numbers_perm values)).
  apply filter_map_length.
Qed.

(** X6. [calculateNumericStats] counts the cells that convert to a finite
    number and drops the others without notice: [count] is their number, it
    is 0 exactly when no cell converts, which is exactly when every
    statistic is [null], and it is the number of cells exactly when all of
    them convert. *)
Theorem calculateNumericStats_counts_finite_numbers (values : list value) :
  counts_finite_numbers values.
Proof.
  unfold counts_finite_numbers.
  pose proof (sorted_numbers_length values) as Hlen.
  set (p := fun v => finite_number (Val.ToNumber v)) in *.
  assert (Hcount : NumericStats.count (calculateNumericStats values)
                   = List.length (filter p values)).
  { rewrite <- Hlen. unfold calculateNumericStats.
    destruct (Nat.eqb_spec (List.length (sorted_numbers values)) 0)
      as [E | E]; cbn; congruence. }
  assert (Hp : forall v, p v = true <-> converts_to_finite v).
  { intros v. unfold p. apply finite_number_spec. }
  split; [ exact Hcount | ].
  split; [ rewrite Hcount; apply filter_length_le | ].
  split; [ | split ].
  - rewrite Hcount, filter_length_none. split; intros H v Hv.
    + rewrite <- Hp, (H v Hv). discriminate.
    + specialize (H v Hv). rewrite <- Hp in H. now destruct (p v).
  - split; [ | intros ->; reflexivity ].
    rewrite Hcount, <- Hlen. intros H0. unfold calculateNumericStats.
    now rewrite H0.
  - rewrite Hcount, <- Nat.eqb_eq, filter_length_all, forallb_forall.
    split; intros H v Hv; apply Hp; now apply H.
Qed.

(** ** Where NaN cannot arise *)

Lemma nonneg_number (x : JS.num) : nonneg x -> x <> JS.NaN.
Proof. destruct x; cbn; congruence || tauto. Qed.

Lemma add_number (x : JS.num) (b : Q) :
  x <> JS.NaN -> JS.add x (JS.Fin b) <> JS.NaN.
Proof.
  destruct x as [| | |a]; cbn [JS.add]; try congruence.
  intros _.
  destruct (of_exact_cases (a + b)) as [[-> _] | [[-> _] | [-> _]]];
    discriminate.
Qed.

Lemma fold_left_add_number (l : list JS.num) (x : JS.num) :
  all_finite l -> x <> JS.NaN -> fold_left JS.add l x <> JS.NaN.
Proof.
  intros Hfin. revert x.
  induction Hfin as [|y l [b ->] _ IH]; intros x Hx; cbn [fold_left];
    [ exact Hx | ].
  apply IH. now apply add_number.
Qed.

Lemma sum_number (l : list JS.num) :
  all_finite l -> Lodash.sum l <> JS.NaN.
Proof.
  intros Hfin. destruct Hfin as [|x l [a ->] Hl]; cbn [Lodash.sum];
    [ discriminate | ].
  apply fold_left_add_number; [ exact Hl | discriminate ].
Qed.

Lemma div_number (x : JS.num) (d : Q) :
  x <> JS.NaN -> (0 < d)%Q -> JS.div x (JS.Fin d) <> JS.NaN.
Proof.
  intros Hx Hd.
  assert (Hz : ~ (d == 0)%Q) by lra.
  destruct x as [| | |a]; try congruence.
  - cbn [JS.div]. destruct (JS.Qsgn d <? 0); discriminate.
  - cbn [JS.div]. destruct (JS.Qsgn d <? 0); discriminate.
  - rewrite div_Fin by exact Hz.
    destruct (of_exact_cases (a / d)) as [[-> _] | [[-> _] | [-> _]]];
      discriminate.
Qed.

Lemma length_pos (n : nat) : (1 <= n)%nat -> (0 < inject_Z (Z.of_nat n))%Q.
Proof. intros H. rewrite <- (Zlt_Qlt 0). lia. Qed.

Lemma mean_number (l : list JS.num) :
  all_finite l -> l <> [] -> Lodash.mean l <> JS.NaN.
Proof.
  intros Hfin Hne. destruct l as [|x r]; [ congruence | ].
  unfold Lodash.mean, JS.of_nat, JS.of_Z.
  apply div_number; [ now apply sum_number | ].
  apply length_pos. cbn. lia.
Qed.

Lemma toFixedNumber_number (d : nat) (x : JS.num) :
  x <> JS.NaN -> JS.toFixedNumber d x <> JS.NaN.
Proof.
  destruct x as [| | |q]; cbn [JS.toFixedNumber]; try congruence.
  intros _. destruct (JS.Qsgn (Qabs q - inject_Z (10 ^ 21)) <? 0);
    discriminate.
Qed.

Lemma rounded_if_truthy_number (x : nullable JS.num) :
  rounded_if_truthy x <> Some JS.NaN.
Proof.
  destruct x as [s|]; cbn [rounded_if_truthy]; [ | discriminate ].
  destruct (JS.truthy s) eqn:E; [ | discriminate ].
  intros H. injection H as H. revert H. apply toFixedNumber_number.
  intros ->. discriminate.
Qed.

Lemma sub_number (a : Q) (m : JS.num) :
  m <> JS.NaN -> JS.sub (JS.Fin a) m <> JS.NaN.
Proof.
  destruct m as [| | |b]; cbn [JS.sub JS.neg JS.add]; try congruence.
  intros _.
  destruct (of_exact_cases (a + - b)) as [[-> _] | [[-> _] | [-> _]]];
    discriminate.
Qed.

Lemma square_nonneg_number (d : JS.num) :
  d <> JS.NaN -> nonneg (JS.pow d 2).
Proof.
  destruct d as [| | |q]; cbn [JS.pow JS.mul]; try congruence;
    try (intros _; exact I).
  intros _. pose proof (square_nonneg q) as Hq.
  assert (Ht : (0 < JS.overflow_threshold)%Q) by reflexivity.
  destruct (of_exact_cases (q * q)) as [[-> _] | [[-> _] | [-> H]]];
    cbn [nonneg]; auto. lra.
Qed.

Lemma add_nonneg (x y : JS.num) : nonneg x -> nonneg y -> nonneg (JS.add x y).
Proof.
  assert (Ht : (0 < JS.overflow_threshold)%Q) by reflexivity.
  destruct x as [| | |a], y as [| | |b]; cbn [nonneg JS.add]; try tauto.
  intros Ha Hb.
  destruct (of_exact_cases (a + b)) as [[-> _] | [[-> _] | [-> H]]];
    cbn [nonneg]; auto; lra.
Qed.

Lemma fold_left_add_nonneg (l : list JS.num) (x : JS.num) :
  Forall nonneg l -> nonneg x -> nonneg (fold_left JS.add l x).
Proof.
  intros Hl. revert x.
  induction Hl as [|y l Hy _ IH]; intros x Hx; cbn [fold_left];
    [ exact Hx | ].
  apply IH. now apply add_nonneg.
Qed.

Lemma sum_nonneg (l : list JS.num) :
  Forall nonneg l -> nonneg (Lodash.sum l).
Proof.
  intros Hl. destruct Hl as [|x l Hx Hl]; cbn [Lodash.sum].
  - cbn. lra.
  - now apply fold_left_add_nonneg.
Qed.

Lemma div_nonneg (x : JS.num) (d : Q) :
  nonneg x -> (0 < d)%Q -> nonneg (JS.div x (JS.Fin d)).
Proof.
  intros Hx Hd.
  assert (Ht : (0 < JS.overflow_threshold)%Q) by reflexivity.
  destruct x as [| | |a]; cbn [nonneg] in Hx; try tauto.
  - cbn [JS.div].
    assert (E : (JS.Qsgn d <? 0) = false) by (apply Qsgn_neg_false; lra).
    now rewrite E.
  - rewrite div_Fin by lra.
    assert (Hq : (0 <= a / d)%Q) by (apply Qle_shift_div_l; lra).
    destruct (of_exact_cases (a / d)) as [[-> _] | [[-> _] | [-> H]]];
      cbn [nonneg]; auto; lra.
Qed.

Lemma Qround_fixed_nonneg (d : nat) (q : Q) :
  (0 <= q)%Q -> (0 <= JS.Qround_fixed d q)%Q.
Proof.
  intros Hq. rewrite Qround_fixed_value.
  pose proof (pow10_pos d) as Hp.
  assert (Hs : 0 <= JS.Qsgn q).
  { unfold JS.Qsgn. destruct q as [[|n|n] dq]; cbn; try lia.
    unfold Qle in Hq. cbn in Hq. lia. }
  assert (Hf : 0 <= Qfloor (Qabs q * inject_Z (JS.pow10 d) + (1 # 2))).
  { apply (Qfloor_resp_le 0).
    assert (0 <= Qabs q * inject_Z (JS.pow10 d))%Q.
    { apply Qmult_le_0_compat; [ apply Qabs_nonneg | ].
      rewrite <- (Zle_Qle 0). lia. }
    lra. }
  apply Qle_shift_div_l.
  - rewrite <- (Zlt_Qlt 0). exact Hp.
  - rewrite Qmult_0_l, <- (Zle_Qle 0). nia.
Qed.

Lemma toFixedNumber_nonneg (d : nat) (x : JS.num) :
  nonneg x -> nonneg (JS.toFixedNumber d x).
Proof.
  destruct x as [| | |q]; cbn [JS.toFixedNumber nonneg]; auto.
  intros Hq. destruct (JS.Qsgn (Qabs q - inject_Z (10 ^ 21)) <? 0);
    cbn [nonneg]; [ now apply Qround_fixed_nonneg | exact Hq ].
Qed.

Lemma Qsqrt_nonneg (q : Q) : (0 <= JS.Qsqrt q)%Q.
Proof.
  rewrite Qsqrt_value. pose proof sqrt_scale_pos as Hs.
  apply Qle_shift_div_l.
  - rewrite <- (Zlt_Qlt 0). lia.
  - rewrite Qmult_0_l, <- (Zle_Qle 0). apply Z.sqrt_nonneg.
Qed.

Lemma sqrt_nonneg (x : JS.num) : nonneg x -> nonneg (JS.sqrt x).
Proof.
  destruct x as [| | |q]; cbn [nonneg]; try tauto.
  intros Hq. rewrite sqrt_Fin by exact Hq. apply Qsqrt_nonneg.
Qed.

(** The variance of two or more numbers, below 2^32 of them. *)
Lemma sample_variance_nonneg (l : list JS.num) :
  all_finite l -> (2 <= List.length l)%nat ->
  Z.of_nat (List.length l) < 2 ^ 32 ->
  nonneg (sample_variance l (Lodash.mean l)).
Proof.
  intros Hfin H2 Hshort. unfold sample_variance.
  assert (Hm : Lodash.mean l <> JS.NaN).
  { apply mean_number; [ exact Hfin | ]. destruct l; cbn in H2; [ lia | ].
    discriminate. }
  assert (Hd : JS.sub (JS.of_nat (List.length l)) (JS.Fin 1)
               = JS.Fin (inject_Z (Z.of_nat (List.length l)) + - 1)).
  { unfold JS.of_nat, JS.of_Z. cbn [JS.sub JS.neg JS.add].
    apply of_exact_in_range.
    assert (H0 : (inject_Z 2 <= inject_Z (Z.of_nat (List.length l)))%Q)
      by (rewrite <- Zle_Qle; lia).
    assert (H1 : (inject_Z (Z.of_nat (List.length l)) < inject_Z (2 ^ 32))%Q)
      by (rewrite <- Zlt_Qlt; exact Hshort).
    assert (H3 : (inject_Z (2 ^ 32) < JS.overflow_threshold)%Q)
      by (vm_compute; reflexivity).
    assert (H4 : (inject_Z 2 == 2)%Q) by reflexivity.
    rewrite Qabs_pos by lra. lra. }
  rewrite Hd. apply div_nonneg.
  - apply sum_nonneg. apply Forall_forall. intros y Hy.
    apply in_map_iff in Hy as (v & <- & Hv).
    apply square_nonneg_number.
    unfold all_finite in Hfin. rewrite Forall_forall in Hfin.
    destruct (Hfin v Hv) as [a ->]. now apply sub_number.
  - assert (H0 : (inject_Z 2 <= inject_Z (Z.of_nat (List.length l)))%Q)
      by (rewrite <- Zle_Qle; lia).
    assert (H4 : (inject_Z 2 == 2)%Q) by reflexivity.
    lra.
Qed.

(** The variance of one number of the binary64 range is 0/0. *)
Lemma sample_variance_single (a : Q) :
  (Qabs a < JS.overflow_threshold)%Q ->
  sample_variance [JS.Fin a] (Lodash.mean [JS.Fin a]) = JS.NaN.
Proof.
  intros Ha. unfold sample_variance, Lodash.mean.
  cbn [Lodash.sum fold_left map List.length].
  assert (Hone : JS.of_nat 1 = JS.Fin 1) by reflexivity.
  rewrite Hone.
  assert (Hzero : JS.sub (JS.Fin 1) (JS.Fin 1) = JS.Fin (1 + - 1))
    by (vm_compute; reflexivity).
  rewrite Hzero.
  rewrite div_Fin by lra.
  assert (Hq : (a / 1 == a)%Q) by (field).
  rewrite of_exact_in_range by (rewrite Hq; exact Ha).
  cbn [JS.sub JS.neg JS.add].
  assert (Hd : (a + - (a / 1) == 0)%Q) by (rewrite Hq; ring).
  assert (Ht : (0 < JS.overflow_threshold)%Q) by reflexivity.
  rewrite of_exact_in_range by (rewrite Hd; exact Ht).
  cbn [JS.pow JS.mul].
  assert (Hs : ((a + - (a / 1)) * (a + - (a / 1)) == 0)%Q)
    by (rewrite Hd; ring).
  rewrite of_exact_in_range by (rewrite Hs; exact Ht).
  cbn [JS.div].
  assert (E0 : (JS.Qsgn (1 + - 1) =? 0) = true) by reflexivity.
  rewrite E0.
  assert (E1 : JS.Qsgn ((a + - (a / 1)) * (a + - (a / 1))) = 0)
    by (apply Z.eqb_eq, Qsgn_zero, Hs).
  rewrite E1. reflexivity.
Qed.

Lemma median_number (l : list JS.num) :
  all_finite l -> ascending l -> (1 <= List.length l)%nat ->
  median_of l <> JS.NaN.
Proof.
  intros Hfin Hasc Hcount. unfold median_of.
  set (n := List.length l) in *.
  destruct (Nat.eqb_spec (n mod 2) 0) as [Heven | Hodd].
  - destruct (index_bounds_even n Hcount Heven) as (_ & Hlo & _ & _ & Hhi).
    assert (Hlo' : (n / 2 - 1 < n)%nat) by lia.
    pose proof (ascending_at l _ _ Hasc Hfin Hlo Hhi) as Hle.
    destruct (at_num_finite l _ Hfin Hlo') as [a Ea].
    destruct (at_num_finite l _ Hfin Hhi) as [b Eb].
    rewrite Ea, Eb in *. cbn in Hle.
    destruct (midpoint_between a b Hle) as [-> | [-> | (q & -> & _)]];
      discriminate.
  - assert (Hmid : (n / 2 < n)%nat) by (quotient_facts n; lia).
    destruct (at_num_finite l _ Hfin Hmid) as [a ->]. discriminate.
Qed.

(** X7. For a column with at least one finite number, [mean], [median],
    [min], [max], [q1] and [q3] are numbers and never NaN (they may be an
    infinity after an overflow), and so are [skewness] and [kurtosis] when
    they are not [null]; [variance] and [std] are NaN when there is exactly
    one number, and not negative and not NaN when there are two or more. *)
Theorem calculateNumericStats_defined (values : list value) :
  sorted_numbers values <> [] ->
  Z.of_nat (List.length values) < 2 ^ 32 ->
  Forall well_formed values ->
  statistics_defined values.
Proof.
  intros Hne Hlen Hwf. unfold statistics_defined.
  pose proof (sorted_numbers_finite values) as Hfin.
  pose proof (sorted_numbers_ascending values) as Hasc.
  pose proof (sorted_numbers_representable values Hwf) as Hrep.
  pose proof (sorted_numbers_short values Hlen) as Hshort.
  set (sorted := sorted_numbers values) in *.
  set (count := List.length sorted) in *.
  assert (Hcount : (1 <= count)%nat).
  { unfold count. destruct sorted; [ congruence | cbn; lia ]. }
  pose proof (calculateNumericStats_record values Hcount) as Hrec.
  fold sorted in Hrec. fold count in Hrec.
  rewrite Hrec. cbn [NumericStats.count NumericStats.mean NumericStats.median
    NumericStats.min NumericStats.max NumericStats.q1 NumericStats.q3
    NumericStats.skewness NumericStats.kurtosis NumericStats.variance
    NumericStats.std].
  rewrite q1Index_div, q3Index_div by exact Hshort.
  quotient_facts count.
  assert (Hat : forall i, (i < count)%nat ->
                          a_number (Some (Arr.at_num sorted i))).
  { intros i Hi. destruct (at_num_finite sorted i Hfin Hi) as [q ->].
    eexists. split; [ reflexivity | discriminate ]. }
  assert (Hmean : Lodash.mean sorted <> JS.NaN)
    by (apply mean_number; assumption).
  split; [ eexists; split;
           [ reflexivity | now apply toFixedNumber_number ] | ].
  split; [ eexists; split;
           [ reflexivity | now apply median_number ] | ].
  split; [ apply Hat; lia | ].
  split; [ apply Hat; lia | ].
  split; [ apply Hat; lia | ].
  split; [ apply Hat; lia | ].
  split; [ apply rounded_if_truthy_number | ].
  split; [ apply rounded_if_truthy_number | ].
  split.
  - intros Hone.
    assert (Hs : exists a, sorted = [JS.Fin a]
                           /\ (Qabs a < JS.overflow_threshold)%Q).
    { unfold count in Hone. destruct sorted as [|x [|y r]]; try discriminate.
      inversion Hfin as [|x' r' [a ->] _]; subst.
      inversion Hrep as [|x' r' Ha _]; subst.
      exists a. split; [ reflexivity | exact Ha ]. }
    destruct Hs as (a & -> & Ha).
    rewrite (sample_variance_single a Ha). split; reflexivity.
  - intros Htwo.
    pose proof (sample_variance_nonneg sorted Hfin Htwo Hshort) as Hvar.
    split; eexists; (split; [ reflexivity | ]).
    + now apply toFixedNumber_nonneg.
    + now apply toFixedNumber_nonneg, sqrt_nonneg.
Qed.

Lemma calculateNumericStats_defined_witness :
  statistics_defined sample_five.
Proof.
  apply calculateNumericStats_defined.
  - vm_compute. discriminate.
  - vm_compute. reflexivity.
  - repeat constructor.
Defined.

(* ================================================================== *)
(** * Blank cells *)
(* ================================================================== *)

Lemma blank_ToNumber (s : string) :
  all_whitespace s -> Val.ToNumber (VStr s) = JS.zero.
Proof.
  intros [_ Hws]. cbn [Val.ToNumber]. unfold Str.StringToNumber.
  apply trim_empty in Hws. now rewrite Hws.
Qed.

Lemma forallb_map_VStr (p : value -> bool) (cells : list string) :
  Forall (fun s => p (VStr s) = true) cells ->
  forallb p (map VStr cells) = true.
Proof.
  induction 1 as [|s cells Hs _ IH]; cbn; [ reflexivity | ].
  now rewrite Hs, IH.
Qed.

(** X8. A column in which every cell is a blank string (white space only)
    is typed integer, and its numeric statistics take every cell as the
    number 0 ([count] is the number of cells, [min] and [max] are 0), while
    [calculateMissingData] counts every cell as missing. *)
Theorem blank_column_reads_as_zeros (Date_parse : string -> JS.num)
  (cells : list string) :
  cells <> [] -> Forall all_whitespace cells ->
  blank_cells_read_as_zero Date_parse cells.
Proof.
  intros Hne Hblank. unfold blank_cells_read_as_zero.
  set (values := map VStr cells).
  assert (Hlen : List.length values = List.length cells)
    by (unfold values; apply length_map).
  assert (Hpos : (1 <= List.length cells)%nat)
    by (destruct cells; [ congruence | cbn; lia ]).
  assert (Hzero : forall v, In v values -> Val.ToNumber v = JS.zero).
  { intros v Hv. apply in_map_iff in Hv as (s & <- & Hs).
    rewrite Forall_forall in Hblank. now apply blank_ToNumber, Hblank. }
  assert (Hnn : forallb nonNull values = true).
  { apply forallb_map_VStr. eapply Forall_impl; [ | exact Hblank ].
    intros s [Hs _]. destruct s; [ congruence | reflexivity ]. }
  assert (Hnum : forallb numeric_like values = true).
  { apply forallb_forall. intros v Hv. unfold numeric_like.
    now rewrite (Hzero v Hv). }
  assert (Hint : forallb (fun v => JS.isInteger (Val.ToNumber v)) values
                 = true).
  { apply forallb_forall. intros v Hv. now rewrite (Hzero v Hv). }
  assert (Hmiss : forallb is_missing values = true).
  { apply forallb_forall. intros v Hv. apply is_missing_spec.
    apply in_map_iff in Hv as (s & <- & Hs).
    right; right; right; left. exists s. split; [ reflexivity | ].
    rewrite Forall_forall in Hblank. now apply Hblank. }
  assert (Hcount : List.length (sorted_numbers values) = List.length cells).
  { rewrite sorted_numbers_length, <- Hlen. f_equal. apply filter_all.
    exact Hnum. }
  assert (Hall : Forall (fun x => x = JS.zero) (sorted_numbers values)).
  { eapply Permutation_Forall; [ symmetry; apply sorted_numbers_perm | ].
    apply Forall_forall. intros x Hx. apply filter_In in Hx as [Hx _].
    apply in_map_iff in Hx as (v & <- & Hv). now apply Hzero. }
  split; [ | split ].
  - unfold detectColumnType.
    rewrite (filter_all nonNull values Hnn).
    rewrite (filter_all numeric_like values Hnum).
    rewrite Nat.eqb_refl, Hint, Hlen.
    destruct (Nat.eqb_spec (List.length cells) 0); [ lia | reflexivity ].
  - cbn [calculateMissingData MissingData.missing MissingData.total].
    now rewrite (filter_all is_missing values Hmiss).
  - assert (H1 : (1 <= List.length (sorted_numbers values))%nat) by lia.
    rewrite (calculateNumericStats_record values H1).
    cbn [NumericStats.count NumericStats.min NumericStats.max].
    rewrite Forall_forall in Hall.
    repeat split; [ exact Hcount | | ]; f_equal; apply Hall, nth_In; lia.
Qed.

Lemma blank_column_reads_as_zeros_witness :
  blank_cells_read_as_zero Host.Date_parse [" "; "  "]%string.
Proof.
  apply blank_column_reads_as_zeros.
  - discriminate.
  - repeat constructor; discriminate.
Defined.

(* ================================================================== *)
(** * Categorical statistics *)
(* ================================================================== *)

(** ** Objects as tallies *)

Lemma keys_set_In {A : Type} (o : list (string * A)) (k k' : string)
  (v : A) :
  In k' (Obj.keys (Obj.set o k v)) -> k' = k \/ In k' (Obj.keys o).
Proof.
  unfold Obj.keys. induction o as [|[k0 v0] o IH]; cbn [Obj.set].
  - cbn. intros [<- | []]. now left.
  - destruct (String.eqb k0 k); cbn [map fst In]; [ tauto | ].
    intros [<- | H]; [ right; now left | ].
    destruct (IH H); [ now left | right; now right ].
Qed.

Lemma set_NoDup {A : Type} (o : list (string * A)) (k : string) (v : A) :
  NoDup (Obj.keys o) -> NoDup (Obj.keys (Obj.set o k v)).
Proof.
  unfold Obj.keys. induction o as [|[k0 v0] o IH]; cbn [Obj.set]; intros Hnd.
  - cbn. repeat constructor. intros [].
  - inversion Hnd as [|x l Hnin Hnd']; subst.
    destruct (String.eqb_spec k0 k) as [-> | Hne]; cbn [map fst].
    + now constructor.
    + constructor; [ | now apply IH ].
      intros H. apply keys_set_In in H as [H | H]; [ congruence | ].
      now apply Hnin.
Qed.

Lemma In_get {A : Type} (o : list (string * A)) (k : string) (v : A) :
  NoDup (Obj.keys o) -> (In (k, v) o <-> Obj.get o k = Some v).
Proof.
  unfold Obj.keys. induction o as [|[k' v'] o IH]; cbn; intros Hnd.
  - split; [ tauto | discriminate ].
  - inversion Hnd as [|x l Hnin Hnd']; subst.
    destruct (String.eqb_spec k' k) as [-> | Hne].
    + split.
      * intros [E | Hin]; [ congruence | ].
        exfalso. apply Hnin. apply in_map_iff. now exists (k, v).
      * intros E. left. congruence.
    + rewrite <- (IH Hnd'). split; [ | tauto ].
      intros [E | Hin]; [ congruence | exact Hin ].
Qed.

Lemma set_Forall {A : Type} (P : A -> Prop) (o : list (string * A))
  (k : string) (v : A) :
  Forall (fun e => P (snd e)) o -> P v ->
  Forall (fun e => P (snd e)) (Obj.set o k v).
Proof.
  intros Ho Hv. induction Ho as [|[k' v'] o He Ho IH]; cbn.
  - now repeat constructor.
  - destruct (String.eqb k' k); constructor; auto.
Qed.

Lemma set_sum (o : list (string * nat)) (k : string) (v : nat) :
  (list_sum (map snd (Obj.set o k v))
   + match Obj.get o k with Some c => c | None => 0 end
   = list_sum (map snd o) + v)%nat.
Proof.
  induction o as [|[k' v'] o IH]; cbn; [ lia | ].
  destruct (String.eqb k' k); cbn; [ lia | ].
  unfold list_sum in IH. destruct (Obj.get o k); lia.
Qed.

Section Tally.

Variable Number_toString : JS.num -> string.

Lemma step_count_of (counts : list (string * nat)) (v : value) (k : string) :
  tally_at (countBy_step Number_toString counts v) k
  = (tally_at counts k
     + if String.eqb (ToString Number_toString v) k then 1 else 0)%nat.
Proof.
  unfold tally_at, countBy_step.
  destruct (String.eqb_spec (ToString Number_toString v) k) as [<- | Hne].
  - destruct (Obj.get counts (ToString Number_toString v)) as [c|];
      rewrite get_set_same; lia.
  - destruct (Obj.get counts (ToString Number_toString v)) as [c|];
      rewrite get_set_other by exact Hne; lia.
Qed.

Lemma tally_count_of (vs : list value) (counts : list (string * nat))
  (k : string) :
  tally_at (fold_left (countBy_step Number_toString) vs counts) k
  = (tally_at counts k + occurrences Number_toString k vs)%nat.
Proof.
  revert counts. unfold occurrences.
  induction vs as [|v vs IH]; intros counts; cbn [fold_left filter];
    [ cbn; lia | ].
  rewrite IH, step_count_of.
  destruct (String.eqb (ToString Number_toString v) k); cbn [List.length];
    lia.
Qed.

Lemma tally_NoDup (vs : list value) (counts : list (string * nat)) :
  NoDup (Obj.keys counts) -> NoDup (Obj.keys (fold_left (countBy_step Number_toString) vs counts)).
Proof.
  revert counts. induction vs as [|v vs IH]; intros counts Hnd;
    cbn [fold_left]; [ exact Hnd | ].
  apply IH. unfold countBy_step.
  destruct (Obj.get counts (ToString Number_toString v));
    now apply set_NoDup.
Qed.

Lemma tally_positive (vs : list value) (counts : list (string * nat)) :
  Forall (fun e => (1 <= snd e)%nat) counts ->
  Forall (fun e => (1 <= snd e)%nat) (fold_left (countBy_step Number_toString) vs counts).
Proof.
  revert counts. induction vs as [|v vs IH]; intros counts Hp;
    cbn [fold_left]; [ exact Hp | ].
  apply IH. unfold countBy_step.
  destruct (Obj.get counts (ToString Number_toString v));
    apply (set_Forall (fun n => (1 <= n)%nat)); auto; lia.
Qed.

Lemma tally_sum (vs : list value) (counts : list (string * nat)) :
  list_sum (map snd (fold_left (countBy_step Number_toString) vs counts))
  = (list_sum (map snd counts) + List.length vs)%nat.
Proof.
  revert counts. induction vs as [|v vs IH]; intros counts;
    cbn [fold_left List.length]; [ lia | ].
  rewrite IH. unfold countBy_step.
  destruct (Obj.get counts (ToString Number_toString v)) as [c|] eqn:E.
  - pose proof (set_sum counts (ToString Number_toString v) (S c)) as H.
    rewrite E in H. lia.
  - pose proof (set_sum counts (ToString Number_toString v) 1) as H.
    rewrite E in H. lia.
Qed.

(** What [_.countBy] holds. *)
Lemma countBy_spec (vs : list value) :
  NoDup (Obj.keys (countBy Number_toString vs))
  /\ (forall k n,
        In (k, n) (countBy Number_toString vs)
        <-> n = occurrences Number_toString k vs /\ (1 <= n)%nat)
  /\ list_sum (map snd (countBy Number_toString vs)) = List.length vs.
Proof.
  assert (Hfold : countBy Number_toString vs = fold_left (countBy_step Number_toString) vs [])
    by reflexivity.
  rewrite Hfold.
  assert (Hnd : NoDup (Obj.keys (fold_left (countBy_step Number_toString) vs [])))
    by (apply tally_NoDup; constructor).
  pose proof (tally_positive vs [] (Forall_nil _)) as Hpos.
  split; [ exact Hnd | split ].
  - intros k n. rewrite (In_get _ k n Hnd).
    pose proof (tally_count_of vs [] k) as Hc.
    unfold tally_at in Hc. cbn [Obj.get] in Hc. split.
    + intros E. rewrite E in Hc. split; [ lia | ].
      apply (In_get _ k n Hnd) in E. rewrite Forall_forall in Hpos.
      apply (Hpos (k, n) E).
    + intros [-> H1].
      destruct (Obj.get (fold_left (countBy_step Number_toString) vs []) k) as [c|];
        [ f_equal; lia | lia ].
  - apply (tally_sum vs []).
Qed.

End Tally.

(** ** The order of [sortedCounts] *)

Lemma partition_perm {A : Type} (p : A -> bool) (l : list A) :
  Permutation (filter p l ++ filter (fun x => negb (p x)) l) l.
Proof.
  induction l as [|x l IH]; cbn; [ constructor | ].
  destruct (p x); cbn.
  - now constructor.
  - rewrite <- Permutation_middle. now constructor.
Qed.

Lemma entries_perm {A : Type} (o : list (string * A)) :
  Permutation (entries o) o.
Proof.
  unfold entries. rewrite stable_sort_perm. apply partition_perm.
Qed.

Lemma insert_descending {A : Type} (key : A -> nat) (x : A) (l : list A) :
  StronglySorted (fun a b => (key b <= key a)%nat) l ->
  StronglySorted (fun a b => (key b <= key a)%nat)
    (Arr.insert (fun a b => Nat.ltb (key a) (key b)) x l).
Proof.
  induction 1 as [|y r Hr IH Hy]; cbn [Arr.insert].
  - repeat constructor.
  - destruct (Nat.ltb_spec (key x) (key y)) as [Hlt | Hge].
    + constructor; [ exact IH | ].
      eapply Permutation_Forall; [ symmetry; apply insert_perm | ].
      constructor; [ lia | exact Hy ].
    + constructor; [ now constructor | ].
      constructor; [ exact Hge | ].
      eapply Forall_impl; [ | exact Hy ]. cbn. intros; lia.
Qed.

Lemma orderBy_desc_nat_sorted {A : Type} (key : A -> nat) (l : list A) :
  StronglySorted (fun a b => (key b <= key a)%nat)
    (Lodash.orderBy_desc_nat key l).
Proof.
  unfold Lodash.orderBy_desc_nat.
  induction l as [|x l IH]; cbn; [ constructor | ].
  now apply insert_descending.
Qed.

Lemma orderBy_desc_nat_perm {A : Type} (key : A -> nat) (l : list A) :
  Permutation (Lodash.orderBy_desc_nat key l) l.
Proof. apply stable_sort_perm. Qed.

Lemma StronglySorted_app_inv {A : Type} (R : A -> A -> Prop)
  (l1 l2 : list A) :
  StronglySorted R (l1 ++ l2) ->
  StronglySorted R l1
  /\ forall x y, In x l1 -> In y l2 -> R x y.
Proof.
  induction l1 as [|a l1 IH]; cbn; intros Hs.
  - split; [ constructor | intros x y [] ].
  - inversion Hs as [|a' l' Hs' Ha]; subst.
    destruct (IH Hs') as [H1 H2]. split.
    + constructor; [ exact H1 | ].
      apply Forall_forall. intros z Hz. rewrite Forall_forall in Ha.
      apply Ha, in_or_app. now left.
    + intros x y [<- | Hx] Hy; [ | now apply H2 ].
      rewrite Forall_forall in Ha. apply Ha, in_or_app. now right.
Qed.

Lemma StronglySorted_map {A B : Type} (R : B -> B -> Prop) (f : A -> B)
  (l : list A) :
  StronglySorted (fun a b => R (f a) (f b)) l -> StronglySorted R (map f l).
Proof.
  induction 1 as [|a l Hl IH Ha]; cbn; constructor; [ exact IH | ].
  apply Forall_forall. intros y Hy. apply in_map_iff in Hy as (b & <- & Hb).
  rewrite Forall_forall in Ha. now apply Ha.
Qed.

Lemma NoDup_firstn {A : Type} (n : nat) (l : list A) :
  NoDup l -> NoDup (firstn n l).
Proof.
  intros Hnd. rewrite <- (firstn_skipn n l) in Hnd.
  now apply NoDup_app_remove_r in Hnd.
Qed.

Section Categorical.

Variable Number_toString : JS.num -> string.
Variable values : list value.

Local Abbreviation kept := (filter nonNull values).
Local Abbreviation valueCounts := (countBy Number_toString kept).
Local Abbreviation sortedCounts := (sortedCounts Number_toString values).

Lemma sortedCounts_perm : Permutation sortedCounts valueCounts.
Proof.
  unfold sortedCounts. rewrite orderBy_desc_nat_perm. apply entries_perm.
Qed.

Lemma sortedCounts_sorted :
  StronglySorted (fun a b : string * nat => (snd b <= snd a)%nat)
    sortedCounts.
Proof. apply orderBy_desc_nat_sorted. Qed.

Lemma sortedCounts_In (k : string) (n : nat) :
  In (k, n) sortedCounts
  <-> n = occurrences Number_toString k kept /\ (1 <= n)%nat.
Proof.
  destruct (countBy_spec Number_toString kept) as (_ & Hin & _).
  rewrite <- Hin. split; apply Permutation_in;
    [ | symmetry ]; apply sortedCounts_perm.
Qed.

Lemma sortedCounts_nil : sortedCounts = [] <-> kept = [].
Proof.
  destruct (countBy_spec Number_toString kept) as (_ & _ & Hsum).
  fold valueCounts in Hsum. split.
  - intros E. pose proof sortedCounts_perm as Hp. rewrite E in Hp.
    apply Permutation_nil in Hp. rewrite Hp in Hsum. cbn in Hsum.
    destruct kept; [ reflexivity | discriminate ].
  - intros E. unfold sortedCounts, valueCounts. rewrite E. reflexivity.
Qed.

Lemma sortedCounts_NoDup : NoDup (map fst sortedCounts).
Proof.
  destruct (countBy_spec Number_toString kept) as (Hnd & _ & _).
  eapply Permutation_NoDup; [ | exact Hnd ].
  symmetry. apply Permutation_map, sortedCounts_perm.
Qed.

(** Every form that occurs is bounded by the head of [sortedCounts]. *)
Lemma sortedCounts_head (k : string) (n : nat) (r : list (string * nat)) :
  sortedCounts = (k, n) :: r ->
  forall k', (occurrences Number_toString k' kept <= n)%nat.
Proof.
  intros E k'. pose proof sortedCounts_sorted as Hs. rewrite E in Hs.
  inversion Hs as [|a l _ Hall]; subst.
  destruct (Nat.eq_dec (occurrences Number_toString k' kept) 0) as [H0 | H0];
    [ lia | ].
  assert (Hin : In (k', occurrences Number_toString k' kept) sortedCounts)
    by (apply sortedCounts_In; split; [ reflexivity | lia ]).
  rewrite E in Hin. destruct Hin as [Heq | Hin].
  - injection Heq as _ <-. lia.
  - rewrite Forall_forall in Hall. apply (Hall _ Hin).
Qed.

(** X9. [calculateCategoricalStats] tallies the non-null values under
    their printed form: [count] is the number of non-null values;
    [valueCounts] has one property for each printed form that occurs, no
    form twice, holding the number of its occurrences; [uniqueCount] is the
    number of these properties; and the tallies add up to [count]. *)
Theorem calculateCategoricalStats_tally :
  tally_of_non_null Number_toString values.
Proof.
  unfold tally_of_non_null.
  destruct (countBy_spec Number_toString (filter nonNull values))
    as (Hnd & Hin & Hsum).
  cbn [calculateCategoricalStats CategoricalStats.count
       CategoricalStats.valueCounts CategoricalStats.uniqueCount].
  split; [ reflexivity | ].
  split; [ exact Hnd | ].
  split; [ exact Hin | ].
  split; [ apply length_map | exact Hsum ].
Qed.

(** X10. [mode] and [modeFrequency] are [null] and 0 exactly when no value
    is non-null; otherwise [modeFrequency] is the number of occurrences of
    [mode] among the non-null values, it is at least 1, and no printed form
    occurs more often. *)
Theorem calculateCategoricalStats_mode_most_frequent :
  mode_is_most_frequent Number_toString values.
Proof.
  unfold mode_is_most_frequent.
  cbn [calculateCategoricalStats CategoricalStats.mode
       CategoricalStats.modeFrequency].
  fold kept. fold valueCounts. fold sortedCounts.
  pose proof sortedCounts_nil as Hnil.
  pose proof sortedCounts_In as Hin.
  pose proof sortedCounts_head as Hhead.
  destruct sortedCounts as [|[k n] r].
  - split; [ split; [ intros _; now apply Hnil | reflexivity ] | ].
    split; [ reflexivity | discriminate ].
  - split; [ split; [ discriminate | ] | ].
    { intros E. apply Hnil in E. discriminate. }
    split.
    { intros E. apply Hnil in E. discriminate. }
    intros k0 E. injection E as <-. cbn [fst snd].
    destruct (Hin k n) as [[Hn H1] _]; [ now left | ].
    split; [ exact Hn | ]. split; [ exact H1 | ].
    exact (Hhead k n r eq_refl).
Qed.

(** X11. [topValues] lists min(10, uniqueCount) distinct printed forms by
    descending number of occurrences, the mode first; each entry holds the
    number of occurrences of its form and its share of the non-null values
    as a percentage within 0.005; and no form that is left out occurs more
    often than a listed one. *)
Theorem calculateCategoricalStats_topValues :
  top_values_are_most_frequent Number_toString values.
Proof.
  unfold top_values_are_most_frequent.
  cbn [calculateCategoricalStats CategoricalStats.mode
       CategoricalStats.topValues CategoricalStats.uniqueCount].
  fold kept. fold valueCounts. fold sortedCounts.
  pose proof sortedCounts_perm as Hperm.
  pose proof sortedCounts_sorted as Hsorted.
  pose proof sortedCounts_In as Hin.
  pose proof sortedCounts_NoDup as Hnd.
  set (mk := fun e : string * nat =>
               TopValue.mk (fst e) (snd e)
                 (JS.toFixedNumber 2
                    (JS.mul (JS.div (JS.of_nat (snd e))
                                    (JS.of_nat (List.length kept)))
                            (JS.Fin 100)))).
  assert (Hvalue : forall l, map TopValue.value (map mk l) = map fst l).
  { intros l. rewrite map_map. apply map_ext. reflexivity. }
  assert (Hmember : forall t, In t (map mk (firstn 10 sortedCounts)) ->
            exists k n, t = mk (k, n) /\ In (k, n) (firstn 10 sortedCounts)
                        /\ In (k, n) sortedCounts).
  { intros t Ht. apply in_map_iff in Ht as ([k n] & <- & He).
    exists k, n. split; [ reflexivity | split; [ exact He | ] ].
    now apply In_firstn in He. }
  rewrite <- (firstn_skipn 10 sortedCounts) in Hsorted.
  apply StronglySorted_app_inv in Hsorted as [Hfirst Hrest].
  split; [ | split; [ | split; [ | split; [ | split ] ] ] ].
  - rewrite length_map, length_firstn, (Permutation_length Hperm).
    unfold Obj.keys. now rewrite length_map.
  - rewrite Hvalue, <- firstn_map. now apply NoDup_firstn.
  - apply StronglySorted_map. cbn [mk TopValue.count]. exact Hfirst.
  - destruct sortedCounts as [|[k n] r]; reflexivity.
  - intros t Ht. destruct (Hmember t Ht) as (k & n & -> & _ & Hkn).
    cbn [mk TopValue.count TopValue.value TopValue.percentage fst snd].
    apply Hin in Hkn as [Hn H1].
    split; [ exact Hn | ]. split; [ exact H1 | ].
    apply (percentage_rounded (Z.of_nat n) (Z.of_nat (List.length kept))).
    + rewrite Hn. unfold occurrences.
      pose proof (filter_length_le
                    (fun v => String.eqb (ToString Number_toString v) k)
                    kept).
      lia.
    + rewrite Hn in H1. unfold occurrences in H1.
      pose proof (filter_length_le
                    (fun v => String.eqb (ToString Number_toString v) k)
                    kept).
      lia.
  - intros k t Ht Hout. destruct (Hmember t Ht) as (k0 & n0 & -> & He & _).
    cbn [mk TopValue.count snd].
    destruct (Nat.eq_dec (occurrences Number_toString k kept) 0)
      as [H0 | H0]; [ lia | ].
    assert (Hk : In (k, occurrences Number_toString k kept) sortedCounts)
      by (apply Hin; split; [ reflexivity | lia ]).
    rewrite <- (firstn_skipn 10 sortedCounts) in Hk.
    apply in_app_or in Hk as [Hk | Hk].
    + exfalso. apply Hout. rewrite Hvalue. apply in_map_iff.
      now exists (k, occurrences Number_toString k kept).
    + apply (Hrest _ _ He Hk).
Qed.

End Categorical.

(* ================================================================== *)
(** * Column names and renamed rows *)
(* ================================================================== *)

(** ** Cleaned names *)

Lemma lower_char_ws (c : ascii) : Str.is_ws (Str.lower_char c) = Str.is_ws c.
Proof. destruct c as [[] [] [] [] [] [] [] []]; vm_compute; reflexivity. Qed.

Lemma lower_char_idem (c : ascii) :
  Str.lower_char (Str.lower_char c) = Str.lower_char c.
Proof. destruct c as [[] [] [] [] [] [] [] []]; vm_compute; reflexivity. Qed.

Lemma replace_ws_runs_no_ws (in_run : bool) (s : string) :
  Forall (fun c => Str.is_ws c = false)
         (list_ascii_of_string (Str.replace_ws_runs in_run s)).
Proof.
  revert in_run. induction s as [|c s IH]; intros in_run; cbn; [ constructor | ].
  destruct (Str.is_ws c) eqn:E.
  - destruct in_run; cbn; [ apply IH | ].
    constructor; [ reflexivity | apply IH ].
  - cbn. constructor; [ exact E | apply IH ].
Qed.

Lemma toLowerCase_cleaned (s : string) :
  Forall (fun c => Str.is_ws c = false) (list_ascii_of_string s) ->
  cleaned (Str.toLowerCase s).
Proof.
  unfold cleaned. induction s as [|c s IH]; cbn; intros H; [ constructor | ].
  inversion H as [|c' l Hc Hl]; subst.
  constructor; [ | now apply IH ].
  split; [ now rewrite lower_char_ws | apply lower_char_idem ].
Qed.

Lemma trimStart_cleaned (s : string) : cleaned s -> Str.trimStart s = s.
Proof.
  destruct s as [|c s]; [ reflexivity | ].
  intros H. inversion H as [|c' l [Hc _] _]; subst. cbn. now rewrite Hc.
Qed.

Lemma trimEnd_cleaned (s : string) : cleaned s -> Str.trimEnd s = s.
Proof.
  unfold cleaned. induction s as [|c s IH]; cbn; intros H; [ reflexivity | ].
  inversion H as [|c' l [Hc _] Hl]; subst.
  rewrite (IH Hl), Hc. now destruct s.
Qed.

Lemma replace_ws_runs_cleaned (s : string) :
  cleaned s -> Str.replace_ws_runs false s = s.
Proof.
  unfold cleaned. induction s as [|c s IH]; cbn; intros H; [ reflexivity | ].
  inversion H as [|c' l [Hc _] Hl]; subst.
  now rewrite Hc, (IH Hl).
Qed.

Lemma toLowerCase_of_cleaned (s : string) :
  cleaned s -> Str.toLowerCase s = s.
Proof.
  unfold cleaned. induction s as [|c s IH]; cbn; intros H; [ reflexivity | ].
  inversion H as [|c' l [_ Hc] Hl]; subst.
  now rewrite Hc, (IH Hl).
Qed.

Lemma clean_name_is_cleaned (name : string) : cleaned (clean_name name).
Proof. apply toLowerCase_cleaned, replace_ws_runs_no_ws. Qed.

Lemma clean_name_of_cleaned (name : string) :
  cleaned name -> clean_name name = name.
Proof.
  intros H. unfold clean_name, Str.trim.
  now rewrite (trimStart_cleaned name H), (trimEnd_cleaned name H),
    (replace_ws_runs_cleaned name H), (toLowerCase_of_cleaned name H).
Qed.

(** X12. The cleaned form of a column name has no white space and no
    upper-case letter; a name already in that form is left as it is; so
    cleaning a cleaned name changes nothing. *)
Theorem clean_name_idempotent (name : string) :
  cleaned (clean_name name)
  /\ (cleaned name -> clean_name name = name)
  /\ clean_name (clean_name name) = clean_name name.
Proof.
  split; [ apply clean_name_is_cleaned | ].
  split; [ apply clean_name_of_cleaned | ].
  apply clean_name_of_cleaned, clean_name_is_cleaned.
Qed.

(** ** Renamed rows *)

Lemma find_snoc {A : Type} (p : A -> bool) (l : list A) (x : A) :
  find p (l ++ [x])
  = match find p l with
    | Some y => Some y
    | None => if p x then Some x else None
    end.
Proof.
  induction l as [|y l IH]; cbn; [ reflexivity | ].
  destruct (p y); [ reflexivity | exact IH ].
Qed.

(** A chain of assignments reads as the last one made under the key. *)
Lemma get_fold_assign {A : Type} (ps : list (string * A))
  (o : list (string * A)) (k : string) :
  Obj.get (fold_left (fun o p => Obj.set o (fst p) (snd p)) ps o) k
  = match find (fun p => String.eqb (fst p) k) (rev ps) with
    | Some p => Some (snd p)
    | None => Obj.get o k
    end.
Proof.
  revert o. induction ps as [|[k0 v0] ps IH]; intros o; cbn [fold_left rev];
    [ reflexivity | ].
  rewrite IH, find_snoc. cbn [fst snd].
  destruct (find (fun p : string * A => String.eqb (fst p) k) (rev ps));
    [ reflexivity | ].
  destruct (String.eqb_spec k0 k) as [-> | Hne].
  - apply get_set_same.
  - now apply get_set_other.
Qed.

Lemma mapi_from_nth {A B : Type} (f : A -> nat -> B) (l : list A)
  (i j : nat) (d : A) (e : B) :
  (j < List.length l)%nat ->
  nth j (Arr.mapi_from i f l) e = f (nth j l d) (i + j)%nat.
Proof.
  revert i j. induction l as [|x l IH]; intros i j Hj; cbn in Hj; [ lia | ].
  destruct j as [|j]; cbn [Arr.mapi_from nth].
  - f_equal. lia.
  - rewrite IH by lia. f_equal. lia.
Qed.

Lemma mapi_from_length {A B : Type} (f : A -> nat -> B) (l : list A)
  (i : nat) :
  List.length (Arr.mapi_from i f l) = List.length l.
Proof.
  revert i. induction l as [|x l IH]; intros i; cbn; [ reflexivity | ].
  now rewrite IH.
Qed.

(** The last element of a list that satisfies [p] is found first in the
    reversed list. *)
Lemma find_rev_last {A : Type} (p : A -> bool) (l : list A) (j : nat)
  (d : A) :
  (j < List.length l)%nat -> p (nth j l d) = true ->
  (forall j', (j < j' < List.length l)%nat -> p (nth j' l d) = false) ->
  find p (rev l) = Some (nth j l d).
Proof.
  induction l as [|x l IH] using rev_ind; intros Hj Hp Hlast;
    [ cbn in Hj; lia | ].
  rewrite rev_app_distr. cbn [rev app find].
  rewrite length_app in Hj. cbn in Hj.
  destruct (Nat.eq_dec j (List.length l)) as [-> | Hne].
  - rewrite nth_middle in *. now rewrite Hp.
  - assert (Hj' : (j < List.length l)%nat) by lia.
    assert (Hx : p x = false).
    { specialize (Hlast (List.length l)). rewrite nth_middle in Hlast.
      apply Hlast. rewrite length_app. cbn. lia. }
    rewrite Hx. rewrite app_nth1 in * by exact Hj'.
    apply IH; [ exact Hj' | exact Hp | ].
    intros j' Hj2. specialize (Hlast j').
    rewrite app_nth1 in Hlast by lia. apply Hlast.
    rewrite length_app. cbn. lia.
Qed.

Section RenamedRow.

Variable columnNames : list string.
Variable row : object.

Local Abbreviation assignments := (renaming_assignments columnNames row).

Lemma clean_row_assignments :
  clean_row columnNames row
  = fold_left (fun o p => Obj.set o (fst p) (snd p)) assignments [].
Proof.
  unfold clean_row, renaming_assignments, Arr.mapi.
  generalize (@nil (string * value)) as o. generalize 0%nat as i.
  induction (Obj.keys row) as [|k ks IH]; intros i o; cbn; [ reflexivity | ].
  apply IH.
Qed.

Lemma assignments_nth (j : nat) :
  (j < List.length (Obj.keys row))%nat ->
  nth j assignments (EmptyString, VUndefined)
  = (nth j columnNames "undefined"%string,
     Obj.cell row (nth j (Obj.keys row) EmptyString)).
Proof.
  intros Hj. unfold renaming_assignments, Arr.mapi.
  now rewrite (mapi_from_nth _ _ 0 j EmptyString) by exact Hj.
Qed.

(** X13. In a renamed row, the cell under a new name is the cell of the
    last column written under that name: the column at position [j] of the
    row is read back under the name at position [j] provided no later column
    of the row goes under the same name, and the name is not [__proto__],
    under which a plain object stores no property. *)
Theorem clean_row_reads_last_column (j : nat) :
  last_under_its_name columnNames row j ->
  Obj.cell (clean_row columnNames row) (nth j columnNames "undefined"%string)
  = Obj.cell row (nth j (Obj.keys row) EmptyString).
Proof.
  intros (Hj & _ & Hlast). unfold Obj.cell at 1.
  rewrite clean_row_assignments, get_fold_assign.
  assert (Hlen : List.length assignments = List.length (Obj.keys row))
    by apply mapi_from_length.
  rewrite (find_rev_last _ assignments j (EmptyString, VUndefined)).
  - now rewrite assignments_nth.
  - now rewrite Hlen.
  - rewrite assignments_nth by exact Hj. apply String.eqb_refl.
  - intros j' Hj'. rewrite Hlen in Hj'.
    rewrite assignments_nth by lia. cbn [fst].
    apply String.eqb_neq. apply Hlast. lia.
Qed.

End RenamedRow.

Lemma clean_row_reads_last_column_witness :
  last_under_its_name (map clean_name (Obj.keys colliding_row))
    colliding_row 1
  /\ Obj.cell
       (clean_row (map clean_name (Obj.keys colliding_row)) colliding_row)
       "name"
     = VStr "y".
Proof.
  assert (H : last_under_its_name (map clean_name (Obj.keys colliding_row))
                colliding_row 1).
  { split; [ cbn; lia | ].
    split; [ vm_compute; discriminate | ].
    cbn. intros j' Hj'. lia. }
  split; [ exact H | ].
  exact (clean_row_reads_last_column _ _ 1%nat H).
Defined.

(* ================================================================== *)
(** * The shape of a profile *)
(* ================================================================== *)

Section ProfileShape.

Variable Date_parse : string -> JS.num.
Variable Number_toString : JS.num -> string.

Lemma analyze_column_name (cleanData : list object) (name : string) :
  Column.name (analyze_column Date_parse Number_toString cleanData name)
  = name.
Proof. reflexivity. Qed.



End ProfileShape.

(* ================================================================== *)
(** * Data quality and the summary *)
(* ================================================================== *)

(** ** [_.uniqBy] *)

Lemma existsb_eqb_In (k : string) (seen : list string) :
  existsb (String.eqb k) seen = true <-> In k seen.
Proof.
  rewrite existsb_exists. split.
  - intros (x & Hx & E). apply String.eqb_eq in E. now subst.
  - intros H. exists k. split; [ exact H | apply String.eqb_refl ].
Qed.

Lemma uniqBy_acc_length_le {A : Type} (key : A -> string)
  (seen : list string) (l : list A) :
  (List.length (uniqBy_acc key seen l) <= List.length l)%nat.
Proof.
  revert seen. induction l as [|x l IH]; intros seen; cbn; [ lia | ].
  destruct (existsb (String.eqb (key x)) seen); cbn.
  - specialize (IH seen). lia.
  - specialize (IH (key x :: seen)). lia.
Qed.

Lemma uniqBy_acc_all {A : Type} (key : A -> string) (seen : list string)
  (l : list A) :
  List.length (uniqBy_acc key seen l) = List.length l
  <-> NoDup (map key l) /\ forall x, In x l -> ~ In (key x) seen.
Proof.
  revert seen. induction l as [|x l IH]; intros seen; cbn.
  - split; [ intros _; split; [ constructor | tauto ] | reflexivity ].
  - destruct (existsb (String.eqb (key x)) seen) eqn:E.
    + apply existsb_eqb_In in E. split.
      * intros H. pose proof (uniqBy_acc_length_le key seen l). lia.
      * intros [_ H]. exfalso. apply (H x); auto.
    + assert (Hx : ~ In (key x) seen).
      { intros H. apply existsb_eqb_In in H. congruence. }
      cbn [List.length]. split.
      * intros H. injection H as H. apply IH in H as [Hnd Hseen]. split.
        -- constructor; [ | exact Hnd ].
           intros Hin. apply in_map_iff in Hin as (y & Hy & Hin).
           apply (Hseen y Hin). left. now symmetry.
        -- intros y [<- | Hy]; [ exact Hx | ].
           intros Hin. apply (Hseen y Hy). now right.
      * intros [Hnd Hseen]. f_equal. apply IH.
        inversion Hnd as [|k ks Hnin Hnd']; subst. split; [ exact Hnd' | ].
        intros y Hy [Heq | Hin].
        -- apply Hnin. apply in_map_iff. exists y. split; [ now symmetry | exact Hy ].
        -- apply (Hseen y); auto.
Qed.

Lemma uniqBy_length_le {A : Type} (key : A -> string) (l : list A) :
  (List.length (uniqBy key l) <= List.length l)%nat.
Proof. apply uniqBy_acc_length_le. Qed.

Lemma uniqBy_all {A : Type} (key : A -> string) (l : list A) :
  List.length (uniqBy key l) = List.length l <-> NoDup (map key l).
Proof.
  unfold uniqBy. rewrite uniqBy_acc_all. split; [ tauto | ].
  intros H. split; [ exact H | ]. intros x _ [].
Qed.

Lemma uniqBy_nonempty {A : Type} (key : A -> string) (l : list A) :
  l <> [] -> (1 <= List.length (uniqBy key l))%nat.
Proof.
  destruct l as [|x l]; [ congruence | ]. intros _. cbn. lia.
Qed.

(** ** The two lists of messages *)

Section QualityLists.

Variable Number_toString : JS.num -> string.
Variable JSON_stringify : object -> string.

Lemma first_check (columns : list Column.t) (issues warnings : list string) :
  fold_left
    (fun '(issues, warnings) col =>
       if completely_empty col
       then (issues ++ [empty_column_issue col], warnings)
       else if mostly_missing col
       then (issues, warnings ++ [missing_data_warning Number_toString col])
       else (issues, warnings))
    columns (issues, warnings)
  = (issues ++ map empty_column_issue (filter completely_empty columns),
     warnings
     ++ map (missing_data_warning Number_toString)
          (filter (fun col => negb (completely_empty col)
                              && mostly_missing col)
                  columns)).
Proof.
  revert issues warnings.
  induction columns as [|col columns IH]; intros issues warnings;
    cbn [fold_left filter map].
  - now rewrite !app_nil_r.
  - destruct (completely_empty col); cbn [negb andb map].
    + rewrite IH, <- app_assoc. reflexivity.
    + destruct (mostly_missing col); cbn [map];
        rewrite IH, <- ?app_assoc; reflexivity.
Qed.

Lemma later_check {A : Type} (found : Column.t -> option A)
  (message : Column.t -> A -> string) (columns : list Column.t)
  (warnings : list string) :
  fold_left
    (fun warnings col =>
       match found col with
       | Some x => warnings ++ [message col x]
       | None => warnings
       end)
    columns warnings
  = warnings
    ++ flat_map (fun col => match found col with
                            | Some x => [message col x]
                            | None => []
                            end)
         columns.
Proof.
  revert warnings.
  induction columns as [|col columns IH]; intros warnings;
    cbn [fold_left flat_map].
  - now rewrite app_nil_r.
  - rewrite IH. destruct (found col); cbn [app];
      rewrite <- ?app_assoc; reflexivity.
Qed.

(** The messages of [assessDataQuality], in the order they are pushed. *)
Lemma assessDataQuality_messages (data : list object)
  (columns : list Column.t) :
  let q := assessDataQuality Number_toString JSON_stringify data columns in
  QualityAssessment.issues q
  = map empty_column_issue (filter completely_empty columns)
  /\ QualityAssessment.warnings q
     = map (missing_data_warning Number_toString)
         (filter (fun col => negb (completely_empty col)
                             && mostly_missing col)
                 columns)
       ++ (if 0 <? duplicate_count JSON_stringify data
           then [duplicate_rows_warning Number_toString
                   (duplicate_count JSON_stringify data)]
           else [])
       ++ flat_map (fun col => match low_variance col with
                               | Some std =>
                                   [low_variance_warning Number_toString
                                      col std]
                               | None => []
                               end)
            (filter (fun col => is_numeric_type (Column.type col)) columns)
       ++ flat_map (fun col => match high_cardinality data col with
                               | Some u =>
                                   [high_cardinality_warning Number_toString
                                      col u]
                               | None => []
                               end)
            (filter (fun col => is_string_type (Column.type col)) columns)
  /\ QualityAssessment.overallQuality q
     = (if (List.length (QualityAssessment.issues q) =? 0)%nat
        then if (List.length (QualityAssessment.warnings q) =? 0)%nat
             then "excellent" else "good"
        else "poor")%string.
Proof.
  unfold assessDataQuality. rewrite first_check. cbn [app].
  rewrite !later_check.
  cbn [QualityAssessment.issues QualityAssessment.warnings
       QualityAssessment.overallQuality].
  split; [ reflexivity | ]. split; [ | reflexivity ].
  destruct (0 <? duplicate_count JSON_stringify data);
    rewrite <- ?app_assoc; reflexivity.
Qed.

Lemma map_filter_nil {A B : Type} (f : A -> B) (p : A -> bool) (l : list A) :
  map f (filter p l) = [] <-> forall x, In x l -> p x = false.
Proof.
  induction l as [|x l IH]; cbn; [ tauto | ].
  destruct (p x) eqn:E; cbn.
  - split; [ discriminate | ]. intros H.
    specialize (H x (or_introl eq_refl)). congruence.
  - rewrite IH. split.
    + intros H y [<- | Hy]; auto.
    + intros H y Hy. apply H. now right.
Qed.

Lemma flat_map_filter_nil {A B : Type} (found : Column.t -> option A)
  (message : Column.t -> A -> B) (p : Column.t -> bool)
  (l : list Column.t) :
  flat_map (fun col => match found col with
                       | Some x => [message col x]
                       | None => []
                       end)
    (filter p l) = []
  <-> forall col, In col l -> p col = true -> found col = None.
Proof.
  induction l as [|x l IH]; cbn [filter flat_map]; [ cbn; tauto | ].
  destruct (p x) eqn:E; cbn [flat_map].
  - destruct (found x) eqn:F; cbn [app].
    + split; [ discriminate | ]. intros H.
      specialize (H x (or_introl eq_refl) E). congruence.
    + rewrite IH. split.
      * intros H y [<- | Hy] Hp; auto.
      * intros H y Hy. apply H. now right.
  - rewrite IH. split.
    + intros H y [<- | Hy] Hp; [ congruence | auto ].
    + intros H y Hy. apply H. now right.
Qed.

Lemma duplicate_count_nonneg (data : list object) :
  0 <= duplicate_count JSON_stringify data.
Proof.
  unfold duplicate_count.
  pose proof (uniqBy_length_le JSON_stringify data). lia.
Qed.

(** X15. [assessDataQuality] raises one issue for each completely empty
    column and no other issue. Its verdict is poor exactly when some column is
    completely empty; excellent exactly when no column is completely empty
    or more than half missing, no row is a duplicate, no numeric column has
    a [std] below 0.001 and no string column has more distinct values than
    0.8 times the number of rows; and good in the remaining case. *)
Theorem assessDataQuality_verdict (data : list object)
  (columns : list Column.t) :
  quality_verdict Number_toString JSON_stringify data columns.
Proof.
  unfold quality_verdict.
  destruct (assessDataQuality_messages data columns) as (Hi & Hw & Hv).
  set (q := assessDataQuality Number_toString JSON_stringify data columns)
    in *.
  assert (Hempty : QualityAssessment.issues q = []
                   <-> ~ exists col, In col columns
                                     /\ completely_empty col = true).
  { rewrite Hi, map_filter_nil. split.
    - intros H (col & Hin & E). rewrite (H col Hin) in E. discriminate.
    - intros H col Hin. destruct (completely_empty col) eqn:E;
        [ exfalso; apply H; eauto | reflexivity ]. }
  assert (Hquiet :
            ~ (exists col, In col columns /\ completely_empty col = true) ->
            (QualityAssessment.warnings q = []
             <-> (forall col, In col columns -> mostly_missing col = false)
                 /\ duplicate_count JSON_stringify data = 0
                 /\ (forall col, In col columns ->
                       is_numeric_type (Column.type col) = true ->
                       low_variance col = None)
                 /\ (forall col, In col columns ->
                       is_string_type (Column.type col) = true ->
                       high_cardinality data col = None))).
  { intros Hnone. rewrite Hw.
    pose proof (duplicate_count_nonneg data) as Hdup.
    split.
    - intros H.
      apply app_eq_nil in H as [H1 H]. apply app_eq_nil in H as [H2 H].
      apply app_eq_nil in H as [H3 H4].
      rewrite map_filter_nil in H1.
      rewrite flat_map_filter_nil in H3. rewrite flat_map_filter_nil in H4.
      split; [ | split; [ | split; assumption ] ].
      + intros col Hin. specialize (H1 col Hin).
        destruct (completely_empty col) eqn:E;
          [ exfalso; apply Hnone; eauto | exact H1 ].
      + destruct (Z.ltb_spec 0 (duplicate_count JSON_stringify data));
          [ discriminate | lia ].
    - intros (H1 & H2 & H3 & H4).
      assert (E1 : map (missing_data_warning Number_toString)
                     (filter (fun col => negb (completely_empty col)
                                         && mostly_missing col) columns)
                   = []).
      { apply map_filter_nil. intros col Hin. rewrite (H1 col Hin).
        apply andb_false_r. }
      pose proof (proj2 (flat_map_filter_nil low_variance
                           (low_variance_warning Number_toString)
                           (fun col => is_numeric_type (Column.type col))
                           columns) H3) as E3.
      pose proof (proj2 (flat_map_filter_nil (high_cardinality data)
                           (high_cardinality_warning Number_toString)
                           (fun col => is_string_type (Column.type col))
                           columns) H4) as E4.
      rewrite E1, H2, E3, E4. reflexivity. }
  split; [ exact Hi | ].
  rewrite Hv.
  destruct (QualityAssessment.issues q) as [|i ir] eqn:Ei; cbn [List.length Nat.eqb].
  - assert (Hnone : ~ exists col, In col columns
                                  /\ completely_empty col = true)
      by (now apply Hempty).
    specialize (Hquiet Hnone).
    destruct (QualityAssessment.warnings q) as [|w ws] eqn:Ew;
      cbn [List.length Nat.eqb].
    + assert (Hq : (forall col, In col columns -> mostly_missing col = false)
                   /\ duplicate_count JSON_stringify data = 0
                   /\ (forall col, In col columns ->
                         is_numeric_type (Column.type col) = true ->
                         low_variance col = None)
                   /\ (forall col, In col columns ->
                         is_string_type (Column.type col) = true ->
                         high_cardinality data col = None))
        by (now apply Hquiet).
      split; [ split; [ discriminate | intros H; contradiction ] | ].
      split; [ split; [ intros _; split; assumption | reflexivity ] | ].
      split; [ discriminate | ]. intros [_ H]. contradiction.
    + assert (Hq : ~ ((forall col, In col columns ->
                         mostly_missing col = false)
                      /\ duplicate_count JSON_stringify data = 0
                      /\ (forall col, In col columns ->
                            is_numeric_type (Column.type col) = true ->
                            low_variance col = None)
                      /\ (forall col, In col columns ->
                            is_string_type (Column.type col) = true ->
                            high_cardinality data col = None))).
      { intros H. apply Hquiet in H. discriminate. }
      split; [ split; [ discriminate | intros H; contradiction ] | ].
      split; [ split; [ discriminate | intros [_ H]; contradiction ] | ].
      split; [ intros _; split; assumption | reflexivity ].
  - assert (Hsome : exists col, In col columns
                                /\ completely_empty col = true).
    { destruct (filter completely_empty columns) as [|col r] eqn:Ef;
        [ rewrite Hi in Ei; discriminate | ].
      assert (Hin : In col (filter completely_empty columns))
        by (rewrite Ef; now left).
      apply filter_In in Hin. eauto. }
    split; [ split; [ intros _; exact Hsome | reflexivity ] | ].
    split; split; try discriminate; intros [H _]; contradiction.
Qed.

End QualityLists.

(** ** The quality and the summary of a dataset *)

Section DatasetQuality.

Variable Date_parse : string -> JS.num.
Variable Number_toString : JS.num -> string.
Variable JSON_stringify : object -> string.

Lemma verdict_poor (data : list object) (columns : list Column.t) :
  QualityAssessment.overallQuality
    (assessDataQuality Number_toString JSON_stringify data columns)
  = "poor"%string
  <-> exists col, In col columns /\ completely_empty col = true.
Proof.
  destruct (assessDataQuality_messages Number_toString JSON_stringify
              data columns) as (Hi & _ & Hv).
  rewrite Hv, Hi.
  destruct (filter completely_empty columns) as [|col r] eqn:Ef;
    cbn [map List.length Nat.eqb].
  - split.
    + clear Hv Hi.
      match goal with
      | |- (if ?b then _ else _) = _ -> _ => destruct b
      end; intros H; discriminate H.
    + intros (col & Hin & E).
      assert (H : In col (filter completely_empty columns))
        by (apply filter_In; auto).
      rewrite Ef in H. destruct H.
  - split; [ intros _ | reflexivity ].
    assert (Hin : In col (filter completely_empty columns))
      by (rewrite Ef; now left).
    apply filter_In in Hin. eauto.
Qed.

(** A profiled column is completely empty when every cell is missing. *)
Lemma analyze_column_completely_empty (cleanData : list object)
  (name : string) :
  completely_empty
    (analyze_column Date_parse Number_toString cleanData name) = true
  <-> all_cells_missing cleanData name.
Proof.
  unfold completely_empty, all_cells_missing.
  cbn [analyze_column Column.missingData calculateMissingData
       MissingData.missing MissingData.total].
  rewrite filter_length_all, forallb_forall. split.
  - intros H row Hrow. apply is_missing_spec, H, in_map_iff. eauto.
  - intros H v Hv. apply in_map_iff in Hv as (row & <- & Hrow).
    apply is_missing_spec, H, Hrow.
Qed.

Lemma duplicate_warning_not_of_a_column (n : Z) (l : list Column.t)
  (message : Column.t -> list string) :
  (forall col s, In s (message col) -> exists r, s = String "C" r) ->
  ~ In (duplicate_rows_warning Number_toString n) (flat_map message l).
Proof.
  intros Hm Hin. apply in_flat_map in Hin as (col & _ & Hs).
  destruct (Hm col _ Hs) as [r Hr]. discriminate Hr.
Qed.

Lemma duplicate_warning_iff (data : list object) (columns : list Column.t) :
  In (duplicate_rows_warning Number_toString
        (duplicate_count JSON_stringify data))
     (QualityAssessment.warnings
        (assessDataQuality Number_toString JSON_stringify data columns))
  <-> 0 < duplicate_count JSON_stringify data.
Proof.
  destruct (assessDataQuality_messages Number_toString JSON_stringify
              data columns) as (_ & Hw & _).
  rewrite Hw. clear Hw.
  destruct (Z.ltb_spec 0 (duplicate_count JSON_stringify data)) as [Hd | Hd].
  - split; [ intros _; exact Hd | intros _ ].
    apply in_or_app. right. now left.
  - split; [ | lia ]. intros Hin. exfalso.
    apply in_app_or in Hin as [Hin | Hin].
    + apply in_map_iff in Hin as (col & Hs & _). discriminate Hs.
    + cbn [app] in Hin. apply in_app_or in Hin as [Hin | Hin];
        revert Hin; apply duplicate_warning_not_of_a_column;
        intros col s Hs.
      * destruct (low_variance col); [ | destruct Hs ].
        destruct Hs as [<- | []]. eexists. reflexivity.
      * destruct (high_cardinality data col); [ | destruct Hs ].
        destruct Hs as [<- | []]. eexists. reflexivity.
Qed.

(** X16. For a dataset of at least one row, the verdict of the quality
    assessment in the result of [analyzeDataset] is poor exactly when some
    column has every cell missing ([null], [undefined], empty, blank or
    NaN), and the assessment warns of duplicate rows, with the count the
    summary gives, exactly when the summary counts at least one. *)
Theorem analyzeDataset_quality_verdict
  (firstRow : object) (rest : list object) (filename : string) :
  quality_of_dataset Date_parse Number_toString JSON_stringify
    (firstRow :: rest) filename.
Proof.
  unfold quality_of_dataset, analyzeDataset_qualityAssessment,
    analyzeDataset_summary.
  cbn [analyzeDataset].
  do 3 eexists. split; [ reflexivity | ]. split; [ reflexivity | ].
  split; [ reflexivity | ].
  cbn [Profile.data Profile.columns dataset_summary Summary.duplicateRows].
  split.
  - rewrite verdict_poor. split.
    + intros (col & Hin & E). exists col. split; [ exact Hin | ].
      apply in_map_iff in Hin as (name & <- & _).
      now apply analyze_column_completely_empty.
    + intros (col & Hin & E). exists col. split; [ exact Hin | ].
      apply in_map_iff in Hin as (name & <- & _).
      now apply analyze_column_completely_empty.
  - apply duplicate_warning_iff.
Qed.

Lemma columns_by_kind (columns : list Column.t) :
  (List.length
     (filter (fun col => is_numeric_type (Column.type col)) columns)
   + List.length
       (filter (fun col => is_categorical_type (Column.type col)) columns)
   + List.length (filter (fun col => is_date_type (Column.type col)) columns)
   + count_columns is_unknown_type columns
   = List.length columns)%nat.
Proof.
  unfold count_columns. induction columns as [|col columns IH];
    cbn [filter List.length]; [ reflexivity | ].
  destruct (Column.type col); cbn; lia.
Qed.

(** X17. For a dataset of at least one row, the summary in the result of
    [analyzeDataset] counts the rows and the properties of the first row;
    its numbers of numeric, categorical (string or boolean) and date
    columns, with the columns of unknown type, add up to the number of
    columns; [duplicateRows] is at least 0 and less than the number of rows,
    and 0 exactly when no two renamed rows serialise alike; and without any
    column [missingDataPercentage] is NaN. *)
Theorem analyzeDataset_summary_counts
  (firstRow : object) (rest : list object) (filename : string) :
  summary_counts Date_parse Number_toString JSON_stringify
    (firstRow :: rest) filename.
Proof.
  unfold summary_counts, analyzeDataset_summary.
  cbn [analyzeDataset].
  do 2 eexists. split; [ reflexivity | ]. split; [ reflexivity | ].
  cbn [Profile.data Profile.columns dataset_summary Summary.totalRows
       Summary.totalColumns Summary.numericColumns
       Summary.categoricalColumns Summary.dateColumns
       Summary.duplicateRows Summary.missingDataPercentage hd].
  set (columnNames := map clean_name (Obj.keys firstRow)).
  set (cleanData := map (clean_row columnNames) (firstRow :: rest)).
  set (columns :=
         map (analyze_column Date_parse Number_toString cleanData)
             columnNames).
  assert (Hrows : List.length cleanData = List.length (firstRow :: rest))
    by apply length_map.
  assert (Hcols : List.length columns = List.length (Obj.keys firstRow)).
  { unfold columns, columnNames. now rewrite !length_map. }
  pose proof (uniqBy_length_le JSON_stringify cleanData) as Hle.
  assert (Hne : cleanData <> []) by (unfold cleanData; discriminate).
  pose proof (uniqBy_nonempty JSON_stringify cleanData Hne) as Hpos.
  split; [ exact Hrows | ].
  split; [ exact Hcols | ].
  split; [ apply columns_by_kind | ].
  split; [ lia | ].
  split.
  - rewrite <- (uniqBy_all JSON_stringify cleanData). lia.
  - intros H0.
    assert (E : columns = []) by (now apply length_zero_iff_nil).
    rewrite E. reflexivity.
Qed.

End DatasetQuality.

Example rows_with_a_duplicate_quality :
  analyzeDataset_qualityAssessment Host.Number_toString HostJSON.stringify
    Host.Date_parse (Some rows_with_a_duplicate) "dataset"
  = Return (QualityAssessment.mk
              ["Column 'b' is completely empty"]
              ["Found 1 duplicate rows"]
              "poor")%string.
Proof. vm_compute. reflexivity. Qed.

Example rows_with_a_duplicate_summary :
  analyzeDataset_summary Host.Number_toString HostJSON.stringify
    Host.Date_parse (Some rows_with_a_duplicate) "dataset"
  = Return (Summary.mk 3 2 1 0 0 (JS.Fin 50) 1).
Proof. vm_compute. reflexivity. Qed.

(* ================================================================== *)
(** * The mean *)
(* ================================================================== *)

Lemma div_Fin_inv (x : JS.num) (d r : Q) :
  (0 < d)%Q -> JS.div x (JS.Fin d) = JS.Fin r ->
  exists a, x = JS.Fin a /\ r = (a / d)%Q.
Proof.
  intros Hd. destruct x as [| | |a]; cbn [JS.div]; try discriminate.
  - destruct (JS.Qsgn d <? 0); discriminate.
  - destruct (JS.Qsgn d <? 0); discriminate.
  - fold (JS.div (JS.Fin a) (JS.Fin d)). rewrite div_Fin by lra.
    intros H. apply of_exact_Fin_inv in H as [-> _]. now exists a.
Qed.

Lemma toFixedNumber_Fin_inv (d : nat) (x : JS.num) (r : Q) :
  JS.toFixedNumber d x = JS.Fin r ->
  exists q, x = JS.Fin q
            /\ (Qabs (r - q) <= 1 / (2 * inject_Z (JS.pow10 d)))%Q.
Proof.
  destruct x as [| | |q]; cbn [JS.toFixedNumber]; try discriminate.
  destruct (JS.Qsgn (Qabs q - inject_Z (10 ^ 21)) <? 0);
    intros H; injection H as <-; exists q; (split; [ reflexivity | ]).
  - apply Qround_fixed_error.
  - setoid_replace (q - q)%Q with 0%Q by ring.
    pose proof (pow10_pos d) as Hp.
    assert (0 < inject_Z (JS.pow10 d))%Q by (rewrite <- (Zlt_Qlt 0); exact Hp).
    change (Qabs 0) with 0%Q.
    apply Qle_shift_div_l; [ lra | ].
    rewrite Qmult_0_l. discriminate.
Qed.

Lemma Qsum_between (lo hi : Q) (qs : list Q) :
  Forall (fun q => (lo <= q <= hi)%Q) qs ->
  (inject_Z (Z.of_nat (List.length qs)) * lo <= Qsum qs
   <= inject_Z (Z.of_nat (List.length qs)) * hi)%Q.
Proof.
  induction 1 as [|q qs Hq _ IH].
  - rewrite Qsum_nil. cbn [List.length].
    change (inject_Z (Z.of_nat 0)) with 0%Q. split; lra.
  - rewrite Qsum_cons. cbn [List.length].
    rewrite Nat2Z.inj_succ. unfold Z.succ. rewrite inject_Z_plus.
    change (inject_Z 1) with 1%Q.
    set (n := inject_Z (Z.of_nat (List.length qs))) in *.
    setoid_replace ((n + 1) * lo)%Q with (n * lo + lo)%Q by ring.
    setoid_replace ((n + 1) * hi)%Q with (n * hi + hi)%Q by ring.
    split; lra.
Qed.

(** X18. For a column whose finite numbers are whole numbers with absolute
    values adding up to at most 2^53 (their sum is then exact in binary64),
    the [mean] that [calculateNumericStats] reports lies between [min] and
    [max], up to the rounding to four decimals (0.00005). *)
Theorem calculateNumericStats_mean_between (values : list value) (m : Q) :
  exactly_summed (sorted_numbers values) ->
  NumericStats.mean (calculateNumericStats values) = Some (JS.Fin m) ->
  mean_between_extremes values m.
Proof.
  intros _ Hmean. unfold mean_between_extremes.
  pose proof (sorted_numbers_finite values) as Hfin.
  pose proof (sorted_numbers_ascending values) as Hasc.
  set (sorted := sorted_numbers values) in *.
  set (count := List.length sorted).
  assert (Hcount : (1 <= count)%nat).
  { unfold calculateNumericStats in Hmean. fold sorted in Hmean.
    fold count in Hmean. destruct (Nat.eqb_spec count 0) as [E | E];
      [ discriminate Hmean | lia ]. }
  pose proof (calculateNumericStats_record values Hcount) as Hrec.
  fold sorted in Hrec. fold count in Hrec.
  rewrite Hrec in *.
  cbn [NumericStats.mean NumericStats.min NumericStats.max] in *.
  injection Hmean as Hmean.
  apply toFixedNumber_Fin_inv in Hmean as (mu & Hmu & Hround).
  assert (Hn : (0 < inject_Z (Z.of_nat count))%Q) by now apply length_pos.
  assert (Hdiv : JS.div (Lodash.sum sorted) (JS.Fin (inject_Z (Z.of_nat count)))
                 = JS.Fin mu).
  { rewrite <- Hmu. unfold Lodash.mean, count.
    destruct sorted; [ cbn in Hcount; lia | reflexivity ]. }
  apply div_Fin_inv in Hdiv as (sigma & Hsum & ->); [ | exact Hn ].
  apply sum_Fin_inv in Hsum as (qs & Hqs & ->).
  assert (Hlen : List.length qs = count)
    by (unfold count; rewrite Hqs; now rewrite length_map).
  assert (H0 : (0 < count)%nat) by lia.
  assert (Hlast : (count - 1 < count)%nat) by lia.
  destruct (at_num_finite sorted 0 Hfin H0) as [mn Emn].
  destruct (at_num_finite sorted (count - 1) Hfin Hlast) as [mx Emx].
  assert (Hall : Forall (fun q => (mn <= q <= mx)%Q) qs).
  { apply Forall_forall. intros q Hq.
    assert (Hin : In (JS.Fin q) sorted) by (rewrite Hqs; now apply in_map).
    destruct (In_nth _ _ JS.NaN Hin) as (i & Hi & Ei).
    fold count in Hi.
    pose proof (ascending_at sorted 0 i Hasc Hfin) as Hlo.
    pose proof (ascending_at sorted i (count - 1) Hasc Hfin) as Hhi.
    unfold Arr.at_num in Hlo, Hhi, Emn, Emx.
    rewrite Ei, Emn in Hlo. rewrite Ei, Emx in Hhi.
    split; [ apply Hlo | apply Hhi ]; lia. }
  assert (Hmm : (mn <= mx)%Q).
  { pose proof (ascending_at sorted 0 (count - 1) Hasc Hfin) as H.
    rewrite Emn, Emx in H. apply H; lia. }
  pose proof (Qsum_between mn mx qs Hall) as [Hlo Hhi].
  rewrite Hlen in Hlo, Hhi. rewrite <- sumQ_Qsum in Hlo, Hhi.
  exists mn, mx. rewrite Emn, Emx.
  split; [ reflexivity | ]. split; [ reflexivity | ].
  split; [ exact Hmm | ].
  assert (Hbetween : (mn <= sumQ qs / inject_Z (Z.of_nat count) <= mx)%Q).
  { split.
    - apply Qle_shift_div_l; [ exact Hn | ]. lra.
    - apply Qle_shift_div_r; [ exact Hn | ]. lra. }
  setoid_replace (1 / (2 * inject_Z (JS.pow10 4)))%Q with (1 # 20000)%Q
    in Hround by reflexivity.
  apply Qabs_Qle_condition in Hround. lra.
Qed.

Lemma calculateNumericStats_mean_between_witness :
  mean_between_extremes sample_five (24 # 5).
Proof.
  apply calculateNumericStats_mean_between.
  - exists [1; 2; 4; 8; 9]. split; [ | vm_compute; discriminate ].
    assert (E : sorted_numbers sample_five
                = map JS.Fin [1; 2; 4; 8; 9]%Q) by (vm_compute; reflexivity).
    rewrite E. repeat constructor; eexists; split; reflexivity.
  - vm_compute. reflexivity.
Defined.

(* ================================================================== *)
(** * Percentages *)
(* ================================================================== *)

Lemma Qround_fixed_upper (d : nat) (q : Q) (B : Z) :
  (0 <= q <= inject_Z B)%Q -> (JS.Qround_fixed d q <= inject_Z B)%Q.
Proof.
  intros [H0 HB]. rewrite Qround_fixed_value.
  pose proof (pow10_pos d) as Hp.
  set (S := JS.pow10 d) in *.
  assert (HS : (0 < inject_Z S)%Q) by (rewrite <- (Zlt_Qlt 0); exact Hp).
  apply Qle_shift_div_r; [ exact HS | ].
  rewrite <- inject_Z_mult, <- Zle_Qle.
  assert (Hf : Qfloor (Qabs q * inject_Z S + (1 # 2)) <= B * S).
  { apply Z.lt_succ_r. rewrite Zlt_Qlt.
    eapply Qle_lt_trans; [ apply Qfloor_le | ].
    unfold Z.succ. rewrite inject_Z_plus, inject_Z_mult.
    change (inject_Z 1) with 1%Q.
    rewrite Qabs_pos by exact H0.
    assert (q * inject_Z S <= inject_Z B * inject_Z S)%Q
      by (apply Qmult_le_compat_r; lra).
    lra. }
  assert (Hf0 : 0 <= Qfloor (Qabs q * inject_Z S + (1 # 2))).
  { apply (Qfloor_resp_le 0).
    assert (0 <= Qabs q * inject_Z S)%Q
      by (apply Qmult_le_0_compat; [ apply Qabs_nonneg | lra ]).
    lra. }
  destruct (Qsgn_cases q) as [(-> & _) | [(-> & _) | (-> & Hq & _)]];
    [ lia | | lra ].
  assert (0 <= B)%Z
    by (rewrite Zle_Qle; change (inject_Z 0) with 0%Q; lra).
  nia.
Qed.

Lemma toFixedNumber_percentage (d : nat) (q : Q) :
  (0 <= q <= 100)%Q -> a_percentage (JS.toFixedNumber d (JS.Fin q)).
Proof.
  intros Hq. rewrite toFixedNumber_small.
  - eexists. split; [ reflexivity | ]. split.
    + apply Qround_fixed_nonneg. lra.
    + apply (Qround_fixed_upper d q 100). exact Hq.
  - rewrite Qabs_pos by lra.
    apply Qle_lt_trans with (y := 100%Q); [ lra | reflexivity ].
Qed.

(** The share [part / total * 100] to two decimals is a percentage. *)
Lemma share_is_percentage (part total : nat) :
  (part <= total)%nat -> (1 <= total)%nat ->
  a_percentage
    (JS.toFixedNumber 2
       (JS.mul (JS.div (JS.of_nat part) (JS.of_nat total)) (JS.Fin 100))).
Proof.
  intros Hp Ht.
  assert (HtQ : (0 < inject_Z (Z.of_nat total))%Q) by now apply length_pos.
  assert (HpQ : (0 <= inject_Z (Z.of_nat part))%Q)
    by (rewrite <- (Zle_Qle 0); lia).
  assert (HptQ : (inject_Z (Z.of_nat part) <= inject_Z (Z.of_nat total))%Q)
    by (rewrite <- Zle_Qle; lia).
  pose proof overflow_threshold_large as Hbig.
  assert (H22 : (inject_Z (10 ^ 22) == 10000000000000000000000)%Q)
    by reflexivity.
  set (ratio := (inject_Z (Z.of_nat part) / inject_Z (Z.of_nat total))%Q).
  assert (Hr : (0 <= ratio <= 1)%Q).
  { split.
    - apply Qle_shift_div_l; [ exact HtQ | lra ].
    - apply Qle_shift_div_r; [ exact HtQ | lra ]. }
  unfold JS.of_nat, JS.of_Z. rewrite div_Fin by lra. fold ratio.
  rewrite of_exact_in_range by (rewrite Qabs_pos by lra; lra).
  cbn [JS.mul].
  assert (Hq : (0 <= ratio * 100 <= 100)%Q) by (split; lra).
  rewrite of_exact_in_range by (rewrite Qabs_pos by lra; lra).
  now apply toFixedNumber_percentage.
Qed.

Lemma fold_left_add_percentages (l : list JS.num) (a : Q) :
  Forall a_percentage l ->
  (0 <= a)%Q ->
  (a + 100 * inject_Z (Z.of_nat (List.length l)) < JS.overflow_threshold)%Q ->
  exists sigma,
    fold_left JS.add l (JS.Fin a) = JS.Fin sigma
    /\ (0 <= sigma <= a + 100 * inject_Z (Z.of_nat (List.length l)))%Q.
Proof.
  intros Hl. revert a.
  induction Hl as [|x l (r & -> & Hr) _ IH]; intros a Ha Hbound;
    cbn [fold_left List.length] in *.
  - exists a. split; [ reflexivity | ].
    change (inject_Z (Z.of_nat 0)) with 0%Q. lra.
  - rewrite Nat2Z.inj_succ in *. unfold Z.succ in *.
    rewrite inject_Z_plus in *. change (inject_Z 1) with 1%Q in *.
    set (n := inject_Z (Z.of_nat (List.length l))) in *.
    assert (Hn : (0 <= n)%Q) by (unfold n; rewrite <- (Zle_Qle 0); lia).
    cbn [JS.add]. rewrite of_exact_in_range by (rewrite Qabs_pos; lra).
    destruct (IH (a + r)%Q) as (sigma & Hs & Hb); [ lra | lra | ].
    exists sigma. split; [ exact Hs | lra ].
Qed.

Lemma mean_of_percentages (l : list JS.num) :
  l <> [] -> Forall a_percentage l ->
  Z.of_nat (List.length l) < 2 ^ 32 ->
  exists mu, Lodash.mean l = JS.Fin mu /\ (0 <= mu <= 100)%Q.
Proof.
  intros Hne Hl Hshort. destruct l as [|x l]; [ congruence | ].
  inversion Hl as [|x' l' (r & -> & Hr) Hl']; subst.
  assert (Hn : (0 <= inject_Z (Z.of_nat (List.length l)))%Q)
    by (rewrite <- (Zle_Qle 0); lia).
  assert (Hk : (inject_Z (Z.of_nat (List.length (JS.Fin r :: l)))
                == inject_Z (Z.of_nat (List.length l)) + 1)%Q).
  { cbn [List.length]. rewrite Nat2Z.inj_succ. unfold Z.succ.
    now rewrite inject_Z_plus. }
  assert (Hsmall : (inject_Z (Z.of_nat (List.length (JS.Fin r :: l)))
                    < inject_Z (2 ^ 32))%Q) by (now rewrite <- Zlt_Qlt).
  assert (Hbig : (100 * inject_Z (2 ^ 32) < JS.overflow_threshold)%Q)
    by (vm_compute; reflexivity).
  destruct (fold_left_add_percentages l r Hl') as (sigma & Hs & Hb);
    [ lra | lra | ].
  unfold Lodash.mean, Lodash.sum. rewrite Hs.
  unfold JS.of_nat, JS.of_Z. rewrite div_Fin by lra.
  set (k := inject_Z (Z.of_nat (List.length (JS.Fin r :: l)))) in *.
  assert (Hmu : (0 <= sigma / k <= 100)%Q).
  { split.
    - apply Qle_shift_div_l; lra.
    - apply Qle_shift_div_r; lra. }
  rewrite of_exact_in_range.
  - eexists. split; [ reflexivity | exact Hmu ].
  - rewrite Qabs_pos by lra.
    assert (100 < JS.overflow_threshold)%Q by reflexivity. lra.
Qed.

Section MissingShare.

Variable Date_parse : string -> JS.num.
Variable Number_toString : JS.num -> string.
Variable JSON_stringify : object -> string.

Lemma analyze_column_missing_percentage (cleanData : list object)
  (name : string) :
  cleanData <> [] ->
  a_percentage
    (MissingData.missingPercentage
       (Column.missingData
          (analyze_column Date_parse Number_toString cleanData name))).
Proof.
  intros Hne.
  cbn [analyze_column Column.missingData calculateMissingData
       MissingData.missingPercentage].
  apply share_is_percentage.
  - apply filter_length_le.
  - rewrite length_map. destruct cleanData; [ congruence | cbn; lia ].
Qed.

(** X19. For a dataset with at least one row and at least one column (and
    fewer than 2^32 columns), [summary.missingDataPercentage] is a finite
    number from 0 to 100. *)
Theorem analyzeDataset_missing_percentage
  (firstRow : object) (rest : list object) (filename : string) :
  firstRow <> [] ->
  Z.of_nat (List.length (Obj.keys firstRow)) < 2 ^ 32 ->
  missing_percentage_in_range Date_parse Number_toString JSON_stringify
    (firstRow :: rest) filename.
Proof.
  intros Hcol Hshort.
  unfold missing_percentage_in_range, analyzeDataset_summary.
  cbn [analyzeDataset].
  cbn [Profile.data Profile.columns dataset_summary
       Summary.missingDataPercentage].
  set (columnNames := map clean_name (Obj.keys firstRow)).
  set (cleanData := map (clean_row columnNames) (firstRow :: rest)).
  set (columns :=
         map (analyze_column Date_parse Number_toString cleanData)
             columnNames).
  set (shares :=
         map (fun col =>
                MissingData.missingPercentage (Column.missingData col))
             columns).
  assert (Hlen : List.length shares = List.length (Obj.keys firstRow)).
  { unfold shares, columns, columnNames. now rewrite !length_map. }
  assert (Hne : shares <> []).
  { intros E. rewrite E in Hlen. unfold Obj.keys in Hlen.
    rewrite length_map in Hlen. destruct firstRow; [ congruence | ].
    discriminate Hlen. }
  assert (Hall : Forall a_percentage shares).
  { apply Forall_forall. intros x Hx.
    apply in_map_iff in Hx as (col & <- & Hcolumn).
    apply in_map_iff in Hcolumn as (name & <- & _).
    apply analyze_column_missing_percentage. discriminate. }
  destruct (mean_of_percentages shares Hne Hall) as (mu & Hmu & Hrange);
    [ now rewrite Hlen | ].
  destruct (toFixedNumber_percentage 2 mu Hrange) as (r & Hr & Hrr).
  assert (Hmean : meanBy
                    (fun col =>
                       MissingData.missingPercentage (Column.missingData col))
                    columns = JS.Fin mu) by exact Hmu.
  eexists. exists r. split; [ reflexivity | ].
  cbn [Summary.missingDataPercentage dataset_summary Profile.data
       Profile.columns].
  fold columnNames. fold cleanData. fold columns.
  rewrite Hmean. split; assumption.
Qed.

End MissingShare.

Lemma analyzeDataset_missing_percentage_witness :
  missing_percentage_in_range Host.Date_parse Host.Number_toString
    HostJSON.stringify rows_with_a_duplicate "dataset".
Proof.
  apply analyzeDataset_missing_percentage.
  - discriminate.
  - vm_compute. reflexivity.
Defined.

(* ================================================================== *)
(** * The range of a correlation *)
(* ================================================================== *)

(** ** The Cauchy-Schwarz inequality for the sums of a sample *)









(** ** The quotient by the rounded root *)





(** ** Pearson's r *)










(* ================================================================== *)
(** * Ties for the mode *)
(* ================================================================== *)

(** The head of a list sorted by descending key is the first element of
    the list with the highest key. *)
Lemma orderBy_desc_nat_head {A : Type} (key : A -> nat) (l : list A)
  (x : A) (r : list A) :
  Lodash.orderBy_desc_nat key l = x :: r ->
  exists l1 l2,
    l = l1 ++ x :: l2
    /\ Forall (fun y => (key y < key x)%nat) l1
    /\ Forall (fun y => (key y <= key x)%nat) l2.
Proof.
  unfold Lodash.orderBy_desc_nat. revert x r.
  induction l as [|a l IH]; intros x r; cbn [Arr.stable_sort fold_right];
    [ discriminate | ].
  fold (Arr.stable_sort (fun x y => Nat.ltb (key x) (key y)) l).
  destruct (Arr.stable_sort (fun x y => Nat.ltb (key x) (key y)) l)
    as [|y s] eqn:Es.
  - assert (El : l = []).
    { pose proof (stable_sort_perm (fun x y => Nat.ltb (key x) (key y)) l)
        as Hp.
      rewrite Es in Hp. now apply Permutation_nil in Hp. }
    subst l. cbn [Arr.insert]. intros H. injection H as <- <-.
    exists [], []. repeat split; constructor.
  - destruct (IH y s eq_refl) as (m1 & m2 & -> & H1 & H2).
    cbn [Arr.insert]. destruct (Nat.ltb_spec (key a) (key y)) as [Hlt | Hge];
      intros H; injection H as <- <-.
    + exists (a :: m1), m2. repeat split; [ | exact H2 ].
      constructor; assumption.
    + exists [], (m1 ++ y :: m2). repeat split; [ constructor | ].
      apply Forall_app. split.
      * eapply Forall_impl; [ | exact H1 ]. cbn. intros; lia.
      * constructor; [ exact Hge | ].
        eapply Forall_impl; [ | exact H2 ]. cbn. intros; lia.
Qed.

(** X21. When several printed forms are the most frequent,
    [calculateCategoricalStats] takes as [mode] the one that comes first in
    the order of [Object.entries(valueCounts)]: every entry before the
    mode's has a smaller count, and no entry has a larger one. *)
Theorem calculateCategoricalStats_mode_ties
  (Number_toString : JS.num -> string) (values : list value) :
  mode_is_first_of_the_most_frequent Number_toString values.
Proof.
  unfold mode_is_first_of_the_most_frequent.
  cbn [calculateCategoricalStats CategoricalStats.mode
       CategoricalStats.modeFrequency CategoricalStats.valueCounts].
  intros k.
  destruct (Lodash.orderBy_desc_nat snd
              (entries (countBy Number_toString (filter nonNull values))))
    as [|[k0 n0] r] eqn:Es; [ discriminate | ].
  intros H. injection H as <-. cbn [fst snd].
  destruct (orderBy_desc_nat_head _ _ _ _ Es) as (l1 & l2 & E & H1 & H2).
  exists l1, l2. auto.
Qed.

(* ================================================================== *)
(** * The entries of the correlation matrix *)
(* ================================================================== *)

Lemma get_None_keys {A : Type} (o : list (string * A)) (k : string) :
  Obj.get o k = None <-> ~ In k (Obj.keys o).
Proof.
  unfold Obj.keys. induction o as [|[k' v] o IH]; cbn; [ tauto | ].
  destruct (String.eqb_spec k' k) as [-> | Hne].
  - split; [ discriminate | ]. intros H. exfalso. apply H. now left.
  - rewrite IH. split; [ intros H [E | Hin]; auto | tauto ].
Qed.

Lemma keys_fold_set {A : Type} (f : string -> A) (cols : list string)
  (k : string) :
  In k (Obj.keys (fold_left (fun o c => Obj.set o c (f c)) cols []))
  <-> In k cols.
Proof.
  pose proof (get_fold_set f cols [] k) as Hget.
  pose proof (get_None_keys
                (fold_left (fun o c => Obj.set o c (f c)) cols []) k) as Hk.
  destruct (in_dec string_dec k cols) as [Hin | Hnin].
  - split; [ intros _; exact Hin | intros _ ].
    destruct (in_dec string_dec k
                (Obj.keys (fold_left (fun o c => Obj.set o c (f c)) cols [])))
      as [H | H]; [ exact H | ].
    apply Hk in H. congruence.
  - split; [ intros H | contradiction ].
    exfalso. cbn [Obj.get] in Hget. apply Hk in Hget. contradiction.
Qed.

(** X22. For listed columns that are property keys of a plain object
    ([__proto__] is not one), the properties of the matrix that
    [calculateCorrelationMatrix] returns are the listed columns, and so are
    the properties of each of its rows; the entry of two listed columns is 0
    when they do not have the same number of finite cells, or fewer than two
    of them. *)
Theorem calculateCorrelationMatrix_entries
  (data : list object) (numericColumns : list string) :
  ~ In "__proto__"%string numericColumns ->
  matrix_entries data numericColumns.
Proof.
  intros _. unfold matrix_entries.
  split; [ | split ].
  - intros a. unfold calculateCorrelationMatrix.
    apply (keys_fold_set
             (fun col1 =>
                fold_left
                  (fun row col2 =>
                     Obj.set row col2 (correlation_entry data col1 col2))
                  numericColumns [])).
  - intros a row Hrow b. unfold calculateCorrelationMatrix in Hrow.
    rewrite (get_fold_set
               (fun col1 =>
                  fold_left
                    (fun row col2 =>
                       Obj.set row col2 (correlation_entry data col1 col2))
                    numericColumns [])) in Hrow.
    destruct (in_dec string_dec a numericColumns) as [Ha | Ha];
      [ | discriminate Hrow ].
    injection Hrow as <-.
    apply (keys_fold_set (fun col2 => correlation_entry data a col2)).
  - intros a b Ha Hb. rewrite correlation_at_entry by assumption.
    eexists. split; [ reflexivity | ]. intros Hfew.
    unfold correlation_entry.
    destruct (Nat.eqb_spec (List.length (column_numbers data a))
                           (List.length (column_numbers data b)))
      as [E | E]; cbn [andb]; [ | reflexivity ].
    destruct (Nat.ltb_spec 1 (List.length (column_numbers data a)));
      [ | reflexivity ].
    destruct Hfew; [ contradiction | lia ].
Qed.

Lemma calculateCorrelationMatrix_entries_witness :
  matrix_entries scenario_E ["x"; "y"]%string.
Proof.
  apply calculateCorrelationMatrix_entries.
  intros [H | [H | []]]; discriminate H.
Defined.
